(** * LittleRoot PDF generator: a shallow embedding of [server/pdf_generator.py]

    The Python module turns a configuration dictionary (output path, page
    format, optional cover, list of story pages) into a multi-page PDF in
    which every image is scaled to fill its page.  This development embeds
    the module function by function and proves the properties its
    specification states.

    Modelling choices, all taken from the source:
    - Python numbers are [pynum]: unbounded [int]s and IEEE 754 binary64
      [float]s.  Floats are the Standard Library's [spec_float] with
      [prec = 53] and [emax = 1024], so every quotient, product and
      difference below is rounded exactly as CPython rounds it.
    - Values decoded from JSON are [json]; a dictionary is a [gmap] from
      strings.
    - [print(..., file=sys.stderr)] and exceptions are the effects of the
      module; they live in the monad [M] (a log of lines written so far
      and a result that is either a raised exception or a value).
    - PIL, ReportLab and the file system are outside the module; what they
      answer is taken from a [World] record.

    Assumed of the environment: writing a line to stderr succeeds, and
    nothing outside the [Exception] hierarchy ([KeyboardInterrupt],
    [SystemExit]) is raised while the module runs. *)

From Stdlib Require Import ZArith QArith Qpower Qabs Floats.SpecFloat Lia Lqa.
From stdpp Require Import base option list strings gmap.

Set Warnings "-register-all".
Open Scope Z_scope.

(** ** Binary64 floats *)

Module F64.

Definition prec : Z := 53.
Definition emax : Z := 1024.

Definition of_Z (z : Z) : spec_float := binary_normalize prec emax z 0 false.
Definition mul : spec_float -> spec_float -> spec_float := SFmul prec emax.
Definition div : spec_float -> spec_float -> spec_float := SFdiv prec emax.
Definition sub : spec_float -> spec_float -> spec_float := SFsub prec emax.
Definition ltb : spec_float -> spec_float -> bool := SFltb.

(** A decimal literal [n/d] of the source text ([5.5] is [55/10]): the
    binary64 number nearest to it.  Both integers are exact in binary64
    and the division rounds correctly, so this is the float the Python
    parser produces. *)
Definition literal (n d : Z) : spec_float := div (of_Z n) (of_Z d).

(** [1.0] *)
Definition one : spec_float := S754_finite false 4503599627370496 (-52).

Definition is_zero (f : spec_float) : bool :=
  match f with S754_zero _ => true | _ => false end.

Definition is_finite (f : spec_float) : bool :=
  match f with S754_zero _ | S754_finite _ _ _ => true | _ => false end.

(** The rational number a float denotes (0 for infinities and NaN, which
    no statement below evaluates). *)
Definition to_Q (f : spec_float) : Q :=
  match f with
  | S754_finite s m e =>
      let v := (inject_Z (Zpos m) * Qpower 2 e)%Q in
      if s then Qopp v else v
  | _ => 0%Q
  end.

(** Finite, positive, with a full 53-bit mantissa, and exponent between
    [lo] and [hi]: a normal number 2^(lo+52) <= x < 2^(hi+53). *)
Definition normal_in (lo hi : Z) (f : spec_float) : bool :=
  match f with
  | S754_finite false m e =>
      (Zpos (digits2_pos m) =? prec) && (lo <=? e) && (e <=? hi)
  | _ => false
  end.

(** One part in 2^52 (2^52 = 4503599627370496): twice the unit roundoff
    of binary64. *)
Definition eps : Q := 1 # 4503599627370496.

(** [R] is [X] rounded: within one part in 2^52 of [X]. *)
Definition near (X R : Q) : Prop :=
  (X * (1 - eps) <= R /\ R <= X * (1 + eps))%Q.

(** [x] is the offset computed for a page of size [page] and an image of
    scaled size [scaled]: [d] is the rounded difference and [x] exactly
    half of it, with the sign of the exact difference. *)
Definition offset_ok (page scaled d x : Q) : Prop :=
  (Qabs (d - (page - scaled)) <= eps * Qabs (page - scaled) /\
   x == d / 2 /\
   (page < scaled -> x < 0) /\ (scaled < page -> 0 < x) /\
   (page == scaled -> x == 0))%Q.

End F64.

(** ** Python numbers and exceptions *)

Inductive pynum :=
  | PInt (z : Z)
  | PFloat (f : spec_float).

(** The exceptions the module can meet.  All of them derive from
    [Exception], so every [except Exception] clause catches each of them.
    [LibraryError] stands for whatever PIL, ReportLab or [os] raise. *)
Inductive exn :=
  | ZeroDivisionError (msg : string)
  | OverflowError (msg : string)
  | KeyError (key : string)
  | TypeError (msg : string)
  | AttributeError (msg : string)
  | LibraryError (msg : string).

(** [str(e)] *)
Definition exn_str (e : exn) : string :=
  match e with
  | ZeroDivisionError m | OverflowError m | TypeError m
  | AttributeError m | LibraryError m => m
  | KeyError k => String.append "'" (String.append k "'")
  end.

Definition result (A : Type) : Type := exn + A.

(** The computation returned (it did not raise). *)
Definition ok {A} (r : result A) : bool :=
  match r with inr _ => true | inl _ => false end.

(** [float(x)]: an int is rounded to nearest-even; one too large for a
    binary64 raises. *)
Definition py_float (x : pynum) : result spec_float :=
  match x with
  | PFloat f => inr f
  | PInt z =>
      let f := F64.of_Z z in
      if F64.is_finite f then inr f
      else inl (OverflowError "int too large to convert to float")
  end.

Definition py_is_zero (x : pynum) : bool :=
  match x with
  | PInt z => z =? 0
  | PFloat f => F64.is_zero f
  end.

(** [a * b]: exact on two ints, otherwise the binary64 product. *)
Definition py_mul (a b : pynum) : result pynum :=
  match a, b with
  | PInt x, PInt y => inr (PInt (x * y))
  | _, _ =>
      match py_float a, py_float b with
      | inr x, inr y => inr (PFloat (F64.mul x y))
      | inl e, _ | _, inl e => inl e
      end
  end.

(** [a - b] *)
Definition py_sub (a b : pynum) : result pynum :=
  match a, b with
  | PInt x, PInt y => inr (PInt (x - y))
  | _, _ =>
      match py_float a, py_float b with
      | inr x, inr y => inr (PFloat (F64.sub x y))
      | inl e, _ | _, inl e => inl e
      end
  end.

(** [a / b] on two ints, [b] not 0: the binary64 number nearest to the
    exact quotient, whatever the size of the ints (CPython does not
    convert them first), and [OverflowError] when that is out of range.
    The Standard Library's division works on any pair of integer
    mantissas, so it is applied to the ints themselves. *)
Definition int_true_div (a b : Z) : result spec_float :=
  match a with
  | 0 => inr (S754_zero (b <? 0))
  | _ =>
      let q := F64.div (S754_finite (a <? 0) (Z.to_pos (Z.abs a)) 0)
                       (S754_finite (b <? 0) (Z.to_pos (Z.abs b)) 0) in
      if F64.is_finite q then inr q
      else inl (OverflowError "integer division result too large for a float")
  end.

(** [a / b], true division: always a float, [ZeroDivisionError] on a zero
    divisor.  With a float operand the other one is converted first. *)
Definition py_truediv (a b : pynum) : result pynum :=
  if py_is_zero b then
    inl (ZeroDivisionError "division by zero")
  else
    match a, b with
    | PInt x, PInt y =>
        match int_true_div x y with
        | inr q => inr (PFloat q)
        | inl e => inl e
        end
    | _, _ =>
        match py_float a, py_float b with
        | inr x, inr y => inr (PFloat (F64.div x y))
        | inl e, _ | _, inl e => inl e
        end
    end.

(** The exact value of a number. *)
Definition py_val (x : pynum) : Q :=
  match x with
  | PInt z => inject_Z z
  | PFloat f => F64.to_Q f
  end.

(** [b > a].  Two floats compare as IEEE does (false on NaN), two ints
    as integers, an int and a finite float by exact value. *)
Definition py_gt (b a : pynum) : bool :=
  match b, a with
  | PInt y, PInt x => x <? y
  | PFloat y, PFloat x => F64.ltb x y
  | PInt y, PFloat x =>
      match x with
      | S754_nan => false
      | S754_infinity s => s
      | _ => negb (Qle_bool (inject_Z y) (F64.to_Q x))
      end
  | PFloat y, PInt x =>
      match y with
      | S754_nan => false
      | S754_infinity s => negb s
      | _ => negb (Qle_bool (F64.to_Q y) (inject_Z x))
      end
  end.

(** [max(a, b)] of the builtin: the first argument unless the second is
    strictly greater. *)
Definition py_max (a b : pynum) : pynum := if py_gt b a then b else a.

(** ** Values decoded from JSON *)

Inductive json :=
  | JNull
  | JBool (b : bool)
  | JInt (z : Z)
  | JFloat (f : spec_float)
  | JStr (s : string)
  | JArr (l : list json)
  | JObj (m : gmap string json).

(** Truth value of an object in a condition ([if x:], [if not x:]). *)
Definition py_truthy (v : json) : bool :=
  match v with
  | JNull => false
  | JBool b => b
  | JInt z => negb (z =? 0)
  | JFloat f => negb (F64.is_zero f)
  | JStr s => negb (String.eqb s "")
  | JArr l => negb (Nat.eqb (length l) 0)
  | JObj m => negb (Nat.eqb (size m) 0)
  end.

(** [o[k]] with a string key. *)
Definition py_getitem (o : json) (k : string) : result json :=
  match o with
  | JObj m =>
      match m !! k with
      | Some v => inr v
      | None => inl (KeyError k)
      end
  | JArr _ => inl (TypeError "list indices must be integers or slices, not str")
  | JStr _ => inl (TypeError "string indices must be integers, not 'str'")
  | _ => inl (TypeError "object is not subscriptable")
  end.

(** [o.get(k, d)]; only dictionaries have the method. *)
Definition py_get (o : json) (k : string) (d : json) : result json :=
  match o with
  | JObj m => inr (default d (m !! k))
  | _ => inl (AttributeError "object has no attribute 'get'")
  end.

(** [len(o)] *)
Definition py_len (o : json) : result nat :=
  match o with
  | JStr s => inr (String.length s)
  | JArr l => inr (length l)
  | JObj m => inr (size m)
  | _ => inl (TypeError "object has no len()")
  end.

(** The items a [for] loop over [o] visits: the elements of a list, the
    one-character strings of a string, the keys of a dictionary. *)
Definition py_iter (o : json) : result (list json) :=
  match o with
  | JArr l => inr l
  | JStr s => inr ((fun a => JStr (String a EmptyString)) <$> String.list_ascii_of_string s)
  | JObj m => inr ((fun kv => JStr kv.1) <$> map_to_list m)
  | _ => inl (TypeError "object is not iterable")
  end.

(** [s.startswith(p)] on an arbitrary object: only strings have it. *)
Definition py_startswith (o : json) (p : string) : result bool :=
  match o with
  | JStr s => inr (String.prefix p s)
  | _ => inl (AttributeError "object has no attribute 'startswith'")
  end.

(** ** Effects: the stderr log and exceptions *)

(** One constructor per [print(..., file=sys.stderr)] of the module, with
    the values its f-string interpolates. *)
Inductive log_line :=
  | LogSkippingObjectStorage (path : json)      (* "Skipping object storage path: ..." *)
  | LogImageNotFound (path : json)              (* "Image not found: ..." *)
  | LogErrorLoadingImage (path : json) (e : exn) (* "Error loading image ...: ..." *)
  | LogErrorAddingImage (e : exn)               (* "Error adding image to page: ..." *)
  | LogGenerating (output_path : json)          (* "Generating PDF: ..." *)
  | LogFormat (fmt : json) (w_in h_in : pynum)  (* "Format: ... (w" x h")" *)
  | LogPages (n : nat)                          (* "Pages: ..." *)
  | LogAddingCover (path : json)                (* "Adding cover: ..." *)
  | LogCoverAdded                               (* "✓ Cover added" *)
  | LogSkippingPage (i : nat)                   (* "Skipping page i: no image path" *)
  | LogAddingPage (i n : nat) (path : json)     (* "Adding page i/n: ..." *)
  | LogPageAdded (i : nat)                      (* "✓ Page i added" *)
  | LogGenerated (output_path : json) (size : Z) (* "✓ PDF generated: ... (... MB)" *)
  | LogErrorGenerating (e : exn).               (* "Error generating PDF: ..." *)

(** A computation reads the lines printed so far and returns the lines
    printed when it stops together with what it raised or returned.
    Lines printed before a [raise] stay printed. *)
Definition M (A : Type) : Type := list log_line -> result A * list log_line.

Definition ret {A} (a : A) : M A := fun log => (inr a, log).
Definition raise {A} (e : exn) : M A := fun log => (inl e, log).
Definition bind {A B} (m : M A) (k : A -> M B) : M B :=
  fun log =>
    match m log with
    | (inr a, log') => k a log'
    | (inl e, log') => (inl e, log')
    end.
Definition lift {A} (r : result A) : M A :=
  match r with inr a => ret a | inl e => raise e end.
Definition print (l : log_line) : M unit := fun log => (inr tt, log ++ [l]).

(** [try: body  except Exception as e: handler(e)] *)
Definition try_except {A} (body : M A) (handler : exn -> M A) : M A :=
  fun log =>
    match body log with
    | (inr a, log') => (inr a, log')
    | (inl e, log') => handler e log'
    end.

Notation "'let*' x ':=' m 'in' k" := (bind m (fun x => k))
  (at level 10, x pattern, m at level 100, k at level 200).
Notation "'run' m 'in' k" := (bind m (fun _ => k))
  (at level 10, m at level 100, k at level 200).

(** ** The libraries the module calls *)

(** A decoded PIL image: its colour mode and its pixel size. *)
Record image := { img_mode : string; img_size : Z * Z }.

(** ReportLab's [ImageReader], a wrapper around a PIL image. *)
Record ImageReader := { reader_image : image }.

(** What [drawImage] leaves on the current page.  The module always
    passes [preserveAspectRatio=False] and [mask='auto']. *)
Inductive draw_op :=
  | DrawImage (r : ImageReader) (x y width height : pynum).

(** ReportLab's [Canvas]: the operations of the page being drawn and the
    pages already finished by [showPage], oldest first. *)
Record Canvas := {
  filename : json;
  pagesize : pynum * pynum;
  code : list draw_op;
  pages : list (list draw_op)
}.

(** Answers of PIL, ReportLab and the file system. *)
Record World := {
  os_path_exists : json -> bool;
  Image_open : json -> result image;
  Image_convert : image -> string -> result image;
  ImageReader_init : image -> result ImageReader;
  getSize : ImageReader -> result (Z * Z);
  (** [Some e] when [drawImage] raises [e] *)
  drawImage_raises : ImageReader -> pynum -> pynum -> pynum -> pynum -> option exn;
  (** [Some e] when writing the file raises [e] *)
  save_raises : Canvas -> option exn;
  (** size of the file [save] wrote *)
  os_path_getsize : Canvas -> result Z
}.

Section Generator.

Variable W : World.

(** [canvas.Canvas(filename, pagesize=...)]: nothing is written yet. *)
Definition Canvas_init (fname : json) (size : pynum * pynum) : Canvas :=
  {| filename := fname; pagesize := size; code := []; pages := [] |}.

Definition drawImage (c : Canvas) (r : ImageReader) (x y width height : pynum)
  : M Canvas :=
  match drawImage_raises W r x y width height with
  | Some e => raise e
  | None =>
      ret {| filename := filename c; pagesize := pagesize c;
             code := code c ++ [DrawImage r x y width height];
             pages := pages c |}
  end.

Definition showPage (c : Canvas) : Canvas :=
  {| filename := filename c; pagesize := pagesize c;
     code := []; pages := pages c ++ [code c] |}.

Definition save (c : Canvas) : M unit :=
  match save_raises W c with
  | Some e => raise e
  | None => ret tt
  end.

(** ** The module *)

(** [PDF_FORMATS]: sizes in inches, written as the source writes them
    (an int where it writes an int, a float where it writes a float). *)
Definition PDF_FORMATS : gmap string (pynum * pynum) :=
  list_to_map
    [ ("5.5x8.5", (PFloat (F64.literal 55 10), PFloat (F64.literal 85 10)));
      ("7x7", (PInt 7, PInt 7));
      ("8x8", (PInt 8, PInt 8));
      ("6x9", (PInt 6, PInt 9));
      ("8x10", (PInt 8, PInt 10));
      ("5x8", (PInt 5, PInt 8));
      ("8.5x11", (PFloat (F64.literal 85 10), PInt 11));
      ("8.5x8.5", (PFloat (F64.literal 85 10), PFloat (F64.literal 85 10)));
      ("6.14x9.21", (PFloat (F64.literal 614 100), PFloat (F64.literal 921 100)));
      ("8.25x6", (PFloat (F64.literal 825 100), PInt 6)) ].

(** [format_name in PDF_FORMATS]: lists and dictionaries cannot be
    hashed; any other value that is not a string is simply absent. *)
Definition in_PDF_FORMATS (format_name : json) : result (option (pynum * pynum)) :=
  match format_name with
  | JStr s => inr (PDF_FORMATS !! s)
  | JArr _ | JObj _ => inl (TypeError "unhashable type")
  | _ => inr None
  end.

Definition get_page_size (format_name : json) : result (pynum * pynum) :=
  match in_PDF_FORMATS format_name with
  | inl e => inl e
  | inr (Some (width_in, height_in)) =>
      match py_mul width_in (PInt 72), py_mul height_in (PInt 72) with
      | inr w, inr h => inr (w, h)
      | inl e, _ | _, inl e => inl e
      end
  | inr None => inr (PInt (8 * 72), PInt (8 * 72))
  end.

Definition load_image_from_path (image_path : json) : M (option ImageReader) :=
  try_except
    (let* slash_objects := lift (py_startswith image_path "/objects/") in
     let* storage :=
       (if slash_objects : bool then ret true
        else lift (py_startswith image_path "objects/")) in
     if storage : bool then
       run print (LogSkippingObjectStorage image_path) in
       ret None
     else if negb (os_path_exists W image_path) then
       run print (LogImageNotFound image_path) in
       ret None
     else
       let* img := lift (Image_open W image_path) in
       let* img :=
         (if negb (String.eqb (img_mode img) "RGB" || String.eqb (img_mode img) "L")
          then lift (Image_convert W img "RGB")
          else ret img) in
       let* reader := lift (ImageReader_init W img) in
       ret (Some reader))
    (fun e =>
       run print (LogErrorLoadingImage image_path e) in
       ret None).

Definition add_image_to_page (c : Canvas) (image_reader : option ImageReader)
    (page_width page_height : pynum) : M Canvas :=
  match image_reader with
  | None => ret c
  | Some reader =>
      try_except
        (let* (img_width, img_height) := lift (getSize W reader) in
         let* scale_x := lift (py_truediv page_width (PInt img_width)) in
         let* scale_y := lift (py_truediv page_height (PInt img_height)) in
         let scale := py_max scale_x scale_y in
         let* scaled_width := lift (py_mul (PInt img_width) scale) in
         let* scaled_height := lift (py_mul (PInt img_height) scale) in
         let* dx := lift (py_sub page_width scaled_width) in
         let* x := lift (py_truediv dx (PInt 2)) in
         let* dy := lift (py_sub page_height scaled_height) in
         let* y := lift (py_truediv dy (PInt 2)) in
         drawImage c reader x y scaled_width scaled_height)
        (fun e =>
           run print (LogErrorAddingImage e) in
           ret c)
  end.

(** The body of [for i, page in enumerate(pages)], for the items from
    index [i] on; [pages] is the object being iterated, whose length the
    progress line prints. *)
Fixpoint story_pages (page_width page_height : pynum) (pages : json)
    (i : nat) (items : list json) (c : Canvas) : M Canvas :=
  match items with
  | [] => ret c
  | page :: rest =>
      let* image_path := lift (py_get page "image_path" JNull) in
      if negb (py_truthy image_path) then
        run print (LogSkippingPage (i + 1)) in
        story_pages page_width page_height pages (S i) rest c
      else
        let* n := lift (py_len pages) in
        run print (LogAddingPage (i + 1) n image_path) in
        let* img_reader := load_image_from_path image_path in
        match img_reader with
        | Some reader =>
            let* c := add_image_to_page c (Some reader) page_width page_height in
            let c := showPage c in
            run print (LogPageAdded (i + 1)) in
            story_pages page_width page_height pages (S i) rest c
        | None => story_pages page_width page_height pages (S i) rest c
        end
  end.

(** The cover step of [generate_pdf]. *)
Definition add_cover (page_width page_height : pynum) (cover_image : json)
    (c : Canvas) : M Canvas :=
  if py_truthy cover_image then
    run print (LogAddingCover cover_image) in
    let* img_reader := load_image_from_path cover_image in
    match img_reader with
    | Some reader =>
        let* c := add_image_to_page c (Some reader) page_width page_height in
        let c := showPage c in
        run print LogCoverAdded in
        ret c
    | None => ret c
    end
  else ret c.

(** The [try] block of [generate_pdf]; it also hands back the canvas it
    saved, which the statements about the pages of the document read. *)
Definition generate_pdf_body (config : json) : M (json * Canvas) :=
  let* output_path := lift (py_getitem config "output_path") in
  let* pdf_format := lift (py_get config "format" (JStr "8x8")) in
  let* cover_image := lift (py_get config "cover_image" JNull) in
  let* pages := lift (py_get config "pages" (JArr [])) in
  let* (page_width, page_height) := lift (get_page_size pdf_format) in
  run print (LogGenerating output_path) in
  let* w_in := lift (py_truediv page_width (PInt 72)) in
  let* h_in := lift (py_truediv page_height (PInt 72)) in
  run print (LogFormat pdf_format w_in h_in) in
  let* n := lift (py_len pages) in
  run print (LogPages n) in
  let c := Canvas_init output_path (page_width, page_height) in
  let* c := add_cover page_width page_height cover_image c in
  let* items := lift (py_iter pages) in
  let* c := story_pages page_width page_height pages 0 items c in
  run save c in
  let* file_size := lift (os_path_getsize W c) in
  run print (LogGenerated output_path file_size) in
  let* n := lift (py_len pages) in
  ret (JObj {[ "success" := JBool true;
               "output_path" := output_path;
               "file_size" := JInt file_size;
               "page_count" :=
                 JInt (Z.of_nat n + (if py_truthy cover_image then 1 else 0)) ]},
       c).

(** [file_size / (1024 * 1024)], the figure the last progress line shows
    with one decimal; [LogGenerated] keeps the size it is computed from. *)
Definition file_size_mb (file_size : Z) : result pynum :=
  py_truediv (PInt file_size) (PInt (1024 * 1024)).

Definition generate_pdf (config : json) : M json :=
  try_except
    (let* (res, _) := generate_pdf_body config in ret res)
    (fun e =>
       run print (LogErrorGenerating e) in
       ret (JObj {[ "success" := JBool false;
                    "error" := JStr (exn_str e) ]})).

(** The script: [config] is what [json.loads]/[json.load] decoded (or the
    exception it raised, which nothing catches: the interpreter then
    prints a traceback and exits with status 1).  Returns what was
    printed on stdout and the exit status. *)
Definition main (config : result json) : M (list json * Z) :=
  match config with
  | inl e => ret ([], 1)
  | inr config =>
      let* res := generate_pdf config in
      let* success := lift (py_getitem res "success") in
      ret ([res], if py_truthy success then 0 else 1)
  end.

End Generator.

(** * Notions used in the statements *)

(** Every computation of the module only appends to the log and never
    reads it: running it after [log] is running it on the empty log and
    prepending [log]. *)
Definition frame {A} (m : M A) : Prop :=
  forall log, m log = ((m []).1, log ++ (m []).2).

(** A computation that stops with a value [a] after printing [out]. *)
Definition returns {A} (m : M A) (a : A) (out : list log_line) : Prop :=
  forall log, m log = (inr a, log ++ out).

(** A page dimension between 256 and 1024 points: an int in that range,
    or a normal binary64 float in it (exponent -44 or -43 under a 53-bit
    mantissa). *)
Definition page_dim_ok (x : pynum) : bool :=
  match x with
  | PInt z => (256 <=? z) && (z <? 1024)
  | PFloat f => F64.normal_in (-44) (-43) f
  end.

Section Views.

Variable W : World.

(** What [load_image_from_path] hands back and what it prints. *)
Definition load_outcome (p : json) : option ImageReader * list log_line :=
  let r := load_image_from_path W p [] in
  (match r.1 with inr o => o | inl _ => None end, r.2).

(** The arithmetic of [add_image_to_page]: position and size of the
    image on the page, or the exception the computation raises. *)
Definition placement (reader : ImageReader) (page_width page_height : pynum)
  : result (pynum * pynum * pynum * pynum) :=
  match getSize W reader with
  | inl e => inl e
  | inr (img_width, img_height) =>
  match py_truediv page_width (PInt img_width) with
  | inl e => inl e
  | inr scale_x =>
  match py_truediv page_height (PInt img_height) with
  | inl e => inl e
  | inr scale_y =>
  let scale := py_max scale_x scale_y in
  match py_mul (PInt img_width) scale with
  | inl e => inl e
  | inr scaled_width =>
  match py_mul (PInt img_height) scale with
  | inl e => inl e
  | inr scaled_height =>
  match py_sub page_width scaled_width with
  | inl e => inl e
  | inr dx =>
  match py_truediv dx (PInt 2) with
  | inl e => inl e
  | inr x =>
  match py_sub page_height scaled_height with
  | inl e => inl e
  | inr dy =>
  match py_truediv dy (PInt 2) with
  | inl e => inl e
  | inr y => inr (x, y, scaled_width, scaled_height)
  end end end end end end end end end.

(** What one call leaves on the current page and what it prints. *)
Definition image_outcome (reader : ImageReader) (pw ph : pynum)
  : list draw_op * list log_line :=
  match placement reader pw ph with
  | inl e => ([], [LogErrorAddingImage e])
  | inr (x, y, w, h) =>
      match drawImage_raises W reader x y w h with
      | Some e => ([], [LogErrorAddingImage e])
      | None => ([DrawImage reader x y w h], [])
      end
  end.

Definition draw_on (c : Canvas) (ops : list draw_op) : Canvas :=
  {| filename := filename c; pagesize := pagesize c;
     code := code c ++ ops; pages := pages c |}.

(** The pages (none or one) that an image path contributes. *)
Definition image_pages (pw ph : pynum) (image_path : json) : list (list draw_op) :=
  match (load_outcome image_path).1 with
  | Some reader => [(image_outcome reader pw ph).1]
  | None => []
  end.

(** The pages a story entry (a dictionary) contributes. *)
Definition entry_pages (pw ph : pynum) (page : gmap string json)
  : list (list draw_op) :=
  let image_path := default JNull (page !! "image_path") in
  if py_truthy image_path then image_pages pw ph image_path else [].

Definition cover_pages (pw ph : pynum) (cover_image : json) : list (list draw_op) :=
  if py_truthy cover_image then image_pages pw ph cover_image else [].

Definition with_pages (c : Canvas) (ps : list (list draw_op)) : Canvas :=
  {| filename := filename c; pagesize := pagesize c; code := []; pages := ps |}.

(** The document a configuration describes: the cover's page, then the
    pages of the story entries in the order of the list. *)
Definition document (pw ph : pynum) (cover_image : json)
    (ms : list (gmap string json)) : list (list draw_op) :=
  cover_pages pw ph cover_image ++ flat_map (entry_pages pw ph) ms.

Definition final_canvas (out : json) (pw ph : pynum) (cover_image : json)
    (ms : list (gmap string json)) : Canvas :=
  {| filename := out; pagesize := (pw, ph); code := [];
     pages := document pw ph cover_image ms |}.

Definition success_record (out : json) (file_size : Z) (page_count : Z) : json :=
  JObj {[ "success" := JBool true;
          "output_path" := out;
          "file_size" := JInt file_size;
          "page_count" := JInt page_count ]}.

Definition failure_record (e : exn) : json :=
  JObj {[ "success" := JBool false; "error" := JStr (exn_str e) ]}.

End Views.

(** * A sample run

    A world with four files and a configuration that meets every case of
    the loop; the concrete instances below are evaluated on it. *)

Module Sample.

Definition img (mode : string) (w h : Z) : image :=
  {| img_mode := mode; img_size := (w, h) |}.

Definition reader (mode : string) (w h : Z) : ImageReader :=
  {| reader_image := img mode w h |}.

Definition world : World :=
  {| os_path_exists := fun p =>
       match p with
       | JStr "cover.png" | JStr "wide.png" | JStr "empty.png"
       | JStr "broken.png" => true
       | _ => false
       end;
     Image_open := fun p =>
       match p with
       | JStr "cover.png" => inr (img "RGBA" 519 519)
       | JStr "wide.png" => inr (img "RGB" 100 50)
       | JStr "empty.png" => inr (img "L" 0 10)
       | _ => inl (LibraryError "cannot identify image file")
       end;
     Image_convert := fun i mode => inr (img mode (img_size i).1 (img_size i).2);
     ImageReader_init := fun i => inr {| reader_image := i |};
     getSize := fun r => inr (img_size (reader_image r));
     drawImage_raises := fun _ _ _ _ _ => None;
     save_raises := fun _ => None;
     os_path_getsize := fun c => inr (1000 + 100 * Z.of_nat (length (pages c))) |}.

(** The same files on a disk that cannot be written. *)
Definition read_only_world : World :=
  {| os_path_exists := os_path_exists world;
     Image_open := Image_open world;
     Image_convert := Image_convert world;
     ImageReader_init := ImageReader_init world;
     getSize := getSize world;
     drawImage_raises := drawImage_raises world;
     save_raises := fun _ => Some (LibraryError "Permission denied");
     os_path_getsize := os_path_getsize world |}.

(** The same files with a library that answers sizes as PIL has them
    only (sides from 0 to 2^31 - 1). *)
Definition pil_world : World :=
  {| os_path_exists := os_path_exists world;
     Image_open := Image_open world;
     Image_convert := Image_convert world;
     ImageReader_init := ImageReader_init world;
     getSize := fun r =>
       let size := img_size (reader_image r) in
       if (0 <=? size.1) && (size.1 <? 2 ^ 31) && (0 <=? size.2) && (size.2 <? 2 ^ 31)
       then inr size
       else inl (LibraryError "image size out of range");
     drawImage_raises := drawImage_raises world;
     save_raises := save_raises world;
     os_path_getsize := os_path_getsize world |}.

Definition page (path : string) : gmap string json :=
  {[ "image_path" := JStr path ]}.

Definition story : list (gmap string json) :=
  [ page "wide.png"; page "objects/uploads/3.png"; page "missing.png";
    page "broken.png"; page "empty.png"; ∅; page "" ].

Definition config : gmap string json :=
  {[ "output_path" := JStr "book.pdf";
     "cover_image" := JStr "cover.png";
     "pages" := JArr (JObj <$> story) ]}.

End Sample.

(** * Binary64 arithmetic

    What the Standard Library's specification of IEEE 754 operations
    gives on normal numbers: the result of a product, a quotient or a
    difference is within one part in 2^52 of the exact one, converting a
    small int and halving are exact, and comparison is comparison of
    values. *)

Module F64Facts.
Import F64.

(** *** Bit lengths *)
Lemma digits2_pos_bounds p :
  2 ^ (Zpos (digits2_pos p) - 1) <= Zpos p < 2 ^ Zpos (digits2_pos p).
Proof.
  induction p as [p IH|p IH|]; cbn [digits2_pos].
  - rewrite Pos2Z.inj_succ.
    replace (Z.succ (Zpos (digits2_pos p)) - 1) with (Z.succ (Zpos (digits2_pos p) - 1)) by lia.
    rewrite !Z.pow_succ_r by lia. lia.
  - rewrite Pos2Z.inj_succ.
    replace (Z.succ (Zpos (digits2_pos p)) - 1) with (Z.succ (Zpos (digits2_pos p) - 1)) by lia.
    rewrite !Z.pow_succ_r by lia. lia.
  - simpl. lia.
Qed.

Lemma digits2_pos_unique p k :
  2 ^ (k - 1) <= Zpos p < 2 ^ k -> Zpos (digits2_pos p) = k.
Proof.
  intros [Hlo Hhi]. pose proof (digits2_pos_bounds p) as [Dlo Dhi].
  assert (0 < k).
  { destruct (Z.lt_ge_cases 0 k) as [|Hk]; [done|]. exfalso.
    assert (2 ^ k <= 1); [|lia].
    destruct (Z.eq_dec k 0) as [->|]; [simpl; lia|].
    rewrite Z.pow_neg_r by lia. lia. }
  destruct (Z.lt_trichotomy (Zpos (digits2_pos p)) k) as [H1|[H1|H1]]; [|done|].
  - assert (2 ^ Zpos (digits2_pos p) <= 2 ^ (k - 1)) by (apply Z.pow_le_mono_r; lia). lia.
  - assert (2 ^ k <= 2 ^ (Zpos (digits2_pos p) - 1)) by (apply Z.pow_le_mono_r; lia). lia.
Qed.

(** *** Shifting right and rounding *)
Lemma shr_1_m mrs : 0 <= shr_m mrs -> shr_m (shr_1 mrs) = shr_m mrs / 2.
Proof.
  destruct mrs as [m r s]. cbn [shr_m shr_1]. intros H.
  destruct m as [|[p|p|]|p]; cbn [shr_m]; try reflexivity; try lia.
  - rewrite (Pos2Z.inj_xI p). apply Z.div_unique with 1; lia.
  - rewrite (Pos2Z.inj_xO p). apply Z.div_unique with 0; lia.
Qed.

Lemma iter_shr_1_m p : forall mrs,
  0 <= shr_m mrs -> shr_m (SpecFloat.iter_pos shr_1 p mrs) = shr_m mrs / 2 ^ Zpos p.
Proof.
  induction p as [p IH|p IH|]; intros mrs H; cbn [SpecFloat.iter_pos].
  - assert (H1 : 0 <= shr_m (shr_1 mrs)) by (rewrite shr_1_m by done; apply Z.div_pos; lia).
    assert (H2 : 0 <= shr_m (SpecFloat.iter_pos shr_1 p (shr_1 mrs)))
      by (rewrite IH by done; apply Z.div_pos; [done|apply Z.pow_pos_nonneg; lia]).
    rewrite IH, IH, shr_1_m by done.
    rewrite !Z.div_div by (try apply Z.pow_pos_nonneg; lia).
    f_equal.
    replace (Zpos p~1) with (1 + Zpos p + Zpos p) by lia.
    rewrite !Z.pow_add_r by lia. lia.
  - assert (H2 : 0 <= shr_m (SpecFloat.iter_pos shr_1 p mrs))
      by (rewrite IH by done; apply Z.div_pos; [done|apply Z.pow_pos_nonneg; lia]).
    rewrite IH, IH by done.
    rewrite !Z.div_div by (try apply Z.pow_pos_nonneg; lia).
    f_equal.
    replace (Zpos p~0) with (Zpos p + Zpos p) by lia.
    rewrite !Z.pow_add_r by lia. lia.
  - rewrite shr_1_m by done. reflexivity.
Qed.

Lemma shr_record_of_loc_m m l : shr_m (shr_record_of_loc m l) = m.
Proof. destruct l as [|[]]; reflexivity. Qed.

Lemma shr_m_shift m l e n :
  0 <= m -> 0 <= n ->
  shr (shr_record_of_loc m l) e n =
    (fst (shr (shr_record_of_loc m l) e n), e + n) /\
  shr_m (fst (shr (shr_record_of_loc m l) e n)) = m / 2 ^ n.
Proof.
  intros Hm Hn. destruct n as [|p|p]; [| |lia]; cbn [shr fst].
  - rewrite shr_record_of_loc_m, Z.add_0_r, Z.div_1_r. done.
  - rewrite iter_shr_1_m by (rewrite shr_record_of_loc_m; done).
    rewrite shr_record_of_loc_m. done.
Qed.

Lemma round_nearest_even_cases m l :
  round_nearest_even m l = m \/ round_nearest_even m l = m + 1.
Proof. destruct l as [|[]]; cbn; try (destruct (Z.even m)); auto. Qed.

Lemma fexp_normal e : -1074 <= e - 53 -> fexp prec emax e = e - 53.
Proof. intros H. unfold fexp, emin, prec, emax. lia. Qed.

Lemma shr_fexp_eq m l e :
  let d := Zpos (digits2_pos m) in
  53 <= d -> -1074 <= d + e - 53 ->
  exists mrs, shr_fexp prec emax (Zpos m) e l = (mrs, e + (d - 53)) /\
              shr_m mrs = Zpos m / 2 ^ (d - 53).
Proof.
  intros d Hd He. unfold shr_fexp. cbn [Zdigits2]. fold d.
  rewrite fexp_normal by lia.
  replace (d + e - 53 - e) with (d - 53) by lia.
  destruct (shr_m_shift (Zpos m) l e (d - 53)) as [E1 E2]; [lia|lia|].
  eexists. split; [exact E1|exact E2].
Qed.

Lemma div_pow2_bounds m :
  let d := Zpos (digits2_pos m) in
  53 <= d -> 2 ^ 52 <= Zpos m / 2 ^ (d - 53) < 2 ^ 53.
Proof.
  intros d Hd. pose proof (digits2_pos_bounds m) as [Hlo Hhi]. fold d in Hlo, Hhi.
  assert (Hp : 0 < 2 ^ (d - 53)) by (apply Z.pow_pos_nonneg; lia).
  assert (E1 : 2 ^ (d - 1) = 2 ^ 52 * 2 ^ (d - 53))
    by (rewrite <- Z.pow_add_r by lia; f_equal; lia).
  assert (E2 : 2 ^ d = 2 ^ 53 * 2 ^ (d - 53))
    by (rewrite <- Z.pow_add_r by lia; f_equal; lia).
  split.
  - apply Z.div_le_lower_bound; lia.
  - apply Z.div_lt_upper_bound; lia.
Qed.

(** Rounding a mantissa of at least 53 bits in the normal range: the
    result keeps the top 53 bits, possibly plus one unit in the last
    place (with a carry into the next binade when that overflows the
    mantissa). *)
Lemma binary_round_aux_normal s m e l :
  let d := Zpos (digits2_pos m) in
  let t := Zpos m / 2 ^ (d - 53) in
  53 <= d -> -1074 <= d + e - 53 -> d + e <= 1023 ->
  exists m',
    (binary_round_aux prec emax s (Zpos m) e l = S754_finite s m' (e + (d - 53)) /\
     (Zpos m' = t \/ Zpos m' = t + 1) /\ Zpos m' < 2 ^ 53) \/
    (binary_round_aux prec emax s (Zpos m) e l = S754_finite s m' (e + (d - 53) + 1) /\
     Zpos m' = 2 ^ 52 /\ t + 1 = 2 ^ 53).
Proof.
  intros d t Hd Hlo Hhi.
  pose proof (div_pow2_bounds m Hd) as Ht. fold d t in Ht.
  destruct (shr_fexp_eq m l e Hd Hlo) as (mrs & E1 & E2). fold d t in E1, E2.
  unfold binary_round_aux. rewrite E1. rewrite E2.
  set (m1 := round_nearest_even t (loc_of_shr_record mrs)).
  assert (Hm1 : m1 = t \/ m1 = t + 1) by apply round_nearest_even_cases.
  destruct m1 as [|q|q] eqn:Eq; [lia| |lia].
  destruct (Z.eq_dec (Zpos q) (2 ^ 53)) as [Hc|Hc].
  - (* carry *)
    assert (Hq : Zpos (digits2_pos q) = 54) by (apply digits2_pos_unique; rewrite Hc; simpl; lia).
    unfold shr_fexp. cbn [Zdigits2]. rewrite Hq.
    rewrite fexp_normal by lia.
    replace (54 + (e + (d - 53)) - 53 - (e + (d - 53))) with 1 by lia.
    cbn [shr shr_record_of_loc SpecFloat.iter_pos].
    injection Hc as ->. cbn [shr_1 shr_m].
    replace (e + (d - 53) + 1 <=? emax - prec) with true
      by (symmetry; apply Z.leb_le; unfold emax, prec; lia).
    eexists. right. split; [reflexivity|]. split; [reflexivity|]. lia.
  - assert (Hq : Zpos (digits2_pos q) = 53) by (apply digits2_pos_unique; lia).
    unfold shr_fexp. cbn [Zdigits2]. rewrite Hq.
    rewrite fexp_normal by lia.
    replace (53 + (e + (d - 53)) - 53 - (e + (d - 53))) with 0 by lia.
    cbn [shr shr_record_of_loc shr_m].
    replace (e + (d - 53) <=? emax - prec) with true
      by (symmetry; apply Z.leb_le; unfold emax, prec; lia).
    exists q. left. split; [reflexivity|]. split; lia.
Qed.

Lemma binary_round_aux_exact s m e :
  Zpos (digits2_pos m) = 53 -> -1074 <= e <= 971 ->
  binary_round_aux prec emax s (Zpos m) e loc_Exact = S754_finite s m e.
Proof.
  intros Hd He. unfold binary_round_aux, shr_fexp. cbn [Zdigits2]. rewrite Hd.
  rewrite fexp_normal by lia.
  replace (53 + e - 53 - e) with 0 by lia.
  cbn [shr shr_record_of_loc shr_m loc_of_shr_record round_nearest_even Zdigits2].
  rewrite Hd. rewrite fexp_normal by lia.
  replace (53 + e - 53 - e) with 0 by lia.
  cbn [shr shr_m].
  replace (e <=? emax - prec) with true
    by (symmetry; apply Z.leb_le; unfold emax, prec; lia).
  reflexivity.
Qed.

Lemma pow2_pos e : (0 < Qpower 2 e)%Q.
Proof. apply Qpower_0_lt. reflexivity. Qed.

Lemma pow2_add a b : (Qpower 2 (a + b) == Qpower 2 a * Qpower 2 b)%Q.
Proof. apply Qpower_plus. discriminate. Qed.

Lemma pow2_Z n : 0 <= n -> (Qpower 2 n == inject_Z (2 ^ n))%Q.
Proof. intros H. symmetry. apply (Zpower_Qpower 2 n H). Qed.

Lemma pow2_le a b : a <= b -> (Qpower 2 a <= Qpower 2 b)%Q.
Proof. intros H. apply Qpower_le_compat_l; [done|]. discriminate. Qed.

Lemma round_rel (X R u a : Q) :
  (0 < u -> inject_Z (2 ^ 52) * u <= a -> a <= X -> X < a + u ->
   R == a \/ R == a + u ->
   X * (1 - eps) <= R /\ R <= X * (1 + eps))%Q.
Proof.
  intros Hu Ha Hlo Hhi HR.
  assert (Hx : (u <= X * eps)%Q).
  { unfold eps. change (inject_Z (2 ^ 52)) with (4503599627370496 # 1)%Q in Ha.
    change (2 ^ 52)%positive with 4503599627370496%positive. lra. }
  destruct HR as [HR|HR]; rewrite HR; split; lra.
Qed.

Lemma binary_round_aux_value s m e l (X : Q) :
  let d := Zpos (digits2_pos m) in
  53 <= d -> -1074 <= d + e - 53 -> d + e <= 1023 ->
  (inject_Z (Zpos m) * Qpower 2 e <= X)%Q ->
  (X < (inject_Z (Zpos m) + 1) * Qpower 2 e)%Q ->
  exists m' e',
    binary_round_aux prec emax s (Zpos m) e l = S754_finite s m' e' /\
    Zpos (digits2_pos m') = 53 /\ d + e - 53 <= e' <= d + e - 52 /\
    (X * (1 - eps) <= inject_Z (Zpos m') * Qpower 2 e' /\
     inject_Z (Zpos m') * Qpower 2 e' <= X * (1 + eps))%Q.
Proof.
  intros d Hd Hlo Hhi HX1 HX2.
  pose proof (div_pow2_bounds m Hd) as Ht. fold d in Ht.
  set (p := d - 53) in *. set (t := Zpos m / 2 ^ p) in *.
  assert (HP : 0 < 2 ^ p) by (apply Z.pow_pos_nonneg; lia).
  assert (Hdiv : t * 2 ^ p <= Zpos m /\ Zpos m + 1 <= (t + 1) * 2 ^ p).
  { pose proof (Z.div_mod (Zpos m) (2 ^ p) ltac:(lia)) as E.
    pose proof (Z.mod_pos_bound (Zpos m) (2 ^ p) HP) as B. fold t in E. nia. }
  set (u := Qpower 2 (e + p)).
  set (a := (inject_Z t * u)%Q).
  assert (Hu : (0 < u)%Q) by apply pow2_pos.
  assert (Eu : (u == Qpower 2 p * Qpower 2 e)%Q).
  { unfold u. rewrite Z.add_comm. apply pow2_add. }
  assert (Ha : (inject_Z (2 ^ 52) * u <= a)%Q).
  { unfold a. apply Qmult_le_compat_r; [|lra]. rewrite <- Zle_Qle. lia. }
  assert (Hal : (a <= X)%Q).
  { eapply Qle_trans; [|exact HX1]. unfold a. rewrite Eu, Qmult_assoc.
    apply Qmult_le_compat_r; [|pose proof (pow2_pos e); lra].
    rewrite pow2_Z by lia. rewrite <- inject_Z_mult, <- Zle_Qle. lia. }
  assert (Hah : (X < a + u)%Q).
  { eapply Qlt_le_trans; [exact HX2|].
    assert (Eau : (a + u == (inject_Z (t + 1) * Qpower 2 p) * Qpower 2 e)%Q)
      by (unfold a; rewrite Eu, inject_Z_plus; ring).
    rewrite Eau.
    apply Qmult_le_compat_r; [|pose proof (pow2_pos e); lra].
    rewrite pow2_Z by lia.
    rewrite <- inject_Z_mult. change 1%Q with (inject_Z 1).
    rewrite <- inject_Z_plus, <- Zle_Qle. lia. }
  destruct (binary_round_aux_normal s m e l Hd Hlo Hhi) as [m' [(E & Hm & Hb)|(E & Hm & Hc)]];
    fold d p t in E, Hm; try fold d p t in Hc.
  - exists m', (e + p). split; [exact E|].
    split; [apply digits2_pos_unique; lia|]. split; [lia|].
    apply (round_rel X _ u a); try done.
    fold u. destruct Hm as [-> | ->]; [left; reflexivity|right].
    unfold a. rewrite inject_Z_plus. ring.
  - exists m', (e + p + 1). split; [exact E|].
    split; [apply digits2_pos_unique; rewrite Hm; simpl; lia|]. split; [lia|].
    apply (round_rel X _ u a); try done.
    right. rewrite Hm. rewrite pow2_add. fold u.
    unfold a. replace t with (2 ^ 53 - 1) by lia.
    change (Qpower 2 1) with 2%Q.
    change (inject_Z (2 ^ 52)) with (4503599627370496 # 1)%Q.
    change (inject_Z (2 ^ 53 - 1)) with (9007199254740991 # 1)%Q. ring.
Qed.

(** *** Shifting left *)
Lemma iter_xO_Z m k : Zpos (Pos.iter xO m k) = Zpos m * 2 ^ Zpos k.
Proof.
  induction k as [|k IH] using Pos.peano_ind.
  - simpl. lia.
  - rewrite Pos.iter_succ, Pos2Z.inj_xO, IH, Pos2Z.inj_succ, Z.pow_succ_r by lia. lia.
Qed.

Lemma shl_align_fst m e e' :
  e' <= e -> Zpos (fst (shl_align m e e')) = Zpos m * 2 ^ (e - e') /\
             snd (shl_align m e e') = e'.
Proof.
  intros H. unfold shl_align.
  destruct (e' - e) as [|k|k] eqn:E; cbn [fst snd]; [| lia |].
  - replace (e - e') with 0 by lia. simpl. lia.
  - rewrite iter_xO_Z. replace (e - e') with (Zpos k) by lia. done.
Qed.

Lemma digits_shift m k d :
  0 <= k -> Zpos (digits2_pos m) = d ->
  forall q, Zpos q = Zpos m * 2 ^ k -> Zpos (digits2_pos q) = d + k.
Proof.
  intros Hk Hd q Hq. pose proof (digits2_pos_bounds m) as [Hlo Hhi]. rewrite Hd in *.
  assert (0 < d) by lia.
  apply digits2_pos_unique. rewrite Hq.
  replace (d + k - 1) with (d - 1 + k) by lia.
  rewrite !Z.pow_add_r by lia.
  assert (0 < 2 ^ k) by (apply Z.pow_pos_nonneg; lia). nia.
Qed.

(** Rounding [m * 2^e] to binary64 ([binary_round]): within one part in
    2^52 of the value, and exact when the mantissa has at most 53 bits. *)
Lemma binary_round_value s m e :
  let d := Zpos (digits2_pos m) in
  let X := (inject_Z (Zpos m) * Qpower 2 e)%Q in
  -1074 <= d + e - 53 -> d + e <= 1023 ->
  exists m' e',
    binary_round prec emax s m e = S754_finite s m' e' /\
    Zpos (digits2_pos m') = 53 /\ d + e - 53 <= e' <= d + e - 52 /\
    (X * (1 - eps) <= inject_Z (Zpos m') * Qpower 2 e' /\
     inject_Z (Zpos m') * Qpower 2 e' <= X * (1 + eps))%Q /\
    (d <= 53 -> e' = d + e - 53 /\ (inject_Z (Zpos m') * Qpower 2 e' == X)%Q).
Proof.
  intros d X Hlo Hhi. unfold binary_round. fold d.
  rewrite fexp_normal by lia.
  assert (HX : (0 < X)%Q).
  { unfold X. apply Qmult_lt_0_compat; [|apply pow2_pos].
    change 0%Q with (inject_Z 0). rewrite <- Zlt_Qlt. lia. }
  assert (Heps : (0 < eps)%Q) by reflexivity.
  destruct (Z_lt_le_dec d 53) as [Hd|Hd].
  - destruct (shl_align_fst m e (d + e - 53) ltac:(lia)) as [E1 E2].
    destruct (shl_align m e (d + e - 53)) as [mz ez]. cbn [fst snd] in *. subst ez.
    replace (e - (d + e - 53)) with (53 - d) in E1 by lia.
    assert (Hdz : Zpos (digits2_pos mz) = 53).
    { pose proof (digits_shift m (53 - d) d ltac:(lia) eq_refl mz E1) as Hs.
      rewrite Hs. lia. }
    rewrite binary_round_aux_exact by (try done; lia).
    exists mz, (d + e - 53). split; [done|]. split; [done|]. split; [lia|].
    assert (EX : (inject_Z (Zpos mz) * Qpower 2 (d + e - 53) == X)%Q).
    { unfold X. rewrite E1, inject_Z_mult.
      rewrite <- pow2_Z by lia. rewrite <- Qmult_assoc, <- pow2_add.
      replace (53 - d + (d + e - 53)) with e by lia. reflexivity. }
    split; [rewrite EX; split; nra|]. done.
  - assert (Es : shl_align m e (d + e - 53) = (m, e)).
    { unfold shl_align. destruct (d + e - 53 - e) eqn:E; try done; lia. }
    rewrite Es.
    destruct (binary_round_aux_value s m e loc_Exact X) as (m' & e' & E & Hd' & He' & Hv);
      fold d; try lia.
    { unfold X. lra. }
    { unfold X. pose proof (pow2_pos e). nra. }
    exists m', e'. split; [done|]. split; [done|]. split; [lia|]. split; [done|].
    intros Hd53. assert (d = 53) by lia.
    assert (Hdm : Zpos (digits2_pos m) = 53) by (fold d; done).
    rewrite binary_round_aux_exact in E by (try done; lia).
    injection E as <- <-. split; [lia|reflexivity].
Qed.

Lemma normal_in_inv lo hi f :
  normal_in lo hi f = true ->
  exists m e, f = S754_finite false m e /\ Zpos (digits2_pos m) = 53 /\ lo <= e <= hi.
Proof.
  destruct f as [| | |[] m e]; try discriminate. cbn [normal_in].
  rewrite !andb_true_iff, Z.eqb_eq, !Z.leb_le. intros [[H1 H2] H3].
  exists m, e. unfold prec in H1. repeat split; lia || reflexivity.
Qed.

Lemma normal_in_intro lo hi m e :
  Zpos (digits2_pos m) = 53 -> lo <= e <= hi ->
  normal_in lo hi (S754_finite false m e) = true.
Proof.
  intros H1 H2. cbn [normal_in].
  rewrite !andb_true_iff, Z.eqb_eq, !Z.leb_le. unfold prec. repeat split; lia.
Qed.

Lemma normal_in_weaken lo hi lo' hi' f :
  normal_in lo hi f = true -> lo' <= lo -> hi <= hi' -> normal_in lo' hi' f = true.
Proof.
  intros H Hl Hh. destruct (normal_in_inv _ _ _ H) as (m & e & -> & Hd & He).
  apply normal_in_intro; [done|lia].
Qed.

Lemma normal_pos lo hi f : normal_in lo hi f = true -> (0 < to_Q f)%Q.
Proof.
  intros H. destruct (normal_in_inv _ _ _ H) as (m & e & -> & Hd & He).
  cbn [to_Q]. apply Qmult_lt_0_compat; [|apply pow2_pos].
  change 0%Q with (inject_Z 0). rewrite <- Zlt_Qlt. lia.
Qed.

(** [float(z)] is exact for a positive int below 2^53. *)
Lemma of_Z_normal z k :
  0 < z < 2 ^ k -> 0 <= k <= 53 ->
  normal_in (-52) (k - 53) (of_Z z) = true /\ (to_Q (of_Z z) == inject_Z z)%Q.
Proof.
  intros Hz Hk. destruct z as [|p|p]; try lia.
  unfold of_Z. cbn [binary_normalize].
  pose proof (digits2_pos_bounds p) as [Dlo Dhi].
  assert (Hd : 1 <= Zpos (digits2_pos p) <= k).
  { split; [lia|].
    destruct (Z_le_gt_dec (Zpos (digits2_pos p)) k) as [|Hgt]; [done|].
    assert (2 ^ k <= 2 ^ (Zpos (digits2_pos p) - 1)) by (apply Z.pow_le_mono_r; lia). lia. }
  destruct (binary_round_value false p 0) as (m' & e' & E & Hd' & He' & _ & Hex); try lia.
  destruct Hex as [He Hv]; [lia|].
  rewrite E. split.
  - apply normal_in_intro; [done|lia].
  - cbn [to_Q]. rewrite Hv. change (Qpower 2 0) with 1%Q. ring.
Qed.

Lemma mul_normal x y lo1 hi1 lo2 hi2 :
  normal_in lo1 hi1 x = true -> normal_in lo2 hi2 y = true ->
  -1074 <= lo1 + lo2 + 52 -> hi1 + hi2 + 54 <= 971 ->
  normal_in (lo1 + lo2 + 52) (hi1 + hi2 + 54) (mul x y) = true /\
  (to_Q x * to_Q y * (1 - eps) <= to_Q (mul x y) /\
   to_Q (mul x y) <= to_Q x * to_Q y * (1 + eps))%Q.
Proof.
  intros Hx Hy Hlo Hhi.
  destruct (normal_in_inv _ _ _ Hx) as (mx & ex & -> & Hdx & Hex).
  destruct (normal_in_inv _ _ _ Hy) as (my & ey & -> & Hdy & Hey).
  unfold mul. cbn [SFmul xorb].
  pose proof (digits2_pos_bounds mx) as Bx. rewrite Hdx in Bx.
  pose proof (digits2_pos_bounds my) as By. rewrite Hdy in By.
  assert (Hd : 105 <= Zpos (digits2_pos (mx * my)) <= 106).
  { pose proof (digits2_pos_bounds (mx * my)) as [Plo Phi].
    rewrite Pos2Z.inj_mul in Plo, Phi.
    set (d := Zpos (digits2_pos (mx * my))) in *.
    assert (2 ^ 52 * 2 ^ 52 <= Zpos mx * Zpos my < 2 ^ 53 * 2 ^ 53) by nia.
    change (2 ^ 52 * 2 ^ 52) with (2 ^ 104) in *. change (2 ^ 53 * 2 ^ 53) with (2 ^ 106) in *.
    split.
    - destruct (Z_le_gt_dec 105 d); [done|].
      assert (2 ^ d <= 2 ^ 104) by (apply Z.pow_le_mono_r; lia). lia.
    - destruct (Z_le_gt_dec d 106); [done|].
      assert (2 ^ 106 <= 2 ^ (d - 1)) by (apply Z.pow_le_mono_r; lia). lia. }
  set (X := (inject_Z (Zpos (mx * my)) * Qpower 2 (ex + ey))%Q).
  assert (EX : (to_Q (S754_finite false mx ex) * to_Q (S754_finite false my ey) == X)%Q).
  { unfold X. cbn [to_Q]. rewrite Pos2Z.inj_mul, inject_Z_mult, pow2_add. ring. }
  destruct (binary_round_aux_value false (mx * my) (ex + ey) loc_Exact X)
    as (m' & e' & E & Hd' & He' & Hv); try lia.
  { unfold X. lra. }
  { unfold X. pose proof (pow2_pos (ex + ey)). nra. }
  rewrite E. split.
  - apply normal_in_intro; [done|lia].
  - rewrite EX. cbn [to_Q]. exact Hv.
Qed.

(** The quotient of two positive finite numbers, whatever the length of
    their mantissas (which covers two ints divided as they are). *)
Lemma div_finite_value mx ex my ey :
  let d1 := Zpos (digits2_pos mx) in
  let d2 := Zpos (digits2_pos my) in
  let D := d1 + ex - (d2 + ey) in
  let x := S754_finite false mx ex in
  let y := S754_finite false my ey in
  d1 <= d2 + 53 -> -1074 <= D - 53 -> D + 1 <= 1023 ->
  normal_in (D - 53) (D - 51) (div x y) = true /\
  near (to_Q x / to_Q y) (to_Q (div x y)).
Proof.
  intros d1 d2 D x y Hd12 Hlo Hhi.
  pose proof (digits2_pos_bounds mx) as Bx. fold d1 in Bx.
  pose proof (digits2_pos_bounds my) as By. fold d2 in By.
  assert (Hd1 : 0 < d1) by (unfold d1; lia).
  assert (Hd2 : 0 < d2) by (unfold d2; lia).
  unfold x, y, div. cbn [SFdiv xorb]. unfold SFdiv_core_binary. cbn [Zdigits2].
  fold d1 d2. fold D. rewrite fexp_normal by lia.
  rewrite Z.min_l by (unfold D; lia).
  set (e' := D - 53).
  set (sft := ex - ey - e').
  assert (Hsft : 0 <= sft) by (unfold sft, e', D; lia).
  assert (Em : match sft with
               | 0 => Zpos mx
               | Zpos _ => Z.shiftl (Zpos mx) sft
               | Zneg _ => 0
               end = Zpos mx * 2 ^ sft).
  { destruct sft eqn:E; [simpl; lia| |lia]. by rewrite Z.shiftl_mul_pow2. }
  rewrite Em. clear Em.
  set (P := 2 ^ (d2 - 1)) in *.
  assert (HP : 0 < P) by (apply Z.pow_pos_nonneg; lia).
  assert (E2 : 2 ^ d2 = 2 * P).
  { unfold P. replace d2 with (1 + (d2 - 1)) at 1 by lia.
    rewrite Z.pow_add_r by lia. reflexivity. }
  rewrite E2 in By.
  assert (HN : 2 ^ 53 * P <= Zpos mx * 2 ^ sft < 2 ^ 54 * P).
  { assert (E3 : 2 ^ 53 * P = 2 ^ (d1 - 1) * 2 ^ sft).
    { unfold P. rewrite <- !Z.pow_add_r by lia. f_equal. unfold sft, e', D. lia. }
    assert (E4 : 2 ^ 54 * P = 2 ^ d1 * 2 ^ sft).
    { unfold P. rewrite <- !Z.pow_add_r by lia. f_equal. unfold sft, e', D. lia. }
    assert (0 < 2 ^ sft) by (apply Z.pow_pos_nonneg; lia).
    rewrite E3, E4. nia. }
  pose proof (Z_div_mod (Zpos mx * 2 ^ sft) (Zpos my) ltac:(lia)) as Hdm.
  destruct (Z.div_eucl (Zpos mx * 2 ^ sft) (Zpos my)) as [q r].
  destruct Hdm as [Eq Hr].
  assert (Hq : 2 ^ 52 <= q < 2 ^ 54).
  { change (2 ^ 53) with (2 * 2 ^ 52) in HN. split; nia. }
  destruct q as [|qm|qm]; try lia.
  assert (Hd : 53 <= Zpos (digits2_pos qm) <= 54).
  { pose proof (digits2_pos_bounds qm) as [Plo Phi].
    set (d := Zpos (digits2_pos qm)) in *. split.
    - destruct (Z_le_gt_dec 53 d); [done|].
      assert (2 ^ d <= 2 ^ 52) by (apply Z.pow_le_mono_r; lia). lia.
    - destruct (Z_le_gt_dec d 54); [done|].
      assert (2 ^ 54 <= 2 ^ (d - 1)) by (apply Z.pow_le_mono_r; lia). lia. }
  set (X := (to_Q (S754_finite false mx ex) / to_Q (S754_finite false my ey))%Q).
  assert (Hmy : (0 < inject_Z (Zpos my))%Q)
    by (change 0%Q with (inject_Z 0); rewrite <- Zlt_Qlt; lia).
  assert (EX : (X * inject_Z (Zpos my) == inject_Z (Zpos mx * 2 ^ sft) * Qpower 2 e')%Q).
  { unfold X. cbn [to_Q]. rewrite inject_Z_mult, <- pow2_Z by lia.
    rewrite <- (Qmult_assoc _ (Qpower 2 sft)), <- pow2_add.
    replace (sft + e') with (ex - ey) by (unfold sft; lia).
    replace ex with ((ex - ey) + ey) at 1 by lia. rewrite pow2_add.
    pose proof (pow2_pos ey). field. split; lra. }
  assert (HX1 : (inject_Z (Zpos qm) * Qpower 2 e' <= X)%Q).
  { apply (Qmult_le_r _ _ (inject_Z (Zpos my))); [done|]. rewrite EX.
    assert (Er : (inject_Z (Zpos qm) * Qpower 2 e' * inject_Z (Zpos my) ==
                  inject_Z (Zpos qm) * inject_Z (Zpos my) * Qpower 2 e')%Q) by ring.
    rewrite Er.
    apply Qmult_le_compat_r; [|pose proof (pow2_pos e'); lra].
    rewrite <- inject_Z_mult, <- Zle_Qle. lia. }
  assert (HX2 : (X < (inject_Z (Zpos qm) + 1) * Qpower 2 e')%Q).
  { apply (Qmult_lt_r _ _ (inject_Z (Zpos my))); [done|]. rewrite EX.
    assert (Er : ((inject_Z (Zpos qm) + 1) * Qpower 2 e' * inject_Z (Zpos my) ==
                  (inject_Z (Zpos qm) + 1) * inject_Z (Zpos my) * Qpower 2 e')%Q) by ring.
    rewrite Er.
    apply Qmult_lt_compat_r; [apply pow2_pos|].
    change 1%Q with (inject_Z 1).
    rewrite <- inject_Z_plus, <- inject_Z_mult, <- Zlt_Qlt. lia. }
  destruct (binary_round_aux_value false qm e' (new_location (Zpos my) r) X)
    as (m' & e'' & E & Hd' & He' & Hv); try (unfold e'; lia); try done.
  rewrite E. split.
  - apply normal_in_intro; [done|unfold e' in He'; lia].
  - cbn [to_Q]. exact Hv.
Qed.

Lemma div_normal x y lo1 hi1 lo2 hi2 :
  normal_in lo1 hi1 x = true -> normal_in lo2 hi2 y = true ->
  -1074 <= lo1 - hi2 - 53 -> hi1 - lo2 - 51 <= 971 ->
  normal_in (lo1 - hi2 - 53) (hi1 - lo2 - 51) (div x y) = true /\
  near (to_Q x / to_Q y) (to_Q (div x y)).
Proof.
  intros Hx Hy Hlo Hhi.
  destruct (normal_in_inv _ _ _ Hx) as (mx & ex & -> & Hdx & Hex).
  destruct (normal_in_inv _ _ _ Hy) as (my & ey & -> & Hdy & Hey).
  pose proof (div_finite_value mx ex my ey) as H. cbv zeta in H.
  rewrite Hdx, Hdy in H. destruct H as [Hn Hv]; [lia|lia|lia|].
  split; [|exact Hv]. apply (normal_in_weaken _ _ _ _ _ Hn); lia.
Qed.

Lemma digits_upper p k : 0 <= k -> Zpos p < 2 ^ k -> Zpos (digits2_pos p) <= k.
Proof.
  intros Hk H. pose proof (digits2_pos_bounds p) as [Dlo _].
  destruct (Z_le_gt_dec (Zpos (digits2_pos p)) k) as [|Hgt]; [done|].
  assert (2 ^ k <= 2 ^ (Zpos (digits2_pos p) - 1)) by (apply Z.pow_le_mono_r; lia). lia.
Qed.

Lemma sub_normal x y lo hi :
  normal_in lo hi x = true -> normal_in lo hi y = true ->
  -1000 <= lo -> hi <= 900 ->
  let X := (to_Q x - to_Q y)%Q in
  match sub x y with
  | S754_zero s => s = false /\ (X == 0)%Q
  | S754_finite s m e =>
      Zpos (digits2_pos m) = 53 /\ lo - 52 <= e <= hi + 1 /\
      (if s then X < 0 else 0 < X)%Q /\
      (Qabs X * (1 - eps) <= inject_Z (Zpos m) * Qpower 2 e /\
       inject_Z (Zpos m) * Qpower 2 e <= Qabs X * (1 + eps))%Q
  | _ => False
  end.
Proof.
  intros Hx Hy Hlo Hhi X.
  destruct (normal_in_inv _ _ _ Hx) as (mx & ex & Ex & Hdx & Hex).
  destruct (normal_in_inv _ _ _ Hy) as (my & ey & Ey & Hdy & Hey).
  subst x y.
  pose proof (digits2_pos_bounds mx) as Bx. rewrite Hdx in Bx.
  pose proof (digits2_pos_bounds my) as By. rewrite Hdy in By.
  change (2 ^ (53 - 1)) with (2 ^ 52) in *.
  unfold sub. cbn [SFsub cond_Zopp].
  set (ez := Z.min ex ey).
  destruct (shl_align_fst mx ex ez ltac:(lia)) as [EA _].
  destruct (shl_align_fst my ey ez ltac:(lia)) as [EB _].
  rewrite EA, EB.
  set (A := Zpos mx * 2 ^ (ex - ez)). set (B := Zpos my * 2 ^ (ey - ez)).
  assert (HX : (X == inject_Z (A - B) * Qpower 2 ez)%Q).
  { unfold X, A, B. cbn [to_Q].
    unfold Z.sub at 1. rewrite inject_Z_plus, inject_Z_opp, !inject_Z_mult.
    rewrite <- !pow2_Z by lia.
    replace ex with ((ex - ez) + ez) at 1 by lia.
    replace ey with ((ey - ez) + ez) at 1 by lia.
    rewrite !pow2_add. ring. }
  set (M := Z.max ex ey).
  assert (HA : 0 < A < 2 ^ (53 + M - ez)).
  { unfold A. assert (0 < 2 ^ (ex - ez)) by (apply Z.pow_pos_nonneg; lia).
    assert (2 ^ (ex - ez) <= 2 ^ (M - ez)) by (apply Z.pow_le_mono_r; lia).
    replace (53 + M - ez) with (53 + (M - ez)) by lia. rewrite Z.pow_add_r by lia. nia. }
  assert (HB : 0 < B < 2 ^ (53 + M - ez)).
  { unfold B. assert (0 < 2 ^ (ey - ez)) by (apply Z.pow_pos_nonneg; lia).
    assert (2 ^ (ey - ez) <= 2 ^ (M - ez)) by (apply Z.pow_le_mono_r; lia).
    replace (53 + M - ez) with (53 + (M - ez)) by lia. rewrite Z.pow_add_r by lia. nia. }
  pose proof (pow2_pos ez) as Hpz.
  destruct (A - B) as [|p|p] eqn:ED; cbn [binary_normalize].
  - split; [done|]. rewrite HX. ring.
  - assert (Hd : 1 <= Zpos (digits2_pos p) <= 53 + M - ez).
    { split; [lia|]. apply digits_upper; lia. }
    destruct (binary_round_value false p ez) as (m' & e' & E & Hd' & He' & Hv & _);
      try (unfold ez, M in *; lia).
    rewrite E. split; [done|]. split; [unfold ez, M in *; lia|].
    assert (Hpos : (0 < X)%Q).
    { rewrite HX. apply Qmult_lt_0_compat; [|done]. change 0%Q with (inject_Z 0).
      rewrite <- Zlt_Qlt. lia. }
    split; [done|]. rewrite (Qabs_pos X) by lra. rewrite HX. exact Hv.
  - assert (Hd : 1 <= Zpos (digits2_pos p) <= 53 + M - ez).
    { split; [lia|]. apply digits_upper; lia. }
    destruct (binary_round_value true p ez) as (m' & e' & E & Hd' & He' & Hv & _);
      try (unfold ez, M in *; lia).
    rewrite E. split; [done|]. split; [unfold ez, M in *; lia|].
    assert (HX' : (- X == inject_Z (Zpos p) * Qpower 2 ez)%Q).
    { rewrite HX. change (Zneg p) with (- Zpos p). rewrite inject_Z_opp. ring. }
    assert (Hneg : (X < 0)%Q).
    { assert (0 < - X)%Q; [|lra]. rewrite HX'. apply Qmult_lt_0_compat; [|done].
      change 0%Q with (inject_Z 0). rewrite <- Zlt_Qlt. lia. }
    split; [done|]. rewrite (Qabs_neg X) by lra. rewrite HX'. exact Hv.
Qed.

(** Dividing by 2 is exact. *)
Lemma div_two_zero s : div (S754_zero s) (of_Z 2) = S754_zero s.
Proof. destruct s; reflexivity. Qed.

Lemma div_two_normal s m e :
  Zpos (digits2_pos m) = 53 -> -1000 <= e <= 900 ->
  div (S754_finite s m e) (of_Z 2) = S754_finite s m (e - 1).
Proof.
  intros Hd He.
  change (of_Z 2) with (S754_finite false 4503599627370496 (-51)).
  unfold div. cbn [SFdiv]. unfold SFdiv_core_binary. cbn [Zdigits2]. rewrite Hd.
  change (Zpos (digits2_pos 4503599627370496)) with 53.
  rewrite fexp_normal by lia. rewrite Z.min_l by lia.
  replace (e - -51 - (53 + e - (53 + -51) - 53)) with 53 by lia.
  rewrite Z.shiftl_mul_pow2 by lia.
  change 4503599627370496 with (2 ^ 52).
  assert (Ediv : Z.div_eucl (Zpos m * 2 ^ 53) (2 ^ 52) = (Zpos m~0, 0)).
  { pose proof (Z_div_mod (Zpos m * 2 ^ 53) (2 ^ 52) ltac:(lia)) as H.
    destruct (Z.div_eucl (Zpos m * 2 ^ 53) (2 ^ 52)) as [q r]. destruct H as [H1 H2].
    change (2 ^ 53) with (2 * 2 ^ 52) in H1.
    assert (q = 2 * Zpos m) by nia. assert (r = 0) by nia. subst. reflexivity. }
  rewrite Ediv.
  change (new_location (2 ^ 52) 0) with loc_Exact.
  replace (xorb s false) with s by (destruct s; reflexivity).
  unfold binary_round_aux, shr_fexp. cbn [Zdigits2 digits2_pos].
  rewrite Pos2Z.inj_succ, Hd. rewrite fexp_normal by lia.
  replace (Z.succ 53 + (53 + e - (53 + -51) - 53) - 53 - (53 + e - (53 + -51) - 53)) with 1 by lia.
  cbn [shr shr_record_of_loc SpecFloat.iter_pos shr_1 shr_m loc_of_shr_record
       round_nearest_even Zdigits2 orb].
  rewrite Hd. rewrite fexp_normal by lia.
  replace (53 + (53 + e - (53 + -51) - 53 + 1) - 53 - (53 + e - (53 + -51) - 53 + 1)) with 0 by lia.
  cbn [shr shr_m].
  replace (53 + e - (53 + -51) - 53 + 1) with (e - 1) by lia.
  replace (e - 1 <=? emax - prec) with true
    by (symmetry; apply Z.leb_le; unfold emax, prec; lia).
  reflexivity.
Qed.

Lemma normal_exp_lt mx ex my ey :
  Zpos (digits2_pos mx) = 53 -> Zpos (digits2_pos my) = 53 -> ex < ey ->
  (inject_Z (Zpos mx) * Qpower 2 ex < inject_Z (Zpos my) * Qpower 2 ey)%Q.
Proof.
  intros Hdx Hdy H.
  pose proof (digits2_pos_bounds mx) as Bx. rewrite Hdx in Bx.
  pose proof (digits2_pos_bounds my) as By. rewrite Hdy in By.
  change (2 ^ (53 - 1)) with (2 ^ 52) in *.
  pose proof (pow2_pos ex) as Px. pose proof (pow2_pos ey) as Py.
  pose proof (pow2_le (ex + 1) ey ltac:(lia)) as Hle.
  rewrite pow2_add in Hle. change (Qpower 2 1) with 2%Q in Hle.
  assert (H1 : (inject_Z (Zpos mx) < inject_Z (2 ^ 53))%Q) by (rewrite <- Zlt_Qlt; lia).
  assert (H2 : (inject_Z (2 ^ 52) <= inject_Z (Zpos my))%Q) by (rewrite <- Zle_Qle; lia).
  change (inject_Z (2 ^ 53)) with (9007199254740992 # 1)%Q in H1.
  change (inject_Z (2 ^ 52)) with (4503599627370496 # 1)%Q in H2.
  set (a := inject_Z (Zpos mx)) in *. set (b := inject_Z (Zpos my)) in *.
  set (u := Qpower 2 ex) in *. set (v := Qpower 2 ey) in *.
  apply Qlt_le_trans with ((9007199254740992 # 1) * u)%Q; [nra|].
  apply Qle_trans with ((4503599627370496 # 1) * v)%Q; nra.
Qed.

(** On normal positive floats the IEEE comparison is the comparison of
    the values. *)
Lemma ltb_normal x y lo hi lo' hi' :
  normal_in lo hi x = true -> normal_in lo' hi' y = true ->
  if ltb x y then (to_Q x < to_Q y)%Q else (to_Q y <= to_Q x)%Q.
Proof.
  intros Hx Hy.
  destruct (normal_in_inv _ _ _ Hx) as (mx & ex & -> & Hdx & Hex).
  destruct (normal_in_inv _ _ _ Hy) as (my & ey & -> & Hdy & Hey).
  unfold ltb, SFltb. cbn [SFcompare to_Q].
  destruct (Z.compare_spec ex ey) as [->|Hlt|Hgt].
  - change (Pos.compare_cont Eq mx my) with (Pos.compare mx my).
    pose proof (pow2_pos ey) as Py.
    destruct (Pos.compare_spec mx my) as [->|H|H].
    + lra.
    + apply Qmult_lt_compat_r; [done|]. rewrite <- Zlt_Qlt. lia.
    + apply Qmult_le_compat_r; [|lra]. rewrite <- Zle_Qle. lia.
  - by apply normal_exp_lt.
  - apply Qlt_le_weak. by apply normal_exp_lt.
Qed.

(** *** Exact results *)

Lemma shr_1_exact m :
  0 <= m -> (2 | m) ->
  shr_1 {| shr_m := m; shr_r := false; shr_s := false |} =
    {| shr_m := m / 2; shr_r := false; shr_s := false |}.
Proof.
  intros Hm [k Hk]. destruct m as [|[p|p|]|p]; try lia; cbn [shr_1 orb].
  - reflexivity.
  - f_equal. rewrite (Pos2Z.inj_xO p). apply Z.div_unique with 0; lia.
Qed.

Lemma divide_pow2_split a b m :
  0 <= a -> 0 <= b -> (2 ^ (a + b) | m) -> (2 ^ a | m) /\ (2 ^ b | m / 2 ^ a).
Proof.
  intros Ha Hb [k Hk]. rewrite Z.pow_add_r in Hk by lia.
  assert (0 < 2 ^ a) by (apply Z.pow_pos_nonneg; lia).
  split.
  - exists (k * 2 ^ b). lia.
  - exists k. symmetry. apply Z.div_unique with 0; lia.
Qed.

Lemma iter_shr_1_exact p : forall m,
  0 <= m -> (2 ^ Zpos p | m) ->
  SpecFloat.iter_pos shr_1 p {| shr_m := m; shr_r := false; shr_s := false |} =
    {| shr_m := m / 2 ^ Zpos p; shr_r := false; shr_s := false |}.
Proof.
  induction p as [p IH|p IH|]; intros m Hm Hdiv; cbn [SpecFloat.iter_pos].
  - replace (Zpos p~1) with (1 + (Zpos p + Zpos p)) in * by lia.
    destruct (divide_pow2_split 1 (Zpos p + Zpos p) m) as [H1 H2]; [lia|lia|done|].
    change (2 ^ 1) with 2 in *.
    destruct (divide_pow2_split (Zpos p) (Zpos p) (m / 2)) as [H3 H4]; [lia|lia|done|].
    assert (0 <= m / 2) by (apply Z.div_pos; lia).
    assert (0 <= m / 2 / 2 ^ Zpos p)
      by (apply Z.div_pos; [done|apply Z.pow_pos_nonneg; lia]).
    rewrite shr_1_exact, IH, IH by done.
    rewrite !Z.div_div by (try apply Z.pow_pos_nonneg; lia).
    do 2 f_equal. rewrite !Z.pow_add_r by lia. change (2 ^ 1) with 2. lia.
  - replace (Zpos p~0) with (Zpos p + Zpos p) in * by lia.
    destruct (divide_pow2_split (Zpos p) (Zpos p) m) as [H3 H4]; [lia|lia|done|].
    assert (0 <= m / 2 ^ Zpos p)
      by (apply Z.div_pos; [done|apply Z.pow_pos_nonneg; lia]).
    rewrite IH, IH by done.
    rewrite !Z.div_div by (try apply Z.pow_pos_nonneg; lia).
    do 2 f_equal. rewrite !Z.pow_add_r by lia. lia.
  - change (2 ^ 1) with 2 in *. by apply shr_1_exact.
Qed.

(** A mantissa whose bits below the 53 leading ones are all zero is
    rounded to itself. *)
Lemma binary_round_aux_exact_shift s m e :
  let d := Zpos (digits2_pos m) in
  53 < d -> (2 ^ (d - 53) | Zpos m) ->
  -1074 <= d + e - 53 -> d + e <= 1023 ->
  exists m',
    binary_round_aux prec emax s (Zpos m) e loc_Exact = S754_finite s m' (e + (d - 53)) /\
    Zpos m' * 2 ^ (d - 53) = Zpos m /\ Zpos (digits2_pos m') = 53.
Proof.
  intros d Hd Hdiv Hlo Hhi.
  pose proof (div_pow2_bounds m ltac:(fold d; lia)) as Ht. fold d in Ht.
  set (t := Zpos m / 2 ^ (d - 53)) in *.
  assert (Et : t * 2 ^ (d - 53) = Zpos m).
  { destruct Hdiv as [k Hk]. unfold t. rewrite Hk.
    rewrite Z.div_mul; [done|]. apply Z.pow_nonzero; lia. }
  destruct t as [|q|q] eqn:Eq; try lia.
  assert (Hq : Zpos (digits2_pos q) = 53) by (apply digits2_pos_unique; lia).
  exists q. split; [|done].
  unfold binary_round_aux, shr_fexp. cbn [Zdigits2]. fold d.
  rewrite fexp_normal by lia.
  replace (d + e - 53 - e) with (d - 53) by lia.
  destruct (d - 53) as [|p|p] eqn:Ep; try lia.
  cbn [shr shr_record_of_loc].
  rewrite iter_shr_1_exact by (done || lia).
  cbn [shr_m loc_of_shr_record round_nearest_even].
  fold t. rewrite Eq. cbn [Zdigits2]. rewrite Hq.
  rewrite fexp_normal by lia.
  replace (53 + (e + Zpos p) - 53 - (e + Zpos p)) with 0 by lia.
  cbn [shr shr_m].
  replace (e + Zpos p <=? emax - prec) with true
    by (symmetry; apply Z.leb_le; unfold emax, prec; lia).
  reflexivity.
Qed.

(** [binary_round] is exact on [K * 2^g * 2^e] when [K] fits in 53 bits. *)
Lemma binary_round_exact s m e K g :
  let d := Zpos (digits2_pos m) in
  Zpos m = K * 2 ^ g -> 0 <= g -> 0 < K < 2 ^ 53 ->
  -1074 <= d + e - 53 -> d + e <= 1023 ->
  exists m' e',
    binary_round prec emax s m e = S754_finite s m' e' /\
    (inject_Z (Zpos m') * Qpower 2 e' == inject_Z (Zpos m) * Qpower 2 e)%Q.
Proof.
  intros d Hm Hg HK Hlo Hhi.
  destruct (Z_le_gt_dec d 53) as [Hd|Hd].
  - destruct (binary_round_value s m e Hlo Hhi) as (m' & e' & E & _ & _ & _ & Hex).
    destruct (Hex Hd) as [_ Hv]. eauto.
  - assert (Hdg : d - 53 <= g).
    { assert (Hu : Zpos m < 2 ^ (53 + g)).
      { rewrite Hm, Z.pow_add_r by lia.
        assert (0 < 2 ^ g) by (apply Z.pow_pos_nonneg; lia). nia. }
      pose proof (digits_upper m (53 + g) ltac:(lia) Hu). fold d in H. lia. }
    assert (Hdiv : (2 ^ (d - 53) | Zpos m)).
    { exists (K * 2 ^ (g - (d - 53))). rewrite Hm.
      rewrite <- Z.mul_assoc, <- Z.pow_add_r by lia. do 2 f_equal. lia. }
    destruct (binary_round_aux_exact_shift s m e ltac:(fold d; lia) Hdiv Hlo Hhi)
      as (m' & E & Em & _).
    fold d in E, Em.
    assert (Es : shl_align m e (fexp prec emax (d + e)) = (m, e)).
    { rewrite fexp_normal by lia. unfold shl_align.
      destruct (d + e - 53 - e) eqn:E0; try done; lia. }
    exists m', (e + (d - 53)). split.
    + unfold binary_round. fold d. rewrite Es. exact E.
    + rewrite <- Em, inject_Z_mult, <- pow2_Z by lia.
      rewrite pow2_add. ring.
Qed.

(** A difference is exact when the minuend is a whole number and at most
    twice the subtrahend (and the subtrahend has no bit above the units
    missing, i.e. a negative exponent). *)
Lemma sub_exact fx sw z :
  normal_in (-83) (-10) fx = true -> normal_in (-83) (-10) sw = true ->
  (to_Q fx == inject_Z z)%Q -> (to_Q fx <= 2 * to_Q sw)%Q ->
  (to_Q (sub fx sw) == to_Q fx - to_Q sw)%Q.
Proof.
  intros Hx Hy Hz H2.
  destruct (normal_in_inv _ _ _ Hx) as (mx & ex & Ex & Hdx & Hex).
  destruct (normal_in_inv _ _ _ Hy) as (ms & es & Ey & Hds & Hes).
  subst fx sw.
  pose proof (digits2_pos_bounds mx) as Bx. rewrite Hdx in Bx.
  pose proof (digits2_pos_bounds ms) as Bs. rewrite Hds in Bs.
  change (2 ^ (53 - 1)) with (2 ^ 52) in *.
  set (X := (to_Q (S754_finite false mx ex) - to_Q (S754_finite false ms es))%Q).
  unfold sub. cbn [SFsub cond_Zopp].
  set (ez := Z.min ex es).
  destruct (shl_align_fst mx ex ez ltac:(lia)) as [EA _].
  destruct (shl_align_fst ms es ez ltac:(lia)) as [EB _].
  rewrite EA, EB.
  set (A := Zpos mx * 2 ^ (ex - ez)). set (B := Zpos ms * 2 ^ (es - ez)).
  pose proof (pow2_pos ez) as Hpz.
  assert (HQA : (to_Q (S754_finite false mx ex) == inject_Z A * Qpower 2 ez)%Q).
  { unfold A. cbn [to_Q]. rewrite inject_Z_mult, <- pow2_Z by lia.
    replace ex with ((ex - ez) + ez) at 1 by lia. rewrite pow2_add. ring. }
  assert (HQB : (to_Q (S754_finite false ms es) == inject_Z B * Qpower 2 ez)%Q).
  { unfold B. cbn [to_Q]. rewrite inject_Z_mult, <- pow2_Z by lia.
    replace es with ((es - ez) + ez) at 1 by lia. rewrite pow2_add. ring. }
  assert (HX : (X == inject_Z (A - B) * Qpower 2 ez)%Q).
  { unfold X. rewrite HQA, HQB. unfold Z.sub. rewrite inject_Z_plus, inject_Z_opp. ring. }
  assert (HAB : A <= 2 * B).
  { rewrite HQA, HQB in H2.
    assert (H3 : (inject_Z A * Qpower 2 ez <= inject_Z (2 * B) * Qpower 2 ez)%Q)
      by (rewrite inject_Z_mult; change (inject_Z 2) with 2%Q; lra).
    apply Qmult_le_r in H3; [|done]. by rewrite <- Zle_Qle in H3. }
  set (M := Z.max ex es).
  assert (HA : 0 < A < 2 ^ (53 + M - ez)).
  { unfold A. assert (0 < 2 ^ (ex - ez)) by (apply Z.pow_pos_nonneg; lia).
    assert (2 ^ (ex - ez) <= 2 ^ (M - ez)) by (apply Z.pow_le_mono_r; lia).
    replace (53 + M - ez) with (53 + (M - ez)) by lia. rewrite Z.pow_add_r by lia. nia. }
  assert (HB : 0 < B < 2 ^ (53 + M - ez)).
  { unfold B. assert (0 < 2 ^ (es - ez)) by (apply Z.pow_pos_nonneg; lia).
    assert (2 ^ (es - ez) <= 2 ^ (M - ez)) by (apply Z.pow_le_mono_r; lia).
    replace (53 + M - ez) with (53 + (M - ez)) by lia. rewrite Z.pow_add_r by lia. nia. }
  (* the magnitude of the difference is K * 2^g with K below 2^53 *)
  assert (HK : forall p, Zpos p = Z.abs (A - B) ->
                 exists K g, Zpos p = K * 2 ^ g /\ 0 <= g /\ 0 < K < 2 ^ 53).
  { intros p Hp. destruct (Z_le_gt_dec es ex) as [Hle|Hgt].
    - (* same unit as the subtrahend *)
      assert (EB' : B = Zpos ms).
      { unfold B. replace (es - ez) with 0 by (unfold ez; lia). simpl; lia. }
      exists (Zpos p), 0. split; [simpl; lia|]. split; [lia|]. lia.
    - (* the subtrahend is in a higher binade *)
      assert (EA' : A = Zpos mx).
      { unfold A. replace (ex - ez) with 0 by (unfold ez; lia). simpl; lia. }
      assert (Eg : es - ez = es - ex) by (unfold ez; lia).
      assert (Hmx : Zpos mx = z * 2 ^ (- ex)).
      { cbn [to_Q] in Hz.
        assert (E : (inject_Z (Zpos mx) == inject_Z (z * 2 ^ (- ex)))%Q).
        { rewrite inject_Z_mult, <- pow2_Z by lia. rewrite <- Hz.
          rewrite <- Qmult_assoc, <- pow2_add.
          replace (ex + - ex) with 0 by lia. change (Qpower 2 0) with 1%Q. ring. }
        exact (proj1 (inject_Z_injective _ _) E). }
      assert (E2 : 2 ^ (- ex) = 2 ^ (- es) * 2 ^ (es - ex)).
      { rewrite <- Z.pow_add_r by lia. f_equal. lia. }
      assert (Hg : 0 < 2 ^ (es - ex)) by (apply Z.pow_pos_nonneg; lia).
      assert (Hgs : 0 < 2 ^ (- es)) by (apply Z.pow_pos_nonneg; lia).
      assert (2 * 2 ^ 52 <= Zpos ms * 2 ^ (es - ex)).
      { assert (2 ^ 1 <= 2 ^ (es - ex)) by (apply Z.pow_le_mono_r; lia).
        change (2 ^ 1) with 2 in *. nia. }
      assert (Hz0 : 0 < z) by nia.
      exists (Zpos ms - z * 2 ^ (- es)), (es - ex).
      assert (Habs : Z.abs (A - B) = B - A).
      { unfold B. rewrite Eg, EA'. change (2 ^ 53) with (2 * 2 ^ 52) in *. lia. }
      assert (EK : Zpos p = (Zpos ms - z * 2 ^ (- es)) * 2 ^ (es - ex)).
      { rewrite Hp, Habs. unfold B. rewrite Eg, EA', Hmx, E2. ring. }
      split; [exact EK|]. split; [lia|].
      pose proof (Pos2Z.is_pos p). nia. }
  destruct (A - B) as [|p|p] eqn:ED; cbn [binary_normalize].
  - cbn [to_Q]. rewrite HX. ring.
  - destruct (HK p eq_refl) as (K & g & EK & Hg & HKb).
    assert (Hd : 1 <= Zpos (digits2_pos p) <= 53 + M - ez).
    { split; [lia|]. apply digits_upper; lia. }
    destruct (binary_round_exact false p ez K g EK Hg HKb) as (m' & e' & E & Hv);
      try (unfold ez, M in *; lia).
    rewrite E. cbn [to_Q]. rewrite Hv, HX. reflexivity.
  - destruct (HK p eq_refl) as (K & g & EK & Hg & HKb).
    assert (Hd : 1 <= Zpos (digits2_pos p) <= 53 + M - ez).
    { split; [lia|]. apply digits_upper; lia. }
    destruct (binary_round_exact true p ez K g EK Hg HKb) as (m' & e' & E & Hv);
      try (unfold ez, M in *; lia).
    rewrite E. cbn [to_Q]. rewrite Hv, HX.
    change (Zneg p) with (- Zpos p). rewrite inject_Z_opp. ring.
Qed.

(** *** The three steps of the placement, one axis at a time *)

Lemma scale_axis fx fi :
  normal_in (-52) (-43) fx = true -> normal_in (-52) (-22) fi = true ->
  normal_in (-83) (-42) (div fx fi) = true /\
  near (to_Q fx / to_Q fi) (to_Q (div fx fi)).
Proof.
  intros Hx Hi.
  destruct (div_normal fx fi (-52) (-43) (-52) (-22) Hx Hi) as [Hn Hv]; [lia|lia|].
  split; [|exact Hv]. by apply (normal_in_weaken _ _ _ _ _ Hn).
Qed.

Lemma scaled_axis fi scale :
  normal_in (-52) (-22) fi = true -> normal_in (-83) (-42) scale = true ->
  normal_in (-83) (-10) (mul fi scale) = true /\
  near (to_Q fi * to_Q scale) (to_Q (mul fi scale)).
Proof.
  intros Hi Hs.
  destruct (mul_normal fi scale (-52) (-22) (-83) (-42) Hi Hs) as [Hn Hv]; [lia|lia|].
  split; [|exact Hv]. by apply (normal_in_weaken _ _ _ _ _ Hn).
Qed.

Lemma half_pow2 e : (Qpower 2 (e - 1) == Qpower 2 e / 2)%Q.
Proof.
  replace (e - 1) with (e + -1) by lia.
  rewrite pow2_add. change (Qpower 2 (-1)) with (1 # 2)%Q.
  field.
Qed.

Lemma offset_axis fx sw :
  normal_in (-52) (-43) fx = true -> normal_in (-83) (-10) sw = true ->
  let X := (to_Q fx - to_Q sw)%Q in
  let dx := sub fx sw in
  let x := div dx (of_Z 2) in
  is_finite dx = true /\
  (Qabs (to_Q dx - X) <= eps * Qabs X)%Q /\
  (to_Q x == to_Q dx / 2)%Q /\
  (X < 0 -> to_Q x < 0)%Q /\ (0 < X -> 0 < to_Q x)%Q /\ (X == 0 -> to_Q x == 0)%Q.
Proof.
  intros Hx Hs X dx x.
  assert (Hx' : normal_in (-83) (-10) fx = true)
    by (apply (normal_in_weaken _ _ _ _ _ Hx); lia).
  assert (H := sub_normal fx sw (-83) (-10) Hx' Hs).
  cbv zeta in H. specialize (H ltac:(lia) ltac:(lia)). fold X dx in H. subst x.
  assert (Heps : (0 < eps)%Q) by reflexivity.
  destruct dx as [s0| | |s m e]; try done.
  - destruct H as [-> HX]. rewrite div_two_zero. cbn [to_Q is_finite].
    split; [done|].
    split; [rewrite HX; apply Qabs_Qle_condition; split; vm_compute; discriminate|].
    split; [field|]. repeat split; intros; lra.
  - destruct H as (Hd & He & Hsign & Hlo & Hhi).
    rewrite div_two_normal by (try done; lia).
    set (R := (inject_Z (Zpos m) * Qpower 2 e)%Q) in *.
    assert (HR : (inject_Z (Zpos m) * Qpower 2 (e - 1) == R * (1 # 2))%Q).
    { unfold R. rewrite half_pow2. field. }
    assert (HRpos : (0 < R)%Q).
    { unfold R. apply Qmult_lt_0_compat; [|apply pow2_pos].
      change 0%Q with (inject_Z 0). rewrite <- Zlt_Qlt. lia. }
    cbn [to_Q is_finite]. fold R. split; [done|].
    unfold eps in *. clearbody R.
    destruct s.
    + rewrite (Qabs_neg X) in * by lra. rewrite HR.
      split; [apply Qabs_Qle_condition; split; lra|].
      split; [field|]. repeat split; intros; lra.
    + rewrite (Qabs_pos X) in * by lra. rewrite HR.
      split; [apply Qabs_Qle_condition; split; lra|].
      split; [field|]. repeat split; intros; lra.
Qed.

Lemma normal_is_finite lo hi f : normal_in lo hi f = true -> is_finite f = true.
Proof. destruct f as [| | |[] m e]; done. Qed.

Lemma normal_not_zero lo hi f : normal_in lo hi f = true -> is_zero f = false.
Proof. destruct f as [| | |[] m e]; done. Qed.

End F64Facts.

(** * Python arithmetic on page and image sizes *)

Section Arithmetic.

Import F64 F64Facts.

Lemma py_float_page pw :
  page_dim_ok pw = true ->
  exists f, py_float pw = inr f /\ normal_in (-52) (-43) f = true /\
            (to_Q f == py_val pw)%Q.
Proof.
  destruct pw as [z|f]; cbn [page_dim_ok py_float py_val].
  - rewrite andb_true_iff, Z.leb_le, Z.ltb_lt. intros [Hlo Hhi].
    destruct (of_Z_normal z 10) as [Hn Hv]; [change (2 ^ 10) with 1024; lia|lia|].
    rewrite (normal_is_finite _ _ _ Hn). eauto.
  - intros H. exists f. split; [done|]. split; [|reflexivity].
    apply (normal_in_weaken _ _ _ _ _ H); lia.
Qed.

Lemma py_float_image iw :
  0 < iw < 2 ^ 31 ->
  exists f, py_float (PInt iw) = inr f /\ normal_in (-52) (-22) f = true /\
            (to_Q f == inject_Z iw)%Q.
Proof.
  intros H. cbn [py_float].
  destruct (of_Z_normal iw 31) as [Hn Hv]; [done|lia|].
  rewrite (normal_is_finite _ _ _ Hn). eauto.
Qed.

(** [int / int] on a whole-number page size: the two ints are divided as
    they are, with one rounding. *)
Lemma int_true_div_page z iw :
  256 <= z < 1024 -> 0 < iw < 2 ^ 31 ->
  exists s, int_true_div z iw = inr s /\
            normal_in (-83) (-42) s = true /\
            near (inject_Z z / inject_Z iw) (to_Q s).
Proof.
  intros Hz Hi.
  destruct z as [|p|p]; try lia. destruct iw as [|q|q]; try lia.
  unfold int_true_div. cbn [Z.ltb Z.compare].
  change (Z.to_pos (Z.abs (Zpos p))) with p.
  change (Z.to_pos (Z.abs (Zpos q))) with q.
  pose proof (digits2_pos_bounds p) as [_ Dp].
  pose proof (digits_upper p 10 ltac:(lia) ltac:(change (2 ^ 10) with 1024; lia)) as Up.
  pose proof (digits_upper q 31 ltac:(lia) ltac:(lia)) as Uq.
  assert (Lp : 9 <= Zpos (digits2_pos p)).
  { destruct (Z_le_gt_dec 9 (Zpos (digits2_pos p))) as [|Hgt]; [done|].
    assert (2 ^ Zpos (digits2_pos p) <= 2 ^ 8) by (apply Z.pow_le_mono_r; lia).
    change (2 ^ 8) with 256 in *. lia. }
  pose proof (div_finite_value p 0 q 0) as H. cbv zeta in H.
  destruct H as [Hn Hv]; [lia|lia|lia|].
  rewrite (normal_is_finite _ _ _ Hn). eexists. split; [reflexivity|]. split.
  - apply (normal_in_weaken _ _ _ _ _ Hn); lia.
  - unfold near in *. cbn [to_Q] in Hv. change (Qpower 2 0) with 1%Q in Hv.
    rewrite !Qmult_1_r in Hv. exact Hv.
Qed.

(** [page / image]: the scale of one axis. *)
Lemma py_scale pw iw :
  page_dim_ok pw = true -> 0 < iw < 2 ^ 31 ->
  exists s, py_truediv pw (PInt iw) = inr (PFloat s) /\
            normal_in (-83) (-42) s = true /\
            near (py_val pw / inject_Z iw) (to_Q s).
Proof.
  intros Hp Hi. unfold py_truediv. cbn [py_is_zero].
  replace (iw =? 0) with false by (symmetry; apply Z.eqb_neq; lia).
  destruct pw as [z|f].
  - cbn [page_dim_ok] in Hp.
    rewrite andb_true_iff, Z.leb_le, Z.ltb_lt in Hp.
    destruct (int_true_div_page z iw Hp Hi) as (s & -> & Hn & Hv).
    exists s. by cbn [py_val].
  - destruct (py_float_page (PFloat f) Hp) as (fx & Ex & Hx & Vx).
    destruct (py_float_image iw Hi) as (fi & Ei & Hfi & Vi).
    destruct (scale_axis fx fi Hx Hfi) as [Hn Hv].
    exists (div fx fi). rewrite Ex, Ei. split; [done|]. split; [done|].
    unfold near in *. rewrite <- Vx, <- Vi. exact Hv.
Qed.

(** [max] of two scales. *)
Lemma py_max_normal a b lo hi :
  normal_in lo hi a = true -> normal_in lo hi b = true ->
  exists s, py_max (PFloat a) (PFloat b) = PFloat s /\ (s = a \/ s = b) /\
            normal_in lo hi s = true /\
            (to_Q a <= to_Q s)%Q /\ (to_Q b <= to_Q s)%Q.
Proof.
  intros Ha Hb. unfold py_max. cbn [py_gt].
  pose proof (ltb_normal a b _ _ _ _ Ha Hb) as H.
  destruct (ltb a b).
  - exists b. repeat split; auto; lra.
  - exists a. repeat split; auto; lra.
Qed.

(** [image * scale]: the scaled size of one axis. *)
Lemma py_scaled iw s :
  0 < iw < 2 ^ 31 -> normal_in (-83) (-42) s = true ->
  exists w, py_mul (PInt iw) (PFloat s) = inr (PFloat w) /\
            normal_in (-83) (-10) w = true /\
            near (inject_Z iw * to_Q s) (to_Q w).
Proof.
  intros Hi Hs.
  destruct (py_float_image iw Hi) as (fi & Ei & Hfi & Vi).
  destruct (scaled_axis fi s Hfi Hs) as [Hn Hv].
  exists (mul fi s). unfold py_mul. rewrite Ei. cbn [py_float].
  split; [done|]. split; [done|].
  unfold near in *. rewrite <- Vi. exact Hv.
Qed.

(** [(page - scaled) / 2]: the offset of one axis. *)
Lemma py_offset pw w :
  page_dim_ok pw = true -> normal_in (-83) (-10) w = true ->
  exists d x,
    py_sub pw (PFloat w) = inr (PFloat d) /\
    py_truediv (PFloat d) (PInt 2) = inr (PFloat x) /\
    offset_ok (py_val pw) (to_Q w) (to_Q d) (to_Q x).
Proof.
  intros Hp Hw.
  destruct (py_float_page pw Hp) as (fx & Ex & Hx & Vx).
  pose proof (offset_axis fx w Hx Hw) as H. cbv zeta in H.
  destruct H as (Hfin & Hd & Hh & Hs).
  exists (sub fx w), (div (sub fx w) (of_Z 2)).
  split.
  { unfold py_sub. rewrite Ex. cbn [py_float]. by destruct pw. }
  split.
  { unfold py_truediv. cbn [py_is_zero py_float]. reflexivity. }
  unfold offset_ok. rewrite <- Vx.
  destruct Hs as (Hneg & Hpos & Hz).
  split; [done|]. split; [done|].
  split; [intros; apply Hneg; lra|]. split; [intros; apply Hpos; lra|].
  intros Heq. apply Hz. rewrite Heq. ring.
Qed.

(** On a page whose size is a whole number of points the difference is
    exact, as soon as the scaled size is at least half the page size. *)
Lemma py_offset_exact pw w d z :
  page_dim_ok pw = true -> normal_in (-83) (-10) w = true ->
  py_sub pw (PFloat w) = inr (PFloat d) ->
  (py_val pw == inject_Z z)%Q -> (py_val pw <= 2 * to_Q w)%Q ->
  (to_Q d == py_val pw - to_Q w)%Q.
Proof.
  intros Hp Hw Hd Hz H2.
  destruct (py_float_page pw Hp) as (fx & Ex & Hx & Vx).
  assert (Ed : d = sub fx w).
  { unfold py_sub in Hd. rewrite Ex in Hd. cbn [py_float] in Hd.
    destruct pw; by injection Hd as <-. }
  subst d. rewrite <- Vx in *.
  apply (sub_exact fx w z); try done.
  apply (normal_in_weaken _ _ _ _ _ Hx); lia.
Qed.

Lemma page_dim_pos pw : page_dim_ok pw = true -> (0 < py_val pw)%Q.
Proof.
  intros Hp. destruct (py_float_page pw Hp) as (fx & _ & Hx & Vx).
  rewrite <- Vx. by apply (normal_pos _ _ _ Hx).
Qed.

End Arithmetic.

(** * Reasoning about the effects *)

Lemma frame_ret {A} (a : A) : frame (ret a).
Proof. intros log. unfold ret. simpl. by rewrite app_nil_r. Qed.

Lemma frame_raise {A} (e : exn) : frame (@raise A e).
Proof. intros log. unfold raise. simpl. by rewrite app_nil_r. Qed.

Lemma frame_lift {A} (r : result A) : frame (lift r).
Proof. destruct r; [apply frame_raise | apply frame_ret]. Qed.

Lemma frame_print (l : log_line) : frame (print l).
Proof. intros log. reflexivity. Qed.

Lemma frame_bind {A B} (m : M A) (k : A -> M B) :
  frame m -> (forall a, frame (k a)) -> frame (bind m k).
Proof.
  intros Hm Hk log. unfold bind.
  rewrite (Hm log). destruct (m []) as [[e|a] out]; simpl.
  - reflexivity.
  - rewrite (Hk a (log ++ out)), (Hk a out). simpl. by rewrite app_assoc.
Qed.

Lemma frame_try_except {A} (body : M A) (handler : exn -> M A) :
  frame body -> (forall e, frame (handler e)) -> frame (try_except body handler).
Proof.
  intros Hb Hh log. unfold try_except.
  rewrite (Hb log). destruct (body []) as [[e|a] out]; simpl.
  - rewrite (Hh e (log ++ out)), (Hh e out). simpl. by rewrite app_assoc.
  - reflexivity.
Qed.

Lemma frame_if {A} (b : bool) (m1 m2 : M A) :
  frame m1 -> frame m2 -> frame (if b then m1 else m2).
Proof. by destruct b. Qed.

Create HintDb frame discriminated.
#[export] Hint Resolve frame_ret frame_raise frame_lift frame_print
  frame_bind frame_try_except frame_if : frame.

Ltac frame_solve :=
  repeat first
    [ progress intros
    | apply frame_ret | apply frame_raise | apply frame_lift | apply frame_print
    | apply frame_bind | apply frame_try_except | apply frame_if
    | match goal with
      | |- frame (match ?x with _ => _ end) => destruct x
      | |- frame (let (_, _) := ?x in _) => destruct x
      end ].

Lemma returns_ret {A} (a : A) : returns (ret a) a [].
Proof. intros log. unfold ret. by rewrite app_nil_r. Qed.

Lemma returns_print (l : log_line) : returns (print l) tt [l].
Proof. intros log. reflexivity. Qed.

Lemma returns_bind {A B} (m : M A) (k : A -> M B) a out b out' :
  returns m a out -> returns (k a) b out' -> returns (bind m k) b (out ++ out').
Proof.
  intros Hm Hk log. unfold bind. rewrite (Hm log), (Hk (log ++ out)).
  by rewrite app_assoc.
Qed.

Lemma returns_frame {A} (m : M A) a out :
  frame m -> m [] = (inr a, out) -> returns m a out.
Proof. intros Hf H log. rewrite (Hf log), H. reflexivity. Qed.

(** Stepping through a sequence. *)
Lemma bind_ret {A B} (a : A) (k : A -> M B) log : bind (ret a) k log = k a log.
Proof. reflexivity. Qed.

Lemma bind_print {B} l (k : unit -> M B) log :
  bind (print l) k log = k tt (log ++ [l]).
Proof. reflexivity. Qed.

Lemma bind_raise {A B} e (k : A -> M B) log : bind (raise e) k log = (inl e, log).
Proof. reflexivity. Qed.

Lemma bind_returns {A B} (m : M A) (k : A -> M B) a out log :
  returns m a out -> bind m k log = k a (log ++ out).
Proof. intros H. unfold bind. by rewrite (H log). Qed.

(** ** Page sizes *)

Lemma PDF_FORMATS_points s w h :
  PDF_FORMATS !! s = Some (w, h) ->
  exists pw ph,
    py_mul w (PInt 72) = inr pw /\ py_mul h (PInt 72) = inr ph /\
    page_dim_ok pw = true /\ page_dim_ok ph = true /\
    ok (py_truediv pw (PInt 72)) = true /\ ok (py_truediv ph (PInt 72)) = true.
Proof.
  intros H. unfold PDF_FORMATS in H.
  apply elem_of_list_to_map_2 in H.
  repeat (apply elem_of_cons in H as [H|H];
          [inversion H; subst; clear H; do 2 eexists;
           split; [vm_compute; reflexivity|];
           split; [vm_compute; reflexivity|];
           vm_compute; done |]).
  by apply elem_of_nil in H.
Qed.

Lemma get_page_size_ok v pw ph :
  get_page_size v = inr (pw, ph) ->
  page_dim_ok pw = true /\ page_dim_ok ph = true /\
  ok (py_truediv pw (PInt 72)) = true /\ ok (py_truediv ph (PInt 72)) = true.
Proof.
  unfold get_page_size, in_PDF_FORMATS.
  destruct v; try (intros [= <- <-]; vm_compute; done); try done.
  destruct (PDF_FORMATS !! s) as [[w h]|] eqn:E.
  - destruct (PDF_FORMATS_points _ _ _ E) as (pw' & ph' & -> & -> & H).
    by intros [= <- <-].
  - intros [= <- <-]; vm_compute; done.
Qed.

#[local] Arguments py_truediv : simpl never.
#[local] Arguments py_mul : simpl never.
#[local] Arguments py_sub : simpl never.
#[local] Arguments py_max : simpl never.

Section GeneratorFacts.

Variable W : World.

Lemma frame_drawImage c r x y w h : frame (drawImage W c r x y w h).
Proof. unfold drawImage. frame_solve. Qed.

Lemma frame_save c : frame (save W c).
Proof. unfold save. frame_solve. Qed.

Lemma frame_load_image_from_path p : frame (load_image_from_path W p).
Proof. unfold load_image_from_path. frame_solve. Qed.

Lemma frame_add_image_to_page c r pw ph : frame (add_image_to_page W c r pw ph).
Proof. unfold add_image_to_page. frame_solve. apply frame_drawImage. Qed.

Lemma frame_story_pages pw ph pgs items :
  forall i c, frame (story_pages W pw ph pgs i items c).
Proof.
  induction items as [|page rest IH]; intros i c; simpl.
  - apply frame_ret.
  - frame_solve;
      auto using frame_load_image_from_path, frame_add_image_to_page, frame_drawImage.
Qed.

(** *** [load_image_from_path] and [add_image_to_page] always return *)

Lemma load_image_from_path_returns p :
  returns (load_image_from_path W p) (load_outcome W p).1 (load_outcome W p).2.
Proof.
  apply returns_frame; [apply frame_load_image_from_path|].
  unfold load_outcome. cbn [fst snd].
  unfold load_image_from_path, try_except.
  match goal with |- context [match ?b [] with _ => _ end] =>
    destruct (b []) as [[e|o] out] end; reflexivity.
Qed.

Lemma draw_on_nil c : draw_on c [] = c.
Proof. destruct c. unfold draw_on. simpl. by rewrite app_nil_r. Qed.

Lemma add_image_to_page_returns c reader pw ph :
  returns (add_image_to_page W c (Some reader) pw ph)
    (draw_on c (image_outcome W reader pw ph).1) (image_outcome W reader pw ph).2.
Proof.
  intros log.
  unfold add_image_to_page, image_outcome, placement, try_except, bind, lift,
    drawImage, ret, raise, print.
  destruct (getSize W reader) as [e|[iw ih]]; cbn -[draw_on];
    [by rewrite draw_on_nil|].
  repeat match goal with
         | |- context [match py_truediv ?a ?b with _ => _ end] =>
             destruct (py_truediv a b); cbn -[draw_on]
         | |- context [match py_mul ?a ?b with _ => _ end] =>
             destruct (py_mul a b); cbn -[draw_on]
         | |- context [match py_sub ?a ?b with _ => _ end] =>
             destruct (py_sub a b); cbn -[draw_on]
         | |- context [match drawImage_raises ?w ?r ?x ?y ?a ?b with _ => _ end] =>
             destruct (drawImage_raises w r x y a b); cbn -[draw_on]
         end;
    rewrite ?draw_on_nil, ?app_nil_r; reflexivity.
Qed.

(** *** The pages of the document *)

Lemma showPage_draw_on c ops :
  code c = [] -> showPage (draw_on c ops) = with_pages c (pages c ++ [ops]).
Proof. intros H. unfold showPage, draw_on, with_pages. simpl. by rewrite H. Qed.

Lemma with_pages_id c : code c = [] -> with_pages c (pages c ++ []) = c.
Proof. intros H. destruct c. simpl in *. subst. unfold with_pages. simpl. by rewrite app_nil_r. Qed.

Lemma with_pages_with_pages c ps qs :
  with_pages (with_pages c ps) qs = with_pages c qs.
Proof. reflexivity. Qed.

Lemma add_cover_returns pw ph cover c :
  code c = [] ->
  exists out,
    returns (add_cover W pw ph cover c)
      (with_pages c (pages c ++ cover_pages W pw ph cover)) out.
Proof.
  intros Hc. unfold add_cover, cover_pages, image_pages.
  destruct (py_truthy cover).
  - pose proof (load_image_from_path_returns cover) as Hl.
    destruct (load_outcome W cover) as [[r|] lout]; cbn [fst snd] in *.
    + eexists. intros log.
      rewrite bind_print, (bind_returns _ _ _ _ _ Hl).
      rewrite (bind_returns _ _ _ _ _ (add_image_to_page_returns _ _ _ _)).
      rewrite bind_print, showPage_draw_on by done. unfold ret.
      rewrite <- !app_assoc. reflexivity.
    + eexists. intros log.
      rewrite bind_print, (bind_returns _ _ _ _ _ Hl).
      unfold ret. rewrite with_pages_id by done. rewrite <- !app_assoc. reflexivity.
  - exists []. intros log. unfold ret. rewrite with_pages_id by done.
    by rewrite app_nil_r.
Qed.

Lemma story_pages_returns pw ph pgs n ms :
  py_len pgs = inr n ->
  forall i c, code c = [] ->
  exists out,
    returns (story_pages W pw ph pgs i (JObj <$> ms) c)
      (with_pages c (pages c ++ flat_map (entry_pages W pw ph) ms)) out.
Proof.
  intros Hn. induction ms as [|m ms IH]; intros i c Hc.
  - exists []. intros log. simpl. unfold ret.
    rewrite with_pages_id by done. by rewrite app_nil_r.
  - cbn [fmap list_fmap flat_map story_pages py_get lift].
    unfold entry_pages at 1.
    destruct (py_truthy (default JNull (m !! "image_path"))) eqn:Ht.
    + rewrite Hn. cbn [lift].
      pose proof (load_image_from_path_returns (default JNull (m !! "image_path"))) as Hl.
      unfold image_pages.
      destruct (load_outcome W (default JNull (m !! "image_path"))) as [[r|] lout];
        cbn [fst snd] in *.
      * destruct (IH (S i) (with_pages c (pages c ++ [(image_outcome W r pw ph).1])))
          as [out Hout]; [done|].
        eexists. intros log.
        rewrite bind_ret. cbv beta. rewrite Ht. cbn [negb].
        rewrite bind_ret, bind_print, (bind_returns _ _ _ _ _ Hl).
        rewrite (bind_returns _ _ _ _ _ (add_image_to_page_returns _ _ _ _)).
        rewrite bind_print, showPage_draw_on by done.
        rewrite Hout. cbn [pages with_pages]. rewrite with_pages_with_pages.
        rewrite <- !app_assoc. reflexivity.
      * destruct (IH (S i) c) as [out Hout]; [done|].
        eexists. intros log.
        rewrite bind_ret. cbv beta. rewrite Ht. cbn [negb].
        rewrite bind_ret, bind_print, (bind_returns _ _ _ _ _ Hl).
        rewrite Hout. cbn [app]. rewrite <- !app_assoc. reflexivity.
    + destruct (IH (S i) c) as [out Hout]; [done|].
      eexists. intros log.
      rewrite bind_ret. cbv beta. rewrite Ht. cbn [negb].
      rewrite bind_print.
      rewrite Hout. cbn [app]. rewrite <- !app_assoc. reflexivity.
Qed.

(** A configuration with an output path, a known or defaulted format and
    a list of dictionaries as pages generates its document W whenever
    writing the file and measuring it succeed. *)
Lemma generate_pdf_body_returns (m : gmap string json) out ms pw ph size :
  m !! "output_path" = Some out ->
  default (JArr []) (m !! "pages") = JArr (JObj <$> ms) ->
  get_page_size (default (JStr "8x8") (m !! "format")) = inr (pw, ph) ->
  save_raises W (final_canvas W out pw ph (default JNull (m !! "cover_image")) ms) = None ->
  os_path_getsize W (final_canvas W out pw ph (default JNull (m !! "cover_image")) ms)
    = inr size ->
  exists lines,
    returns (generate_pdf_body W (JObj m))
      (success_record out size
         (Z.of_nat (length ms) +
          (if py_truthy (default JNull (m !! "cover_image")) then 1 else 0)),
       final_canvas W out pw ph (default JNull (m !! "cover_image")) ms)
      lines.
Proof.
  intros Hout Hpages Hsize Hsave Hgetsize.
  destruct (get_page_size_ok _ _ _ Hsize) as (_ & _ & Hw & Hh).
  destruct (py_truediv pw (PInt 72)) as [|w_in] eqn:Ew; [done|].
  destruct (py_truediv ph (PInt 72)) as [|h_in] eqn:Eh; [done|].
  set (cover := default JNull (m !! "cover_image")) in *.
  set (c0 := Canvas_init out (pw, ph)).
  destruct (add_cover_returns pw ph cover c0 eq_refl) as [out1 H1].
  destruct (story_pages_returns pw ph (JArr (JObj <$> ms)) (length ms) ms
              ltac:(by cbn; rewrite length_fmap) 0%nat
              (with_pages c0 (pages c0 ++ cover_pages W pw ph cover)) eq_refl)
    as [out2 H2].
  eexists. intros log. unfold generate_pdf_body.
  cbn [py_getitem py_get]. rewrite Hout. cbn [lift].
  rewrite !bind_ret. rewrite Hpages, Hsize. cbn [lift].
  rewrite !bind_ret. rewrite bind_print. rewrite Ew, Eh. cbn [lift].
  rewrite !bind_ret. rewrite bind_print. cbn [py_len lift].
  rewrite bind_ret, bind_print.
  fold c0. fold cover. rewrite (bind_returns _ _ _ _ _ H1).
  cbn [py_iter lift]. rewrite bind_ret.
  rewrite (bind_returns _ _ _ _ _ H2).
  cbn [pages with_pages c0 Canvas_init app filename pagesize].
  change (with_pages _ _) with (final_canvas W out pw ph cover ms).
  unfold save. rewrite Hsave, bind_ret, Hgetsize. cbn [lift].
  rewrite bind_ret, bind_print, bind_ret. unfold ret, success_record.
  rewrite length_fmap. rewrite <- !app_assoc. reflexivity.
Qed.

(** *** The placement of an image *)

Import F64.

(** Everything [add_image_to_page] computes for an image of PIL size
    (both sides below 2^31) on a page of a listed size: no step raises,
    and each float is the rounded value of what the source writes. *)
Lemma placement_facts reader pw ph iw ih :
  getSize W reader = inr (iw, ih) ->
  0 < iw < 2 ^ 31 -> 0 < ih < 2 ^ 31 ->
  page_dim_ok pw = true -> page_dim_ok ph = true ->
  exists sx sy s sw sh dx dy x y,
    py_truediv pw (PInt iw) = inr (PFloat sx) /\
    py_truediv ph (PInt ih) = inr (PFloat sy) /\
    py_max (PFloat sx) (PFloat sy) = PFloat s /\
    py_mul (PInt iw) (PFloat s) = inr (PFloat sw) /\
    py_mul (PInt ih) (PFloat s) = inr (PFloat sh) /\
    py_sub pw (PFloat sw) = inr (PFloat dx) /\
    py_truediv (PFloat dx) (PInt 2) = inr (PFloat x) /\
    py_sub ph (PFloat sh) = inr (PFloat dy) /\
    py_truediv (PFloat dy) (PInt 2) = inr (PFloat y) /\
    placement W reader pw ph = inr (PFloat x, PFloat y, PFloat sw, PFloat sh) /\
    near (py_val pw / inject_Z iw) (to_Q sx) /\
    near (py_val ph / inject_Z ih) (to_Q sy) /\
    (to_Q sx <= to_Q s)%Q /\ (to_Q sy <= to_Q s)%Q /\ (s = sx \/ s = sy) /\
    near (inject_Z iw * to_Q s) (to_Q sw) /\
    near (inject_Z ih * to_Q s) (to_Q sh) /\
    offset_ok (py_val pw) (to_Q sw) (to_Q dx) (to_Q x) /\
    offset_ok (py_val ph) (to_Q sh) (to_Q dy) (to_Q y).
Proof.
  intros Hsize Hiw Hih Hpw Hph.
  destruct (py_scale pw iw Hpw Hiw) as (sx & Esx & Nsx & Vsx).
  destruct (py_scale ph ih Hph Hih) as (sy & Esy & Nsy & Vsy).
  destruct (py_max_normal sx sy _ _ Nsx Nsy) as (s & Es & Hs & Ns & Hsx & Hsy).
  destruct (py_scaled iw s Hiw Ns) as (sw & Esw & Nsw & Vsw).
  destruct (py_scaled ih s Hih Ns) as (sh & Esh & Nsh & Vsh).
  destruct (py_offset pw sw Hpw Nsw) as (dx & x & Edx & Ex & Ox).
  destruct (py_offset ph sh Hph Nsh) as (dy & y & Edy & Ey & Oy).
  exists sx, sy, s, sw, sh, dx, dy, x, y.
  repeat (split; [done|]).
  split; [|done].
  unfold placement. rewrite Hsize, Esx, Esy, Es, Esw, Esh, Edx, Ex, Edy, Ey.
  reflexivity.
Qed.

(** *** Nothing escapes the two image functions *)

Lemma add_image_to_page_raised c reader pw ph e :
  placement W reader pw ph = inl e ->
  returns (add_image_to_page W c (Some reader) pw ph) c [LogErrorAddingImage e].
Proof.
  intros H log. rewrite add_image_to_page_returns.
  unfold image_outcome. rewrite H. cbn [fst snd]. by rewrite draw_on_nil.
Qed.

Lemma add_image_to_page_draw_failed c reader pw ph x y w h e :
  placement W reader pw ph = inr (x, y, w, h) ->
  drawImage_raises W reader x y w h = Some e ->
  returns (add_image_to_page W c (Some reader) pw ph) c [LogErrorAddingImage e].
Proof.
  intros H Hd log. rewrite add_image_to_page_returns.
  unfold image_outcome. rewrite H, Hd. cbn [fst snd]. by rewrite draw_on_nil.
Qed.

Lemma add_image_to_page_drawn c reader pw ph x y w h :
  placement W reader pw ph = inr (x, y, w, h) ->
  drawImage_raises W reader x y w h = None ->
  returns (add_image_to_page W c (Some reader) pw ph)
    (draw_on c [DrawImage reader x y w h]) [].
Proof.
  intros H Hd log. rewrite add_image_to_page_returns.
  unfold image_outcome. rewrite H, Hd. reflexivity.
Qed.

Lemma placement_zero_size reader pw ph iw ih :
  getSize W reader = inr (iw, ih) -> iw = 0 \/ ih = 0 ->
  exists e, placement W reader pw ph = inl e.
Proof.
  intros Hs Hz. unfold placement. rewrite Hs.
  destruct Hz as [-> | ->].
  - eexists. unfold py_truediv. cbn [py_is_zero Z.eqb]. reflexivity.
  - destruct (py_truediv pw (PInt iw)); [eauto|].
    eexists. unfold py_truediv. cbn [py_is_zero Z.eqb]. reflexivity.
Qed.

Lemma add_cover_total pw ph cover c :
  exists c' out, returns (add_cover W pw ph cover c) c' out.
Proof.
  unfold add_cover. destruct (py_truthy cover).
  - pose proof (load_image_from_path_returns cover) as Hl.
    destruct (load_outcome W cover) as [[r|] lout]; cbn [fst snd] in *.
    + eexists _, _. intros log.
      rewrite bind_print, (bind_returns _ _ _ _ _ Hl).
      rewrite (bind_returns _ _ _ _ _ (add_image_to_page_returns _ _ _ _)).
      rewrite bind_print. unfold ret. rewrite <- !app_assoc. reflexivity.
    + eexists _, _. intros log.
      rewrite bind_print, (bind_returns _ _ _ _ _ Hl).
      unfold ret. rewrite <- !app_assoc. reflexivity.
  - exists c, []. apply returns_ret.
Qed.

Lemma story_pages_total pw ph pgs n ms :
  py_len pgs = inr n ->
  forall i c, exists c' out,
    returns (story_pages W pw ph pgs i (JObj <$> ms) c) c' out.
Proof.
  intros Hn. induction ms as [|m ms IH]; intros i c.
  - exists c, []. apply returns_ret.
  - cbn [fmap list_fmap story_pages py_get lift].
    destruct (py_truthy (default JNull (m !! "image_path"))) eqn:Ht.
    + rewrite Hn. cbn [lift].
      pose proof (load_image_from_path_returns (default JNull (m !! "image_path"))) as Hl.
      destruct (load_outcome W (default JNull (m !! "image_path"))) as [[r|] lout];
        cbn [fst snd] in *.
      * destruct (IH (S i) (showPage (draw_on c (image_outcome W r pw ph).1)))
          as (c' & out & Hout).
        eexists _, _. intros log.
        rewrite bind_ret. cbv beta. rewrite Ht. cbn [negb].
        rewrite bind_ret, bind_print, (bind_returns _ _ _ _ _ Hl).
        rewrite (bind_returns _ _ _ _ _ (add_image_to_page_returns _ _ _ _)).
        rewrite bind_print, Hout. rewrite <- !app_assoc. reflexivity.
      * destruct (IH (S i) c) as (c' & out & Hout).
        eexists _, _. intros log.
        rewrite bind_ret. cbv beta. rewrite Ht. cbn [negb].
        rewrite bind_ret, bind_print, (bind_returns _ _ _ _ _ Hl).
        rewrite Hout. rewrite <- !app_assoc. reflexivity.
    + destruct (IH (S i) c) as (c' & out & Hout).
      eexists _, _. intros log.
      rewrite bind_ret. cbv beta. rewrite Ht. cbn [negb].
      rewrite bind_print, Hout. rewrite <- !app_assoc. reflexivity.
Qed.

Lemma generate_pdf_of_body config res c lines :
  returns (generate_pdf_body W config) (res, c) lines ->
  returns (generate_pdf W config) res lines.
Proof.
  intros H log. unfold generate_pdf, try_except, bind. by rewrite (H log).
Qed.

Lemma generate_pdf_of_raise config e lines :
  (forall log, generate_pdf_body W config log = (inl e, log ++ lines)) ->
  returns (generate_pdf W config) (failure_record e) (lines ++ [LogErrorGenerating e]).
Proof.
  intros H log. unfold generate_pdf, try_except, bind. rewrite (H log).
  unfold print, ret. cbn. by rewrite <- app_assoc.
Qed.

Lemma image_pages_length pw ph p : (length (image_pages W pw ph p) <= 1)%nat.
Proof. unfold image_pages. destruct (load_outcome W p).1; simpl; lia. Qed.

Lemma document_length pw ph cover ms :
  (length (document W pw ph cover ms) <=
   length ms + (if py_truthy cover then 1 else 0))%nat.
Proof.
  unfold document, cover_pages. rewrite length_app.
  assert (H : (length (flat_map (entry_pages W pw ph) ms) <= length ms)%nat).
  { induction ms as [|m ms IH]; simpl; [lia|]. rewrite length_app.
    unfold entry_pages at 1.
    destruct (py_truthy (default JNull (m !! "image_path")));
      [pose proof (image_pages_length pw ph (default JNull (m !! "image_path")))|];
      simpl; lia. }
  destruct (py_truthy cover); [pose proof (image_pages_length pw ph cover)|]; simpl; lia.
Qed.

End GeneratorFacts.


(** * What a finished run went through *)

Lemma bind_inr {A B} (m : M A) (k : A -> M B) log b log' :
  bind m k log = (inr b, log') ->
  exists a l, m log = (inr a, l) /\ k a l = (inr b, log').
Proof.
  unfold bind. destruct (m log) as [[e|a] l]; [discriminate|]. eauto.
Qed.

Lemma lift_inr {A} (r : result A) log a l :
  lift r log = (inr a, l) -> r = inr a /\ l = log.
Proof. destruct r; cbn; [discriminate|]. by intros [= -> ->]. Qed.

Section Inversion.

Variable W : World.

(** A run of the [try] block that reaches its [return] read the output
    path, measured the file it saved, and reports the length of [pages]
    plus one for a cover that is set. *)
Lemma generate_pdf_body_inr config log res c log' :
  generate_pdf_body W config log = (inr (res, c), log') ->
  exists out cover pgs n size,
    py_getitem config "output_path" = inr out /\
    py_get config "cover_image" JNull = inr cover /\
    py_get config "pages" (JArr []) = inr pgs /\
    py_len pgs = inr n /\
    save_raises W c = None /\
    os_path_getsize W c = inr size /\
    res = success_record out size
            (Z.of_nat n + (if py_truthy cover then 1 else 0)).
Proof.
  unfold generate_pdf_body. intros H.
  apply bind_inr in H as (out & l1 & H1 & H). apply lift_inr in H1 as [E1 ->].
  apply bind_inr in H as (fmt & l2 & H2 & H). apply lift_inr in H2 as [E2 ->].
  apply bind_inr in H as (cover & l3 & H3 & H). apply lift_inr in H3 as [E3 ->].
  apply bind_inr in H as (pgs & l4 & H4 & H). apply lift_inr in H4 as [E4 ->].
  apply bind_inr in H as ([pw ph] & l5 & H5 & H).
  apply bind_inr in H as (? & l6 & _ & H).
  apply bind_inr in H as (w_in & l7 & _ & H).
  apply bind_inr in H as (h_in & l8 & _ & H).
  apply bind_inr in H as (? & l9 & _ & H).
  apply bind_inr in H as (n0 & l10 & _ & H).
  apply bind_inr in H as (? & l11 & _ & H).
  apply bind_inr in H as (c1 & l12 & _ & H).
  apply bind_inr in H as (items & l13 & _ & H).
  apply bind_inr in H as (c2 & l14 & _ & H).
  apply bind_inr in H as ([] & l15 & Hs & H).
  apply bind_inr in H as (size & l16 & H16 & H). apply lift_inr in H16 as [E16 ->].
  apply bind_inr in H as (? & l17 & _ & H).
  apply bind_inr in H as (n & l18 & H18 & H). apply lift_inr in H18 as [E18 ->].
  unfold ret in H. injection H as <- <- <-.
  exists out, cover, pgs, n, size. repeat (split; [done|]).
  split; [|done].
  unfold save in Hs. by destruct (save_raises W c2).
Qed.

End Inversion.

(** * The properties of the specification *)

(** ** Page sizes *)

(** C3.  [get_page_size] maps every format name of the [PDF_FORMATS]
    table to (width_in * 72, height_in * 72), the products being Python's
    (neither raises), and every name that is not in the table to the 8x8
    default (576, 576); so does it map a value that is no string but can
    be hashed (a number, a boolean, null), which is in no table. *)
Theorem get_page_size_spec :
  (forall name : string,
     match PDF_FORMATS !! name with
     | Some (width_in, height_in) =>
         exists w h,
           py_mul width_in (PInt 72) = inr w /\
           py_mul height_in (PInt 72) = inr h /\
           get_page_size (JStr name) = inr (w, h)
     | None => get_page_size (JStr name) = inr (PInt 576, PInt 576)
     end) /\
  get_page_size (JStr "8x8") = inr (PInt 576, PInt 576) /\
  (forall v, match v with
             | JStr _ | JArr _ | JObj _ => True
             | _ => get_page_size v = inr (PInt 576, PInt 576)
             end).
Proof.
  split; [|split].
  - intros name. unfold get_page_size, in_PDF_FORMATS.
    destruct (PDF_FORMATS !! name) as [[w h]|] eqn:E; [|reflexivity].
    destruct (PDF_FORMATS_points _ _ _ E) as (pw & ph & Ew & Eh & _).
    exists pw, ph. by rewrite Ew, Eh.
  - vm_compute. reflexivity.
  - intros []; done.
Qed.

(** The table in points, entry by entry. *)
Example page_sizes_in_points :
  get_page_size (JStr "5.5x8.5") = inr (PFloat (F64.of_Z 396), PFloat (F64.of_Z 612)) /\
  get_page_size (JStr "7x7") = inr (PInt 504, PInt 504) /\
  get_page_size (JStr "6x9") = inr (PInt 432, PInt 648) /\
  get_page_size (JStr "8x10") = inr (PInt 576, PInt 720) /\
  get_page_size (JStr "5x8") = inr (PInt 360, PInt 576) /\
  get_page_size (JStr "8.5x11") = inr (PFloat (F64.of_Z 612), PInt 792) /\
  get_page_size (JStr "8.5x8.5") = inr (PFloat (F64.of_Z 612), PFloat (F64.of_Z 612)) /\
  get_page_size (JStr "8.25x6") = inr (PFloat (F64.of_Z 594), PInt 432) /\
  get_page_size (JStr "letter") = inr (PInt 576, PInt 576).
Proof. vm_compute. repeat split. Qed.

(** ** The result of [generate_pdf] and the exit status *)

Lemma success_record_shape out size n :
  exists m, success_record out size n = JObj m /\
    dom m = {[ "success"; "output_path"; "file_size"; "page_count" ]} /\
    m !! "success" = Some (JBool true) /\
    m !! "output_path" = Some out /\
    m !! "file_size" = Some (JInt size) /\
    m !! "page_count" = Some (JInt n).
Proof.
  eexists. split; [reflexivity|]. split.
  - rewrite !dom_insert_L, dom_singleton_L. set_solver.
  - repeat split; reflexivity.
Qed.

Lemma failure_record_shape e :
  exists m, failure_record e = JObj m /\
    dom m = {[ "success"; "error" ]} /\
    m !! "success" = Some (JBool false) /\
    m !! "error" = Some (JStr (exn_str e)).
Proof.
  eexists. split; [reflexivity|]. split.
  - rewrite !dom_insert_L, dom_singleton_L. set_solver.
  - repeat split; reflexivity.
Qed.

(** C5.  [generate_pdf] always returns a record.  When its [try] block
    runs to the end the record is
    {success: true, output_path, file_size, page_count}, with the output
    path of the configuration and the measured size of the saved file;
    when an exception [e] reaches the handler the record is
    {success: false, error: str(e)} and one more line is logged.  Both
    records have exactly these keys. *)
Theorem generate_pdf_result_contract (W : World) (config : json) (log : list log_line) :
  match generate_pdf_body W config log with
  | (inr (res, c), log') =>
      generate_pdf W config log = (inr res, log') /\
      exists out size n,
        py_getitem config "output_path" = inr out /\
        os_path_getsize W c = inr size /\
        res = success_record out size n /\
        exists m, res = JObj m /\
          dom m = {[ "success"; "output_path"; "file_size"; "page_count" ]} /\
          m !! "success" = Some (JBool true) /\
          m !! "output_path" = Some out /\
          m !! "file_size" = Some (JInt size) /\
          m !! "page_count" = Some (JInt n)
  | (inl e, log') =>
      generate_pdf W config log =
        (inr (failure_record e), log' ++ [LogErrorGenerating e]) /\
      exists m, failure_record e = JObj m /\
        dom m = {[ "success"; "error" ]} /\
        m !! "success" = Some (JBool false) /\
        m !! "error" = Some (JStr (exn_str e))
  end.
Proof.
  destruct (generate_pdf_body W config log) as [[e|[res c]] log'] eqn:E.
  - split; [|apply failure_record_shape].
    unfold generate_pdf, try_except, bind. rewrite E. reflexivity.
  - split.
    + unfold generate_pdf, try_except, bind. rewrite E. reflexivity.
    + destruct (generate_pdf_body_inr W _ _ _ _ _ E)
        as (out & cover & pgs & n & size & E1 & _ & _ & _ & _ & E2 & ->).
      exists out, size, (Z.of_nat n + (if py_truthy cover then 1 else 0)).
      repeat (split; [done|]). apply success_record_shape.
Qed.

(** The record of either kind carries a boolean [success]. *)
Lemma generate_pdf_result_shape_aux (W : World) (config : json) (log : list log_line) :
  exists res log' (success : bool),
    generate_pdf W config log = (inr res, log') /\
    py_getitem res "success" = inr (JBool success).
Proof.
  unfold generate_pdf, try_except, bind.
  destruct (generate_pdf_body W config log) as [[e|[res c]] log'] eqn:E.
  - eexists _, _, false. split; reflexivity.
  - destruct (generate_pdf_body_inr W _ _ _ _ _ E)
      as (out & cover & pgs & n & size & _ & _ & _ & _ & _ & _ & ->).
    eexists _, _, true. split; reflexivity.
Qed.

(** C6.  The script exits with status 0 exactly when the record
    [generate_pdf] returned has [success] true, and with status 1
    otherwise; the record is what it prints on stdout.  (When the
    configuration cannot be decoded no record is returned and the status
    is 1.) *)
Theorem exit_status_reflects_success (W : World) (config : json) (log : list log_line) :
  (exists res log' (success : bool),
     generate_pdf W config log = (inr res, log') /\
     py_getitem res "success" = inr (JBool success) /\
     main W (inr config) log = (inr ([res], if success then 0 else 1), log') /\
     ((if success then 0 else 1) = 0 <-> success = true)) /\
  (forall e, main W (inl e) log = (inr ([], 1), log)).
Proof.
  split; [|reflexivity].
  pose proof (generate_pdf_result_shape_aux W config log) as H.
  destruct H as (res & log' & b & Hg & Hs).
  exists res, log', b. split; [done|]. split; [done|]. split.
  - unfold main. unfold bind. rewrite Hg. cbn [lift]. rewrite Hs. cbn.
    unfold ret. by destruct b.
  - destruct b; split; done.
Qed.

(** ** Images that cannot be loaded *)

(** C4.  For a path that starts with [/objects/] or [objects/], or that
    does not exist as a local file, [load_image_from_path] returns [None]
    and logs one line; the cover step and the loop of [generate_pdf] then
    leave the canvas as it was and go on with the entries that remain. *)
Theorem unavailable_image_is_skipped (W : World) (path : string) :
  String.prefix "/objects/" path = true \/ String.prefix "objects/" path = true \/
    os_path_exists W (JStr path) = false ->
  exists line,
    (line = LogSkippingObjectStorage (JStr path) \/ line = LogImageNotFound (JStr path)) /\
    returns (load_image_from_path W (JStr path)) None [line] /\
    (forall pw ph c,
       path <> "" ->
       returns (add_cover W pw ph (JStr path) c) c [LogAddingCover (JStr path); line]) /\
    (forall pw ph pgs n i (m : gmap string json) rest c log,
       py_len pgs = inr n -> m !! "image_path" = Some (JStr path) -> path <> "" ->
       story_pages W pw ph pgs i (JObj m :: rest) c log =
       story_pages W pw ph pgs (S i) rest c
         (log ++ [LogAddingPage (i + 1) n (JStr path); line])).
Proof.
  intros H.
  set (line := if String.prefix "/objects/" path || String.prefix "objects/" path
               then LogSkippingObjectStorage (JStr path)
               else LogImageNotFound (JStr path)).
  assert (Hl : returns (load_image_from_path W (JStr path)) None [line]).
  { intros log. unfold load_image_from_path, try_except, line.
    cbn [py_startswith lift]. rewrite bind_ret.
    destruct (String.prefix "/objects/" path) eqn:E1.
    - rewrite bind_ret, bind_print. reflexivity.
    - cbn [lift]. rewrite bind_ret. cbn [orb].
      destruct (String.prefix "objects/" path) eqn:E2.
      + rewrite bind_print. reflexivity.
      + destruct H as [H|[H|H]]; try discriminate. rewrite H. cbn [negb].
        rewrite bind_print. reflexivity. }
  assert (Ht : path <> "" -> py_truthy (JStr path) = true).
  { intros Hne. cbn. destruct (String.eqb_spec path ""); done. }
  exists line. split; [unfold line; destruct (_ || _); auto|]. split; [done|]. split.
  - intros pw ph c Hne log. unfold add_cover. rewrite (Ht Hne).
    rewrite bind_print, (bind_returns _ _ _ _ _ Hl). unfold ret.
    rewrite <- app_assoc. reflexivity.
  - intros pw ph pgs n i m rest c log Hn Hm Hne.
    cbn [story_pages py_get lift]. rewrite Hm.
    change (default JNull (Some (JStr path))) with (JStr path).
    rewrite bind_ret. cbv beta. rewrite (Ht Hne). cbn [negb].
    rewrite Hn. cbn [lift]. rewrite bind_ret, bind_print, (bind_returns _ _ _ _ _ Hl).
    rewrite <- app_assoc. reflexivity.
Qed.

Lemma unavailable_image_is_skipped_witness :
  String.prefix "objects/" "objects/uploads/3.png" = true /\
  exists line,
    (line = LogSkippingObjectStorage (JStr "objects/uploads/3.png") \/
     line = LogImageNotFound (JStr "objects/uploads/3.png")) /\
    returns (load_image_from_path Sample.world (JStr "objects/uploads/3.png")) None [line].
Proof.
  split; [reflexivity|].
  destruct (unavailable_image_is_skipped Sample.world "objects/uploads/3.png")
    as (line & H1 & H2 & _).
  - right; left; reflexivity.
  - exists line. split; assumption.
Defined.

(** C9.  [load_image_from_path] and [add_image_to_page] return on every
    input: whatever is raised inside them is caught and logged, the one
    returning [None], the other leaving the canvas as it was.  That holds
    for a file PIL cannot decode, for an image with a side of 0 (the
    division raises), and for a [drawImage] that raises; and the cover
    step and the loop over a list of dictionaries run to their end
    whatever the images do. *)
Theorem image_errors_are_contained (W : World) :
  (forall p log, exists r out,
     load_image_from_path W p log = (inr r, log ++ out)) /\
  (forall c r pw ph log, exists ops out,
     add_image_to_page W c r pw ph log = (inr (draw_on c ops), log ++ out)) /\
  (forall path e log,
     String.prefix "/objects/" path = false -> String.prefix "objects/" path = false ->
     os_path_exists W (JStr path) = true -> Image_open W (JStr path) = inl e ->
     load_image_from_path W (JStr path) log =
       (inr None, log ++ [LogErrorLoadingImage (JStr path) e])) /\
  (forall c r pw ph iw ih log,
     getSize W r = inr (iw, ih) -> iw = 0 \/ ih = 0 ->
     exists e, add_image_to_page W c (Some r) pw ph log =
                 (inr c, log ++ [LogErrorAddingImage e])) /\
  (forall c r pw ph x y w h e log,
     placement W r pw ph = inr (x, y, w, h) ->
     drawImage_raises W r x y w h = Some e ->
     add_image_to_page W c (Some r) pw ph log =
       (inr c, log ++ [LogErrorAddingImage e])) /\
  (forall pw ph cover c log, exists c' out,
     add_cover W pw ph cover c log = (inr c', log ++ out)) /\
  (forall pw ph (ms : list (gmap string json)) i c log, exists c' out,
     story_pages W pw ph (JArr (JObj <$> ms)) i (JObj <$> ms) c log =
       (inr c', log ++ out)).
Proof.
  repeat split.
  - intros p log. eexists _, _. apply load_image_from_path_returns.
  - intros c [r|] pw ph log.
    + eexists _, _. apply add_image_to_page_returns.
    + exists [], []. cbn. unfold ret. by rewrite draw_on_nil, app_nil_r.
  - intros path e log H1 H2 H3 H4.
    unfold load_image_from_path, try_except.
    cbn [py_startswith lift]. rewrite bind_ret, H1. cbn [lift]. rewrite bind_ret, H2, H3.
    cbn [negb]. rewrite H4. cbn [lift]. rewrite bind_raise, bind_print. reflexivity.
  - intros c r pw ph iw ih log Hs Hz.
    destruct (placement_zero_size W r pw ph iw ih Hs Hz) as [e He].
    exists e. by apply add_image_to_page_raised.
  - intros c r pw ph x y w h e log Hp Hd.
    by apply (add_image_to_page_draw_failed W c r pw ph x y w h e).
  - intros pw ph cover c log.
    destruct (add_cover_total W pw ph cover c) as (c' & out & H). eauto.
  - intros pw ph ms i c log.
    destruct (story_pages_total W pw ph (JArr (JObj <$> ms)) (length (JObj <$> ms)) ms
                eq_refl i c) as (c' & out & H). eauto.
Qed.

(** ** The pages of the document and their count *)

(** C7.  Pages are emitted in input order.  For a configuration whose
    pages are a list of dictionaries, [generate_pdf] saves a document
    whose pages are the page of the cover (when a cover is set and loads)
    followed by the pages of the story entries in the order of the list:
    whatever an earlier part of the list contributes comes before
    whatever a later part contributes, and a cover that loads is the
    first page. *)
Theorem pages_follow_input_order (W : World) (m : gmap string json) out ms pw ph size :
  m !! "output_path" = Some out ->
  default (JArr []) (m !! "pages") = JArr (JObj <$> ms) ->
  get_page_size (default (JStr "8x8") (m !! "format")) = inr (pw, ph) ->
  let cover := default JNull (m !! "cover_image") in
  let c := final_canvas W out pw ph cover ms in
  save_raises W c = None ->
  os_path_getsize W c = inr size ->
  (exists res lines, returns (generate_pdf_body W (JObj m)) (res, c) lines) /\
  pages c = cover_pages W pw ph cover ++ flat_map (entry_pages W pw ph) ms /\
  (forall ms1 ms2, ms = ms1 ++ ms2 ->
     pages c = cover_pages W pw ph cover ++
               flat_map (entry_pages W pw ph) ms1 ++
               flat_map (entry_pages W pw ph) ms2) /\
  (forall reader,
     py_truthy cover = true -> (load_outcome W cover).1 = Some reader ->
     pages c = (image_outcome W reader pw ph).1 :: flat_map (entry_pages W pw ph) ms) /\
  (py_truthy cover = false -> pages c = flat_map (entry_pages W pw ph) ms).
Proof.
  intros Hout Hpages Hsize cover c Hsave Hgetsize.
  destruct (generate_pdf_body_returns W m out ms pw ph size Hout Hpages Hsize Hsave Hgetsize)
    as [lines H].
  split; [eauto|]. split; [reflexivity|]. split; [|split].
  - intros ms1 ms2 ->. cbn [pages c final_canvas]. unfold document.
    by rewrite flat_map_app.
  - intros reader Ht Hl. cbn [pages c final_canvas]. unfold document, cover_pages, image_pages.
    by rewrite Ht, Hl.
  - intros Ht. cbn [pages c final_canvas]. unfold document, cover_pages.
    by rewrite Ht.
Qed.

Lemma pages_follow_input_order_witness :
  let c := final_canvas Sample.world (JStr "book.pdf") (PInt 576) (PInt 576)
             (JStr "cover.png") Sample.story in
  (exists res lines,
     returns (generate_pdf_body Sample.world (JObj Sample.config)) (res, c) lines) /\
  (length (pages c) = 3)%nat.
Proof.
  destruct (pages_follow_input_order Sample.world Sample.config (JStr "book.pdf")
              Sample.story (PInt 576) (PInt 576) 1300) as (H1 & H2 & _).
  - vm_compute; reflexivity.
  - vm_compute; reflexivity.
  - vm_compute; reflexivity.
  - vm_compute; reflexivity.
  - vm_compute; reflexivity.
  - split; [exact H1|]. vm_compute. reflexivity.
Defined.

Lemma sample_run :
  exists lines,
    generate_pdf_body Sample.world (JObj Sample.config) [] =
      (inr (success_record (JStr "book.pdf") 1300 8,
            final_canvas Sample.world (JStr "book.pdf") (PInt 576) (PInt 576)
              (JStr "cover.png") Sample.story),
       lines).
Proof.
  destruct (generate_pdf_body_returns Sample.world Sample.config (JStr "book.pdf")
              Sample.story (PInt 576) (PInt 576) 1300) as [lines H];
    [vm_compute; reflexivity ..|].
  exists lines. apply (H []).
Qed.

(** C8.  On success the reported [page_count] is the length of the
    [pages] object plus one when a cover is set (the value under
    [cover_image] is true in Python's sense, the test the source makes):
    entries are counted whether or not their image was drawn.  So the
    count can exceed the number of pages of the document: the sample
    configuration has seven entries and a cover and reports 8, while the
    document has 3 pages (one entry is in object storage, one file is
    missing, one cannot be decoded, two entries have no path). *)
Theorem page_count_counts_configured_entries
    (W : World) (config : json) (log : list log_line) res c log' :
  generate_pdf_body W config log = (inr (res, c), log') ->
  (exists cover pgs n,
     py_get config "cover_image" JNull = inr cover /\
     py_get config "pages" (JArr []) = inr pgs /\
     py_len pgs = inr n /\
     py_getitem res "page_count" =
       inr (JInt (Z.of_nat n + (if py_truthy cover then 1 else 0)))) /\
  (exists res0 c0 lines0,
     generate_pdf_body Sample.world (JObj Sample.config) [] = (inr (res0, c0), lines0) /\
     py_getitem res0 "page_count" = inr (JInt 8) /\
     length (pages c0) = 3%nat /\
     length Sample.story = 7%nat).
Proof.
  intros H. split.
  - destruct (generate_pdf_body_inr W _ _ _ _ _ H)
      as (out & cover & pgs & n & size & _ & E1 & E2 & E3 & _ & _ & ->).
    exists cover, pgs, n. repeat (split; [done|]). reflexivity.
  - destruct sample_run as [lines Hs].
    eexists _, _, _. split; [exact Hs|]. split; [reflexivity|].
    split; vm_compute; reflexivity.
Qed.

Lemma page_count_counts_configured_entries_witness :
  exists res c lines,
    generate_pdf_body Sample.world (JObj Sample.config) [] = (inr (res, c), lines) /\
    py_getitem res "page_count" = inr (JInt (Z.of_nat 7 + 1)).
Proof.
  destruct sample_run as [lines Hs].
  eexists _, _, _. split; [exact Hs|].
  destruct (page_count_counts_configured_entries Sample.world (JObj Sample.config) []
              _ _ _ Hs) as [(cover & pgs & n & E1 & E2 & E3 & E4) _].
  vm_compute in E1, E2. injection E1 as <-. injection E2 as <-.
  vm_compute in E3. injection E3 as <-. exact E4.
Defined.

(** ** Keys the configuration may omit *)

(** C10.  Of the keys of the configuration only [output_path] is
    required: without it [generate_pdf] returns the failure record of the
    [KeyError].  With it, a configuration that omits [format] gets the
    8x8 page, 576 x 576 points; one that omits [pages] gets no story
    page and counts none; one that omits all three optional keys
    succeeds with an empty document (as long as writing and measuring
    the file succeed).  A story entry whose [image_path] is absent or
    empty is skipped with a log line and the loop goes on. *)
Theorem missing_keys_get_defaults (W : World) :
  (forall (m : gmap string json),
     m !! "output_path" = None ->
     returns (generate_pdf W (JObj m)) (failure_record (KeyError "output_path"))
       [LogErrorGenerating (KeyError "output_path")] /\
     exn_str (KeyError "output_path") = "'output_path'") /\
  (forall (m : gmap string json) out ms size,
     m !! "output_path" = Some out ->
     m !! "format" = None ->
     default (JArr []) (m !! "pages") = JArr (JObj <$> ms) ->
     let cover := default JNull (m !! "cover_image") in
     let c := final_canvas W out (PInt 576) (PInt 576) cover ms in
     save_raises W c = None -> os_path_getsize W c = inr size ->
     pagesize c = (PInt 576, PInt 576) /\
     exists n lines,
       returns (generate_pdf_body W (JObj m)) (success_record out size n, c) lines /\
       returns (generate_pdf W (JObj m)) (success_record out size n) lines) /\
  (forall (m : gmap string json) out pw ph size,
     m !! "output_path" = Some out ->
     m !! "pages" = None ->
     get_page_size (default (JStr "8x8") (m !! "format")) = inr (pw, ph) ->
     let cover := default JNull (m !! "cover_image") in
     let c := final_canvas W out pw ph cover [] in
     save_raises W c = None -> os_path_getsize W c = inr size ->
     pages c = cover_pages W pw ph cover /\
     exists lines,
       returns (generate_pdf W (JObj m))
         (success_record out size (if py_truthy cover then 1 else 0)) lines) /\
  (forall out size,
     let c := final_canvas W out (PInt 576) (PInt 576) JNull [] in
     save_raises W c = None -> os_path_getsize W c = inr size ->
     pages c = [] /\
     exists lines,
       returns (generate_pdf W (JObj {[ "output_path" := out ]}))
         (success_record out size 0) lines) /\
  (forall pw ph pgs i (m : gmap string json) rest c log,
     m !! "image_path" = None \/ m !! "image_path" = Some (JStr "") ->
     story_pages W pw ph pgs i (JObj m :: rest) c log =
     story_pages W pw ph pgs (S i) rest c (log ++ [LogSkippingPage (i + 1)])).
Proof.
  split; [|split; [|split; [|split]]].
  - intros m Hm. split; [|reflexivity].
    apply (generate_pdf_of_raise W (JObj m) (KeyError "output_path") []).
    intros log. unfold generate_pdf_body. cbn [py_getitem]. rewrite Hm. cbn [lift].
    rewrite bind_raise. by rewrite app_nil_r.
  - intros m out ms size Hout Hfmt Hpages cover c Hsave Hsize.
    split; [reflexivity|].
    destruct (generate_pdf_body_returns W m out ms (PInt 576) (PInt 576) size)
      as [lines H]; try done.
    { rewrite Hfmt. vm_compute. reflexivity. }
    eexists _, lines. split; [exact H|]. by apply (generate_pdf_of_body W _ _ c).
  - intros m out pw ph size Hout Hpages Hfmt cover c Hsave Hsize.
    split; [cbn; unfold document; by rewrite app_nil_r|].
    destruct (generate_pdf_body_returns W m out [] pw ph size) as [lines H]; try done.
    { by rewrite Hpages. }
    exists lines. by apply (generate_pdf_of_body W _ _ c).
  - intros out size c Hsave Hsize. split; [reflexivity|].
    destruct (generate_pdf_body_returns W {[ "output_path" := out ]} out []
                (PInt 576) (PInt 576) size) as [lines H]; try done.
    exists lines. by apply (generate_pdf_of_body W _ _ c).
  - intros pw ph pgs i m rest c log Hm.
    cbn [story_pages py_get lift]. rewrite bind_ret. cbv beta.
    destruct Hm as [-> | ->];
      [change (default JNull None) with JNull
      |change (default JNull (Some (JStr ""))) with (JStr "")];
      cbn [py_truthy negb String.eqb]; by rewrite bind_print.
Qed.

Lemma missing_keys_get_defaults_witness :
  pages (final_canvas Sample.world (JStr "book.pdf") (PInt 576) (PInt 576) JNull []) = [] /\
  exists lines,
    returns (generate_pdf Sample.world (JObj {[ "output_path" := JStr "book.pdf" ]}))
      (success_record (JStr "book.pdf") 1000 0) lines.
Proof.
  destruct (missing_keys_get_defaults Sample.world) as (_ & _ & _ & H & _).
  apply (H (JStr "book.pdf") 1000); reflexivity.
Defined.

(** ** Scale and placement of an image *)

Section Placement.

Import F64.

Variable W : World.

(** The scaled size of an axis covers the page size up to two roundings
    (the quotient and the product). *)
Lemma scaled_covers (page image scale_axis scale scaled : Q) :
  (0 < image)%Q ->
  near (page / image) scale_axis -> (scale_axis <= scale)%Q ->
  near (image * scale) scaled ->
  (page * (1 - eps) * (1 - eps) <= scaled)%Q.
Proof.
  intros Hi [Hq _] Hs [Hm _].
  assert (He : (0 < 1 - eps)%Q) by reflexivity.
  set (k := (1 - eps)%Q) in *.
  assert (H1 : (page * k <= image * scale)%Q).
  { assert (E : (page * k == image * (page / image * k))%Q) by (field; lra).
    rewrite E. apply Qmult_le_l; [done|]. lra. }
  eapply Qle_trans; [|exact Hm].
  apply Qmult_le_compat_r; [done|lra].
Qed.

(** C1, as the code has it.  For an image whose sides are positive and
    below 2^31 (PIL sizes are) on a page of a size [get_page_size] can
    return, [add_image_to_page] computes, without raising, the scale
    max(page_width / img_width, page_height / img_height) in binary64:
    it is one of the two quotients and not smaller than either.  The
    scaled sizes are the binary64 products of the image sizes with it.
    Each covers its page dimension up to the two roundings involved:
    scaled >= page * (1 - 2^-52)^2.  (Exact coverage, scaled >= page,
    does not hold in general.) *)
Theorem full_bleed_scale_covers_page c reader pw ph iw ih log :
  getSize W reader = inr (iw, ih) ->
  0 < iw < 2 ^ 31 -> 0 < ih < 2 ^ 31 ->
  page_dim_ok pw = true -> page_dim_ok ph = true ->
  exists scale_x scale_y x y scaled_width scaled_height,
    py_truediv pw (PInt iw) = inr scale_x /\
    py_truediv ph (PInt ih) = inr scale_y /\
    py_mul (PInt iw) (py_max scale_x scale_y) = inr scaled_width /\
    py_mul (PInt ih) (py_max scale_x scale_y) = inr scaled_height /\
    placement W reader pw ph = inr (x, y, scaled_width, scaled_height) /\
    (drawImage_raises W reader x y scaled_width scaled_height = None ->
     add_image_to_page W c (Some reader) pw ph log =
       (inr (draw_on c [DrawImage reader x y scaled_width scaled_height]), log)) /\
    (py_max scale_x scale_y = scale_x \/ py_max scale_x scale_y = scale_y) /\
    (py_val scale_x <= py_val (py_max scale_x scale_y))%Q /\
    (py_val scale_y <= py_val (py_max scale_x scale_y))%Q /\
    near (py_val pw / inject_Z iw) (py_val scale_x) /\
    near (py_val ph / inject_Z ih) (py_val scale_y) /\
    (py_val pw * (1 - eps) * (1 - eps) <= py_val scaled_width)%Q /\
    (py_val ph * (1 - eps) * (1 - eps) <= py_val scaled_height)%Q.
Proof.
  intros Hsize Hiw Hih Hpw Hph.
  destruct (placement_facts W reader pw ph iw ih Hsize Hiw Hih Hpw Hph)
    as (sx & sy & s & sw & sh & dx & dy & x & y &
        Esx & Esy & Es & Esw & Esh & Edx & Ex & Edy & Ey & Hp &
        Vsx & Vsy & Hsx & Hsy & Hs & Vsw & Vsh & Ox & Oy).
  exists (PFloat sx), (PFloat sy), (PFloat x), (PFloat y), (PFloat sw), (PFloat sh).
  rewrite Es. cbn [py_val].
  assert (Hi : (0 < inject_Z iw)%Q)
    by (change 0%Q with (inject_Z 0); rewrite <- Zlt_Qlt; lia).
  assert (Hj : (0 < inject_Z ih)%Q)
    by (change 0%Q with (inject_Z 0); rewrite <- Zlt_Qlt; lia).
  repeat (split; [done|]).
  split.
  { intros Hd.
    rewrite (add_image_to_page_drawn W c reader pw ph _ _ _ _ Hp Hd log).
    by rewrite app_nil_r. }
  split; [destruct Hs as [-> | ->]; auto|].
  repeat (split; [done|]).
  split.
  - exact (scaled_covers _ _ _ _ _ Hi Vsx Hsx Vsw).
  - exact (scaled_covers _ _ _ _ _ Hj Vsy Hsy Vsh).
Qed.

(** C2, as the code has it.  For the same images and pages the offsets
    are x = (page_width - scaled_width) / 2 and
    y = (page_height - scaled_height) / 2 in binary64: the difference is
    rounded (within one part in 2^52), the halving is exact.  So the
    overhang on the left (-x) and the one on the right
    (x + scaled_width - page_width) differ by at most 2^-52 times
    |page_width - scaled_width|, and are equal whenever the subtraction
    is exact; likewise bottom and top.  The subtraction is exact, and
    the image exactly centred, on every page dimension that is a whole
    number of points (all of the table but 442.08 and 663.12 of
    6.14x9.21).  An offset is negative when the scaled image is larger
    than the page, positive when it is smaller and zero when they are
    equal. *)
Theorem offsets_centre_image_up_to_rounding c reader pw ph iw ih log :
  getSize W reader = inr (iw, ih) ->
  0 < iw < 2 ^ 31 -> 0 < ih < 2 ^ 31 ->
  page_dim_ok pw = true -> page_dim_ok ph = true ->
  exists x y scaled_width scaled_height dx dy,
    placement W reader pw ph = inr (x, y, scaled_width, scaled_height) /\
    py_sub pw scaled_width = inr dx /\ py_truediv dx (PInt 2) = inr x /\
    py_sub ph scaled_height = inr dy /\ py_truediv dy (PInt 2) = inr y /\
    (drawImage_raises W reader x y scaled_width scaled_height = None ->
     add_image_to_page W c (Some reader) pw ph log =
       (inr (draw_on c [DrawImage reader x y scaled_width scaled_height]), log)) /\
    offset_ok (py_val pw) (py_val scaled_width) (py_val dx) (py_val x) /\
    offset_ok (py_val ph) (py_val scaled_height) (py_val dy) (py_val y) /\
    (Qabs ((py_val x + py_val scaled_width - py_val pw) - - py_val x)
       <= eps * Qabs (py_val pw - py_val scaled_width))%Q /\
    (Qabs ((py_val y + py_val scaled_height - py_val ph) - - py_val y)
       <= eps * Qabs (py_val ph - py_val scaled_height))%Q /\
    ((py_val dx == py_val pw - py_val scaled_width)%Q ->
     (- py_val x == py_val x + py_val scaled_width - py_val pw)%Q) /\
    ((py_val dy == py_val ph - py_val scaled_height)%Q ->
     (- py_val y == py_val y + py_val scaled_height - py_val ph)%Q) /\
    ((py_val pw < py_val scaled_width)%Q -> (py_val x < 0)%Q) /\
    ((py_val ph < py_val scaled_height)%Q -> (py_val y < 0)%Q) /\
    (forall z : Z, (py_val pw == inject_Z z)%Q ->
       (py_val dx == py_val pw - py_val scaled_width)%Q /\
       (- py_val x == py_val x + py_val scaled_width - py_val pw)%Q) /\
    (forall z : Z, (py_val ph == inject_Z z)%Q ->
       (py_val dy == py_val ph - py_val scaled_height)%Q /\
       (- py_val y == py_val y + py_val scaled_height - py_val ph)%Q).
Proof.
  intros Hsize Hiw Hih Hpw Hph.
  destruct (placement_facts W reader pw ph iw ih Hsize Hiw Hih Hpw Hph)
    as (sx & sy & s & sw & sh & dx & dy & x & y &
        Esx & Esy & Es & Esw & Esh & Edx & Ex & Edy & Ey & Hp &
        Vsx & Vsy & Hsx & Hsy & Hs & Vsw & Vsh & Ox & Oy).
  assert (Nsw : normal_in (-83) (-10) sw = true /\ normal_in (-83) (-10) sh = true).
  { destruct (py_scale pw iw Hpw Hiw) as (sx' & Esx' & Nsx & _).
    destruct (py_scale ph ih Hph Hih) as (sy' & Esy' & Nsy & _).
    rewrite Esx in Esx'. injection Esx' as <-.
    rewrite Esy in Esy'. injection Esy' as <-.
    assert (Ns : normal_in (-83) (-42) s = true) by (destruct Hs as [-> | ->]; done).
    destruct (py_scaled iw s Hiw Ns) as (sw' & Esw' & Nsw' & _).
    destruct (py_scaled ih s Hih Ns) as (sh' & Esh' & Nsh' & _).
    rewrite Esw in Esw'. injection Esw' as <-.
    rewrite Esh in Esh'. injection Esh' as <-. done. }
  destruct Nsw as [Nsw Nsh].
  assert (Hi : (0 < inject_Z iw)%Q)
    by (change 0%Q with (inject_Z 0); rewrite <- Zlt_Qlt; lia).
  assert (Hj : (0 < inject_Z ih)%Q)
    by (change 0%Q with (inject_Z 0); rewrite <- Zlt_Qlt; lia).
  pose proof (scaled_covers _ _ _ _ _ Hi Vsx Hsx Vsw) as Cw.
  pose proof (scaled_covers _ _ _ _ _ Hj Vsy Hsy Vsh) as Ch.
  pose proof (page_dim_pos pw Hpw) as Ppw. pose proof (page_dim_pos ph Hph) as Pph.
  assert (H2w : (py_val pw <= 2 * to_Q sw)%Q) by (unfold eps in Cw; lra).
  assert (H2h : (py_val ph <= 2 * to_Q sh)%Q) by (unfold eps in Ch; lra).
  exists (PFloat x), (PFloat y), (PFloat sw), (PFloat sh), (PFloat dx), (PFloat dy).
  cbn [py_val].
  repeat (split; [done|]).
  split.
  { intros Hd.
    rewrite (add_image_to_page_drawn W c reader pw ph _ _ _ _ Hp Hd log).
    by rewrite app_nil_r. }
  split; [done|]. split; [done|].
  destruct Ox as (Ox1 & Ox2 & Ox3 & _). destruct Oy as (Oy1 & Oy2 & Oy3 & _).
  assert (Hx : (to_Q x + to_Q sw - py_val pw - - to_Q x ==
                to_Q dx - (py_val pw - to_Q sw))%Q) by (rewrite Ox2; field).
  assert (Hy : (to_Q y + to_Q sh - py_val ph - - to_Q y ==
                to_Q dy - (py_val ph - to_Q sh))%Q) by (rewrite Oy2; field).
  split; [by rewrite Hx|]. split; [by rewrite Hy|].
  split; [intros E; rewrite Ox2, E; field|].
  split; [intros E; rewrite Oy2, E; field|].
  split; [done|]. split; [done|]. split.
  - intros z Hz.
    pose proof (py_offset_exact pw sw dx z Hpw Nsw Edx Hz H2w) as E.
    split; [exact E|]. rewrite Ox2, E. field.
  - intros z Hz.
    pose proof (py_offset_exact ph sh dy z Hph Nsh Edy Hz H2h) as E.
    split; [exact E|]. rewrite Oy2, E. field.
Qed.

End Placement.

Lemma full_bleed_scale_covers_page_witness :
  getSize Sample.world (Sample.reader "RGB" 519 519) = inr (519, 519) /\
  page_dim_ok (PInt 576) = true /\
  exists x y scaled_width scaled_height,
    placement Sample.world (Sample.reader "RGB" 519 519) (PInt 576) (PInt 576) =
      inr (x, y, scaled_width, scaled_height) /\
    (py_val (PInt 576) * (1 - F64.eps) * (1 - F64.eps) <= py_val scaled_width)%Q /\
    (py_val (PInt 576) * (1 - F64.eps) * (1 - F64.eps) <= py_val scaled_height)%Q.
Proof.
  split; [reflexivity|]. split; [reflexivity|].
  destruct (full_bleed_scale_covers_page Sample.world
              (Canvas_init (JStr "book.pdf") (PInt 576, PInt 576))
              (Sample.reader "RGB" 519 519) (PInt 576) (PInt 576) 519 519 [])
    as (sx & sy & x & y & sw & sh & _ & _ & _ & _ & Hp & _ & _ & _ & _ & _ & _ & Hw & Hh).
  - reflexivity.
  - split; reflexivity.
  - split; reflexivity.
  - reflexivity.
  - reflexivity.
  - exists x, y, sw, sh. split; [exact Hp|]. split; assumption.
Defined.

(** The claim C1 as the specification words it fails on the default page:
    a 519 x 519 cover on the 8x8 page (576 points) gets the scale
    576 / 519 = 4998214615347602 * 2^-52 (rounded down), and 519 times
    that is 575.9999999999999 in binary64
    (5066549580791807 * 2^-43, one unit in the last place below 576).
    The scaled image is narrower than the page and is placed at the
    positive offset 2^-44. *)
Lemma scaled_size_can_fall_short_of_page :
  let r := Sample.reader "RGB" 519 519 in
  let c := Canvas_init (JStr "book.pdf") (PInt 576, PInt 576) in
  let w := PFloat (S754_finite false 5066549580791807 (-43)) in
  let x := PFloat (S754_finite false 4503599627370496 (-96)) in
  get_page_size (JStr "8x8") = inr (PInt 576, PInt 576) /\
  getSize Sample.world r = inr (519, 519) /\
  py_truediv (PInt 576) (PInt 519) =
    inr (PFloat (S754_finite false 4998214615347602 (-52))) /\
  add_image_to_page Sample.world c (Some r) (PInt 576) (PInt 576) [] =
    (inr (draw_on c [DrawImage r x x w w]), []) /\
  ~ (py_val (PInt 576) <= py_val w)%Q /\
  (0 < py_val x)%Q.
Proof.
  cbv zeta. split; [vm_compute; reflexivity|]. split; [reflexivity|].
  split; [vm_compute; reflexivity|]. split; [vm_compute; reflexivity|].
  split; [intros H; vm_compute in H; apply H; reflexivity|].
  vm_compute. reflexivity.
Qed.

Lemma offsets_centre_image_up_to_rounding_witness :
  getSize Sample.world (Sample.reader "RGB" 100 50) = inr (100, 50) /\
  page_dim_ok (PInt 576) = true /\
  exists x y scaled_width scaled_height,
    placement Sample.world (Sample.reader "RGB" 100 50) (PInt 576) (PInt 576) =
      inr (x, y, scaled_width, scaled_height) /\
    (Qabs ((py_val x + py_val scaled_width - py_val (PInt 576)) - - py_val x)
       <= F64.eps * Qabs (py_val (PInt 576) - py_val scaled_width))%Q /\
    ((py_val (PInt 576) < py_val scaled_width)%Q -> (py_val x < 0)%Q) /\
    (- py_val x == py_val x + py_val scaled_width - py_val (PInt 576))%Q.
Proof.
  split; [reflexivity|]. split; [reflexivity|].
  destruct (offsets_centre_image_up_to_rounding Sample.world
              (Canvas_init (JStr "book.pdf") (PInt 576, PInt 576))
              (Sample.reader "RGB" 100 50) (PInt 576) (PInt 576) 100 50 [])
    as (x & y & sw & sh & dx & dy & Hp & _ & _ & _ & _ & _ & _ & _ & Hx & _ & _ & _ &
        Hn & _ & He & _).
  - reflexivity.
  - split; reflexivity.
  - split; reflexivity.
  - reflexivity.
  - reflexivity.
  - exists x, y, sw, sh. split; [exact Hp|]. split; [exact Hx|]. split; [exact Hn|].
    exact (proj2 (He 576 (Qeq_refl _))).
Defined.

(** The claim C2 as the specification words it fails on the 6.14x9.21
    page (442.08 x 663.12 points, neither a binary64 integer): for a
    100 x 50 image the scaled width is 1326.24 and the subtraction
    442.08 - 1326.24 is rounded, so that the overhang on the left, -x,
    is 2^-44 larger than the one on the right. *)
Lemma offsets_can_be_off_centre :
  let r := Sample.reader "RGB" 100 50 in
  let pw := PFloat (S754_finite false 7777153606515425 (-44)) in
  let ph := PFloat (S754_finite false 5832865204886570 (-43)) in
  let w := PFloat (S754_finite false 5832865204886570 (-42)) in
  let h := PFloat (S754_finite false 5832865204886570 (-43)) in
  let x := PFloat (S754_finite true 7777153606515428 (-44)) in
  let y := PFloat (S754_zero false) in
  get_page_size (JStr "6.14x9.21") = inr (pw, ph) /\
  getSize Sample.world r = inr (100, 50) /\
  placement Sample.world r pw ph = inr (x, y, w, h) /\
  py_sub pw w = inr (PFloat (F64.sub (S754_finite false 7777153606515425 (-44))
                                     (S754_finite false 5832865204886570 (-42)))) /\
  ~ (- py_val x == py_val x + py_val w - py_val pw)%Q /\
  (- py_val x - (py_val x + py_val w - py_val pw) == Qpower 2 (-44))%Q.
Proof.
  cbv zeta. split; [vm_compute; reflexivity|]. split; [reflexivity|].
  split; [vm_compute; reflexivity|]. split; [reflexivity|].
  split; [intros H; vm_compute in H; discriminate|].
  vm_compute. reflexivity.
Qed.

(** * Further properties of the module

    What the code shows beyond the sentences of its specification: the
    edges of [load_image_from_path] and [add_image_to_page], more of the
    arithmetic of the placement, and how [generate_pdf] ends on
    configurations and libraries that misbehave. *)

(** ** Page sizes *)

(** X1.  Whatever value the configuration gives as format,
    [get_page_size] either returns a page whose width and height lie
    between 360 and 792 points (5 and 11 inches), or raises because the
    value is a list or a dictionary, which cannot be looked up in the
    table. *)
Theorem page_sizes_are_within_bounds (format_name : json) :
  match get_page_size format_name with
  | inr (page_width, page_height) =>
      (360 <= py_val page_width <= 792)%Q /\ (360 <= py_val page_height <= 792)%Q
  | inl _ => match format_name with JArr _ | JObj _ => True | _ => False end
  end.
Proof.
  destruct format_name as [| | | |s| |];
    [vm_compute; repeat split; discriminate ..| |exact I|exact I].
  unfold get_page_size, in_PDF_FORMATS.
  destruct (PDF_FORMATS !! s) as [[w h]|] eqn:E;
    [|vm_compute; repeat split; discriminate].
  unfold PDF_FORMATS in E. apply elem_of_list_to_map_2 in E.
  repeat (apply elem_of_cons in E as [E|E];
          [inversion E; subst; clear E; vm_compute; repeat split; discriminate|]).
  by apply elem_of_nil in E.
Qed.

(** X2.  Inches to points and back.  For every format of the table the
    page size in points divided by 72, which is what the "Format" progress
    line of [generate_pdf] prints, is exactly the width and height in
    inches that the table holds (as floats), also for 6.14 and 9.21 whose
    products with 72 are rounded; for any other name it is 8.0.  Neither
    division raises. *)
Theorem page_size_in_inches_round_trips (name : string) :
  match PDF_FORMATS !! name with
  | Some (width_in, height_in) =>
      exists page_width page_height w h,
        get_page_size (JStr name) = inr (page_width, page_height) /\
        py_float width_in = inr w /\ py_float height_in = inr h /\
        py_truediv page_width (PInt 72) = inr (PFloat w) /\
        py_truediv page_height (PInt 72) = inr (PFloat h)
  | None =>
      get_page_size (JStr name) = inr (PInt 576, PInt 576) /\
      py_truediv (PInt 576) (PInt 72) = inr (PFloat (F64.of_Z 8))
  end.
Proof.
  destruct (PDF_FORMATS !! name) as [[w h]|] eqn:E.
  - unfold get_page_size, in_PDF_FORMATS. rewrite E.
    unfold PDF_FORMATS in E. apply elem_of_list_to_map_2 in E.
    repeat (apply elem_of_cons in E as [E|E];
            [inversion E; subst; clear E; do 4 eexists;
             split; [vm_compute; reflexivity|];
             split; [vm_compute; reflexivity|];
             split; [vm_compute; reflexivity|];
             split; vm_compute; reflexivity|]).
    by apply elem_of_nil in E.
  - split; [|vm_compute; reflexivity].
    unfold get_page_size, in_PDF_FORMATS. by rewrite E.
Qed.

(** ** Loading an image *)

Section Loading.

Variable W : World.

(** [load_image_from_path] on a string, case by case. *)
Lemma load_image_from_path_string path log :
  load_image_from_path W (JStr path) log =
  if String.prefix "/objects/" path || String.prefix "objects/" path then
    (inr None, log ++ [LogSkippingObjectStorage (JStr path)])
  else if os_path_exists W (JStr path) then
    match Image_open W (JStr path) with
    | inl e => (inr None, log ++ [LogErrorLoadingImage (JStr path) e])
    | inr img =>
        match (if String.eqb (img_mode img) "RGB" || String.eqb (img_mode img) "L"
               then inr img else Image_convert W img "RGB") with
        | inl e => (inr None, log ++ [LogErrorLoadingImage (JStr path) e])
        | inr img' =>
            match ImageReader_init W img' with
            | inl e => (inr None, log ++ [LogErrorLoadingImage (JStr path) e])
            | inr reader => (inr (Some reader), log)
            end
        end
    end
  else (inr None, log ++ [LogImageNotFound (JStr path)]).
Proof.
  unfold load_image_from_path, try_except.
  cbn [py_startswith lift]. rewrite bind_ret.
  destruct (String.prefix "/objects/" path); cbn [orb lift].
  { rewrite bind_ret, bind_print. reflexivity. }
  rewrite bind_ret.
  destruct (String.prefix "objects/" path).
  { rewrite bind_print. reflexivity. }
  destruct (os_path_exists W (JStr path)); cbn [negb].
  2: { rewrite bind_print. reflexivity. }
  destruct (Image_open W (JStr path)) as [e|img]; cbn [lift].
  { rewrite bind_raise, bind_print. reflexivity. }
  rewrite bind_ret.
  destruct (String.eqb (img_mode img) "RGB" || String.eqb (img_mode img) "L"); cbn [negb].
  - rewrite bind_ret.
    destruct (ImageReader_init W img) as [e|r]; cbn [lift].
    + rewrite bind_raise, bind_print. reflexivity.
    + rewrite bind_ret. reflexivity.
  - destruct (Image_convert W img "RGB") as [e|img']; cbn [lift].
    { rewrite bind_raise, bind_print. reflexivity. }
    rewrite bind_ret.
    destruct (ImageReader_init W img') as [e|r]; cbn [lift].
    + rewrite bind_raise, bind_print. reflexivity.
    + rewrite bind_ret. reflexivity.
Qed.

End Loading.

Lemma story_pages_not_loaded (W : World) pw ph pgs n i (m : gmap string json)
    image_path line rest c log :
  py_len pgs = inr n -> m !! "image_path" = Some image_path ->
  py_truthy image_path = true ->
  returns (load_image_from_path W image_path) None [line] ->
  story_pages W pw ph pgs i (JObj m :: rest) c log =
  story_pages W pw ph pgs (S i) rest c
    (log ++ [LogAddingPage (i + 1) n image_path; line]).
Proof.
  intros Hn Hm Ht Hl.
  cbn [story_pages py_get lift]. rewrite Hm.
  change (default JNull (Some image_path)) with image_path.
  rewrite bind_ret. cbv beta. rewrite Ht. cbn [negb].
  rewrite Hn. cbn [lift]. rewrite bind_ret, bind_print, (bind_returns _ _ _ _ _ Hl).
  rewrite <- app_assoc. reflexivity.
Qed.

(** X3.  An image path that is not a string (a number, a boolean, null,
    a list, a dictionary) has no [startswith]: the [AttributeError] is
    caught inside [load_image_from_path], which returns [None] after
    logging one "Error loading image" line, whatever the file system
    holds.  In the loop of [generate_pdf] such an entry gets no page and
    the loop goes on with the next one. *)
Theorem non_string_path_is_not_loaded (W : World) (image_path : json) :
  match image_path with
  | JStr _ => True
  | _ =>
      exists msg,
        returns (load_image_from_path W image_path) None
          [LogErrorLoadingImage image_path (AttributeError msg)] /\
        forall pw ph pgs n i (entry : gmap string json) rest c log,
          py_len pgs = inr n -> entry !! "image_path" = Some image_path ->
          py_truthy image_path = true ->
          story_pages W pw ph pgs i (JObj entry :: rest) c log =
          story_pages W pw ph pgs (S i) rest c
            (log ++ [LogAddingPage (i + 1) n image_path;
                     LogErrorLoadingImage image_path (AttributeError msg)])
  end.
Proof.
  destruct image_path; try done;
    (eexists; split; [intros log; reflexivity|];
     intros pw ph pgs n i entry rest c log Hn Hm Ht;
     apply (story_pages_not_loaded W pw ph pgs n i entry _ _ rest c log Hn Hm Ht);
     intros log0; reflexivity).
Qed.

(** X4.  [load_image_from_path] returns a reader for a string path
    exactly when the path has neither object-storage prefix, the file
    exists, PIL opens it, the conversion to RGB (made only when the mode
    is neither RGB nor L) succeeds and ReportLab accepts the image; it
    then logs nothing.  In every other case it returns [None] and logs
    exactly one line. *)
Theorem load_image_from_path_success (W : World) (path : string) (log : list log_line) :
  (forall reader log',
     load_image_from_path W (JStr path) log = (inr (Some reader), log') <->
     log' = log /\
     String.prefix "/objects/" path = false /\ String.prefix "objects/" path = false /\
     os_path_exists W (JStr path) = true /\
     exists img img',
       Image_open W (JStr path) = inr img /\
       (if String.eqb (img_mode img) "RGB" || String.eqb (img_mode img) "L"
        then img' = img else Image_convert W img "RGB" = inr img') /\
       ImageReader_init W img' = inr reader) /\
  (forall log',
     load_image_from_path W (JStr path) log = (inr None, log') ->
     exists line, log' = log ++ [line]).
Proof.
  rewrite load_image_from_path_string. split.
  - intros reader log'. split.
    + destruct (String.prefix "/objects/" path); [discriminate|].
      destruct (String.prefix "objects/" path); [discriminate|]. cbn [orb].
      destruct (os_path_exists W (JStr path)); [|discriminate].
      destruct (Image_open W (JStr path)) as [e|img]; [discriminate|].
      destruct (String.eqb (img_mode img) "RGB" || String.eqb (img_mode img) "L") eqn:Em.
      * destruct (ImageReader_init W img) as [e|r] eqn:Er; [discriminate|].
        intros [= -> ->]. repeat (split; [done|]).
        exists img, img. rewrite Em. done.
      * destruct (Image_convert W img "RGB") as [e|img'] eqn:Ec; [discriminate|].
        destruct (ImageReader_init W img') as [e|r] eqn:Er; [discriminate|].
        intros [= -> ->]. repeat (split; [done|]).
        exists img, img'. rewrite Em. done.
    + intros (-> & -> & -> & -> & img & img' & -> & Hc & Hr). cbn [orb].
      destruct (String.eqb (img_mode img) "RGB" || String.eqb (img_mode img) "L").
      * subst img'. by rewrite Hr.
      * by rewrite Hc, Hr.
  - intros log'.
    destruct (String.prefix "/objects/" path || String.prefix "objects/" path);
      [intros [= <-]; eauto|].
    destruct (os_path_exists W (JStr path)); [|intros [= <-]; eauto].
    destruct (Image_open W (JStr path)) as [e|img]; [intros [= <-]; eauto|].
    destruct (if String.eqb (img_mode img) "RGB" || String.eqb (img_mode img) "L"
              then inr img else Image_convert W img "RGB") as [e|img'];
      [intros [= <-]; eauto|].
    destruct (ImageReader_init W img') as [e|r]; [intros [= <-]; eauto|discriminate].
Qed.

(** X5.  No image in a mode other than RGB or L reaches the canvas: with
    a PIL whose [convert('RGB')] yields an RGB image and a ReportLab whose
    reader wraps the image it is given, every reader that
    [load_image_from_path] returns holds an image of mode RGB or L. *)
Theorem loaded_image_is_rgb_or_grey (W : World) (image_path : json)
    (log log' : list log_line) (reader : ImageReader) :
  (forall img img', Image_convert W img "RGB" = inr img' -> img_mode img' = "RGB") ->
  (forall img r, ImageReader_init W img = inr r -> reader_image r = img) ->
  load_image_from_path W image_path log = (inr (Some reader), log') ->
  img_mode (reader_image reader) = "RGB" \/ img_mode (reader_image reader) = "L".
Proof.
  intros Hconv Hinit H.
  destruct image_path as [| | | |path| |]; try discriminate.
  rewrite load_image_from_path_string in H.
  destruct (String.prefix "/objects/" path || String.prefix "objects/" path);
    [discriminate|].
  destruct (os_path_exists W (JStr path)); [|discriminate].
  destruct (Image_open W (JStr path)) as [e|img]; [discriminate|].
  destruct (String.eqb (img_mode img) "RGB") eqn:E1; cbn [orb] in H.
  - destruct (ImageReader_init W img) as [e|r] eqn:Er; [discriminate|].
    injection H as <- <-. rewrite (Hinit _ _ Er). left. by apply String.eqb_eq.
  - destruct (String.eqb (img_mode img) "L") eqn:E2.
    + destruct (ImageReader_init W img) as [e|r] eqn:Er; [discriminate|].
      injection H as <- <-. rewrite (Hinit _ _ Er). right. by apply String.eqb_eq.
    + destruct (Image_convert W img "RGB") as [e|img'] eqn:Ec; [discriminate|].
      destruct (ImageReader_init W img') as [e|r] eqn:Er; [discriminate|].
      injection H as <- <-. rewrite (Hinit _ _ Er). left. by apply (Hconv img).
Qed.

Lemma loaded_image_is_rgb_or_grey_witness :
  load_image_from_path Sample.world (JStr "cover.png") [] =
    (inr (Some (Sample.reader "RGB" 519 519)), []) /\
  (img_mode (reader_image (Sample.reader "RGB" 519 519)) = "RGB" \/
   img_mode (reader_image (Sample.reader "RGB" 519 519)) = "L").
Proof.
  split; [reflexivity|].
  apply (loaded_image_is_rgb_or_grey Sample.world (JStr "cover.png") [] []).
  - intros img img' [= <-]. reflexivity.
  - intros img r [= <-]. reflexivity.
  - reflexivity.
Defined.

(** ** Drawing an image *)

(** X6.  [add_image_to_page] is all or nothing.  It always returns, and
    never changes the file name, the page size or the finished pages of
    the canvas (it never ends a page).  Either it adds exactly one
    [drawImage] of the reader it was given to the current page and logs
    nothing, or it leaves the canvas as it was, logging one "Error adding
    image" line when a reader was given and nothing when none was. *)
Theorem add_image_to_page_keeps_canvas (W : World) (c : Canvas)
    (image_reader : option ImageReader) (page_width page_height : pynum)
    (log : list log_line) :
  exists c' out,
    add_image_to_page W c image_reader page_width page_height log = (inr c', log ++ out) /\
    filename c' = filename c /\ pagesize c' = pagesize c /\ pages c' = pages c /\
    ((exists reader x y width height,
        image_reader = Some reader /\
        code c' = code c ++ [DrawImage reader x y width height] /\ out = []) \/
     (c' = c /\
      match image_reader with
      | Some _ => exists e, out = [LogErrorAddingImage e]
      | None => out = []
      end)).
Proof.
  destruct image_reader as [reader|].
  - eexists _, _. split; [apply add_image_to_page_returns|].
    repeat (split; [reflexivity|]).
    unfold image_outcome.
    destruct (placement W reader page_width page_height) as [e|[[[x y] w] h]].
    + right. cbn [fst snd]. rewrite draw_on_nil. eauto.
    + destruct (drawImage_raises W reader x y w h).
      * right. cbn [fst snd]. rewrite draw_on_nil. eauto.
      * left. by exists reader, x, y, w, h.
  - exists c, []. split; [cbn; unfold ret; by rewrite app_nil_r|].
    repeat (split; [reflexivity|]). by right.
Qed.

Section PlacementBounds.

Import F64 F64Facts.

(** The offset of one axis is a finite float. *)
Lemma offset_axis_finite fx sw :
  normal_in (-52) (-43) fx = true -> normal_in (-83) (-10) sw = true ->
  is_finite (div (sub fx sw) (of_Z 2)) = true.
Proof.
  intros Hx Hs.
  assert (Hx' : normal_in (-83) (-10) fx = true)
    by (apply (normal_in_weaken _ _ _ _ _ Hx); lia).
  pose proof (sub_normal fx sw (-83) (-10) Hx' Hs) as H.
  cbv zeta in H. specialize (H ltac:(lia) ltac:(lia)).
  destruct (sub fx sw) as [s| | |s m e]; try done.
  destruct H as (Hd & He & _). by rewrite div_two_normal by (try done; lia).
Qed.

Lemma py_offset_finite pw w d x :
  page_dim_ok pw = true -> normal_in (-83) (-10) w = true ->
  py_sub pw (PFloat w) = inr (PFloat d) ->
  py_truediv (PFloat d) (PInt 2) = inr (PFloat x) ->
  is_finite x = true.
Proof.
  intros Hp Hw Hd Hx.
  destruct (py_float_page pw Hp) as (fx & Ex & Nx & _).
  assert (Ed : d = sub fx w).
  { unfold py_sub in Hd. rewrite Ex in Hd. cbn [py_float] in Hd.
    destruct pw; by injection Hd as <-. }
  subst d.
  assert (E : py_truediv (PFloat (sub fx w)) (PInt 2) =
              inr (PFloat (div (sub fx w) (of_Z 2)))).
  { unfold py_truediv. cbn [py_is_zero py_float]. reflexivity. }
  rewrite E in Hx. injection Hx as <-. by apply offset_axis_finite.
Qed.


(** What rounding leaves of "the scaled size is the page size" on the
    axis that gives the scale. *)
Lemma scaled_tight (page image scale scaled : Q) :
  (0 < image)%Q ->
  near (page / image) scale -> near (image * scale) scaled ->
  (scaled <= page * (1 + eps) * (1 + eps))%Q.
Proof.
  intros Hi [_ Hq] [_ Hm].
  assert (He : (0 < 1 + eps)%Q) by reflexivity.
  set (k := (1 + eps)%Q) in *.
  assert (H1 : (image * scale <= page * k)%Q).
  { assert (E : (page * k == image * (page / image * k))%Q) by (field; lra).
    rewrite E. apply Qmult_le_l; [done|]. lra. }
  eapply Qle_trans; [exact Hm|].
  apply Qmult_le_compat_r; [done|lra].
Qed.

(** Both scaled sizes are the image sizes times one scale, each rounded
    once. *)
Lemma scaled_ratio (a b s w h : Q) :
  (0 < a)%Q -> (0 < b)%Q ->
  near (a * s) w -> near (b * s) h ->
  (w * b * (1 - eps) <= h * a * (1 + eps))%Q.
Proof.
  intros Ha Hb [_ Hw] [Hh _].
  assert (He : (0 < 1 - eps)%Q) by reflexivity.
  assert (He' : (0 < 1 + eps)%Q) by reflexivity.
  apply Qle_trans with (a * s * (1 + eps) * b * (1 - eps))%Q.
  - apply Qmult_le_compat_r; [|lra]. apply Qmult_le_compat_r; [done|lra].
  - assert (E : (a * s * (1 + eps) * b * (1 - eps) ==
                 b * s * (1 - eps) * (a * (1 + eps)))%Q) by ring.
    assert (E' : (h * a * (1 + eps) == h * (a * (1 + eps)))%Q) by ring.
    rewrite E, E'.
    apply Qmult_le_compat_r; [done|].
    apply Qlt_le_weak, Qmult_lt_0_compat; done.
Qed.

(** A margin left by an offset is at most the page size times
    eps * (1 + eps). *)
Lemma margin_bound (page scaled d x : Q) :
  (0 < page)%Q -> (page * (1 - eps) * (1 - eps) <= scaled)%Q ->
  offset_ok page scaled d x ->
  (x <= page * eps * (1 + eps) /\ page - (x + scaled) <= page * eps * (1 + eps))%Q.
Proof.
  intros Hp Hc (Hd & Hx & _).
  apply Qabs_Qle_condition in Hd. destruct Hd as [Hlo Hhi].
  assert (Hx' : (x == d * (1 # 2))%Q) by (rewrite Hx; field).
  clear Hx. unfold eps in *.
  destruct (Qlt_le_dec (page - scaled) 0) as [Hneg|Hpos].
  - rewrite (Qabs_neg (page - scaled)) in Hlo, Hhi by lra.
    split; lra.
  - rewrite (Qabs_pos (page - scaled)) in Hlo, Hhi by lra.
    split; lra.
Qed.


Variable W : World.

(** The floats [add_image_to_page] hands to [drawImage]. *)
Lemma placement_normal reader pw ph iw ih :
  getSize W reader = inr (iw, ih) ->
  0 < iw < 2 ^ 31 -> 0 < ih < 2 ^ 31 ->
  page_dim_ok pw = true -> page_dim_ok ph = true ->
  exists x y sw sh,
    placement W reader pw ph = inr (PFloat x, PFloat y, PFloat sw, PFloat sh) /\
    is_finite x = true /\ is_finite y = true /\
    normal_in (-83) (-10) sw = true /\ normal_in (-83) (-10) sh = true.
Proof.
  intros Hsize Hiw Hih Hpw Hph.
  destruct (py_scale pw iw Hpw Hiw) as (sx & Esx & Nsx & _).
  destruct (py_scale ph ih Hph Hih) as (sy & Esy & Nsy & _).
  destruct (py_max_normal sx sy _ _ Nsx Nsy) as (s & Es & _ & Ns & _).
  destruct (py_scaled iw s Hiw Ns) as (sw & Esw & Nsw & _).
  destruct (py_scaled ih s Hih Ns) as (sh & Esh & Nsh & _).
  destruct (py_offset pw sw Hpw Nsw) as (dx & x & Edx & Ex & _).
  destruct (py_offset ph sh Hph Nsh) as (dy & y & Edy & Ey & _).
  exists x, y, sw, sh. split.
  { unfold placement. rewrite Hsize, Esx, Esy, Es, Esw, Esh, Edx, Ex, Edy, Ey.
    reflexivity. }
  split; [exact (py_offset_finite pw sw dx x Hpw Nsw Edx Ex)|].
  split; [exact (py_offset_finite ph sh dy y Hph Nsh Edy Ey)|]. done.
Qed.

End PlacementBounds.

(** X7.  For an image of PIL size (sides positive and below 2^31) on a
    page of a size [get_page_size] returns, the four numbers that
    [add_image_to_page] hands to [drawImage] are finite floats (never an
    infinity or a NaN), and the width and height are positive. *)
Theorem draw_arguments_are_finite (W : World) reader pw ph iw ih :
  getSize W reader = inr (iw, ih) ->
  0 < iw < 2 ^ 31 -> 0 < ih < 2 ^ 31 ->
  page_dim_ok pw = true -> page_dim_ok ph = true ->
  exists x y width height,
    placement W reader pw ph =
      inr (PFloat x, PFloat y, PFloat width, PFloat height) /\
    F64.is_finite x = true /\ F64.is_finite y = true /\
    F64.is_finite width = true /\ F64.is_finite height = true /\
    (0 < F64.to_Q width)%Q /\ (0 < F64.to_Q height)%Q.
Proof.
  intros Hsize Hiw Hih Hpw Hph.
  destruct (placement_normal W reader pw ph iw ih Hsize Hiw Hih Hpw Hph)
    as (x & y & sw & sh & Hp & Fx & Fy & Nw & Nh).
  exists x, y, sw, sh. repeat (split; [done|]).
  split; [exact (F64Facts.normal_is_finite _ _ _ Nw)|].
  split; [exact (F64Facts.normal_is_finite _ _ _ Nh)|].
  split; [exact (F64Facts.normal_pos _ _ _ Nw)|exact (F64Facts.normal_pos _ _ _ Nh)].
Qed.

Lemma draw_arguments_are_finite_witness :
  exists x y width height,
    placement Sample.world (Sample.reader "RGB" 100 50) (PInt 576) (PInt 576) =
      inr (PFloat x, PFloat y, PFloat width, PFloat height) /\
    F64.is_finite x = true /\ F64.is_finite y = true /\
    F64.is_finite width = true /\ F64.is_finite height = true /\
    (0 < F64.to_Q width)%Q /\ (0 < F64.to_Q height)%Q.
Proof.
  apply (draw_arguments_are_finite Sample.world (Sample.reader "RGB" 100 50)
           (PInt 576) (PInt 576) 100 50).
  - reflexivity.
  - split; reflexivity.
  - split; reflexivity.
  - reflexivity.
  - reflexivity.
Defined.

(** X8.  The scaling keeps the aspect ratio of the image up to rounding:
    both sizes are the image sizes times one scale, each rounded once, so
    that width * img_height and height * img_width differ by at most the
    factor (1 + 2^-52) / (1 - 2^-52) either way. *)
Theorem drawn_image_keeps_aspect_ratio (W : World) reader pw ph iw ih :
  getSize W reader = inr (iw, ih) ->
  0 < iw < 2 ^ 31 -> 0 < ih < 2 ^ 31 ->
  page_dim_ok pw = true -> page_dim_ok ph = true ->
  exists x y width height,
    placement W reader pw ph = inr (x, y, width, height) /\
    (py_val width * inject_Z ih * (1 - F64.eps) <=
     py_val height * inject_Z iw * (1 + F64.eps))%Q /\
    (py_val height * inject_Z iw * (1 - F64.eps) <=
     py_val width * inject_Z ih * (1 + F64.eps))%Q.
Proof.
  intros Hsize Hiw Hih Hpw Hph.
  destruct (placement_facts W reader pw ph iw ih Hsize Hiw Hih Hpw Hph)
    as (sx & sy & s & sw & sh & dx & dy & x & y &
        _ & _ & _ & _ & _ & _ & _ & _ & _ & Hp &
        _ & _ & _ & _ & _ & Vsw & Vsh & _).
  assert (Hi : (0 < inject_Z iw)%Q)
    by (change 0%Q with (inject_Z 0); rewrite <- Zlt_Qlt; lia).
  assert (Hj : (0 < inject_Z ih)%Q)
    by (change 0%Q with (inject_Z 0); rewrite <- Zlt_Qlt; lia).
  exists (PFloat x), (PFloat y), (PFloat sw), (PFloat sh). cbn [py_val].
  split; [done|]. split.
  - exact (scaled_ratio _ _ _ _ _ Hi Hj Vsw Vsh).
  - exact (scaled_ratio _ _ _ _ _ Hj Hi Vsh Vsw).
Qed.

Lemma drawn_image_keeps_aspect_ratio_witness :
  exists x y width height,
    placement Sample.world (Sample.reader "RGB" 100 50) (PInt 432) (PInt 648) =
      inr (x, y, width, height) /\
    (py_val width * inject_Z 50 * (1 - F64.eps) <=
     py_val height * inject_Z 100 * (1 + F64.eps))%Q /\
    (py_val height * inject_Z 100 * (1 - F64.eps) <=
     py_val width * inject_Z 50 * (1 + F64.eps))%Q.
Proof.
  apply (drawn_image_keeps_aspect_ratio Sample.world (Sample.reader "RGB" 100 50)
           (PInt 432) (PInt 648) 100 50).
  - reflexivity.
  - split; reflexivity.
  - split; reflexivity.
  - reflexivity.
  - reflexivity.
Defined.

(** X9.  The image is not scaled more than the page needs: on the axis
    that gave the scale the scaled size exceeds the page size by at most
    the two roundings, scaled <= page * (1 + 2^-52)^2.  So the image is
    cropped along one axis at most. *)
Theorem scaled_image_fits_one_axis (W : World) reader pw ph iw ih :
  getSize W reader = inr (iw, ih) ->
  0 < iw < 2 ^ 31 -> 0 < ih < 2 ^ 31 ->
  page_dim_ok pw = true -> page_dim_ok ph = true ->
  exists x y width height,
    placement W reader pw ph = inr (x, y, width, height) /\
    ((py_val width <= py_val pw * (1 + F64.eps) * (1 + F64.eps))%Q \/
     (py_val height <= py_val ph * (1 + F64.eps) * (1 + F64.eps))%Q).
Proof.
  intros Hsize Hiw Hih Hpw Hph.
  destruct (placement_facts W reader pw ph iw ih Hsize Hiw Hih Hpw Hph)
    as (sx & sy & s & sw & sh & dx & dy & x & y &
        _ & _ & _ & _ & _ & _ & _ & _ & _ & Hp &
        Vsx & Vsy & _ & _ & Hs & Vsw & Vsh & _).
  assert (Hi : (0 < inject_Z iw)%Q)
    by (change 0%Q with (inject_Z 0); rewrite <- Zlt_Qlt; lia).
  assert (Hj : (0 < inject_Z ih)%Q)
    by (change 0%Q with (inject_Z 0); rewrite <- Zlt_Qlt; lia).
  exists (PFloat x), (PFloat y), (PFloat sw), (PFloat sh). cbn [py_val].
  split; [done|]. destruct Hs as [-> | ->].
  - left. exact (scaled_tight _ _ _ _ Hi Vsx Vsw).
  - right. exact (scaled_tight _ _ _ _ Hj Vsy Vsh).
Qed.

Lemma scaled_image_fits_one_axis_witness :
  exists x y width height,
    placement Sample.world (Sample.reader "RGB" 100 50) (PInt 432) (PInt 648) =
      inr (x, y, width, height) /\
    ((py_val width <= py_val (PInt 432) * (1 + F64.eps) * (1 + F64.eps))%Q \/
     (py_val height <= py_val (PInt 648) * (1 + F64.eps) * (1 + F64.eps))%Q).
Proof.
  apply (scaled_image_fits_one_axis Sample.world (Sample.reader "RGB" 100 50)
           (PInt 432) (PInt 648) 100 50).
  - reflexivity.
  - split; reflexivity.
  - split; reflexivity.
  - reflexivity.
  - reflexivity.
Defined.

(** X10.  What rounding can leave uncovered is negligible: the margin
    between a page edge and the image, on the left, right, bottom and
    top, is at most page * 2^-52 * (1 + 2^-52) points (about 10^-13
    points on the listed pages). *)
Theorem margins_are_below_rounding (W : World) reader pw ph iw ih :
  getSize W reader = inr (iw, ih) ->
  0 < iw < 2 ^ 31 -> 0 < ih < 2 ^ 31 ->
  page_dim_ok pw = true -> page_dim_ok ph = true ->
  exists x y width height,
    placement W reader pw ph = inr (x, y, width, height) /\
    (py_val x <= py_val pw * F64.eps * (1 + F64.eps))%Q /\
    (py_val pw - (py_val x + py_val width) <= py_val pw * F64.eps * (1 + F64.eps))%Q /\
    (py_val y <= py_val ph * F64.eps * (1 + F64.eps))%Q /\
    (py_val ph - (py_val y + py_val height) <= py_val ph * F64.eps * (1 + F64.eps))%Q.
Proof.
  intros Hsize Hiw Hih Hpw Hph.
  destruct (placement_facts W reader pw ph iw ih Hsize Hiw Hih Hpw Hph)
    as (sx & sy & s & sw & sh & dx & dy & x & y &
        _ & _ & _ & _ & _ & _ & _ & _ & _ & Hp &
        Vsx & Vsy & Hsx & Hsy & _ & Vsw & Vsh & Ox & Oy).
  assert (Hi : (0 < inject_Z iw)%Q)
    by (change 0%Q with (inject_Z 0); rewrite <- Zlt_Qlt; lia).
  assert (Hj : (0 < inject_Z ih)%Q)
    by (change 0%Q with (inject_Z 0); rewrite <- Zlt_Qlt; lia).
  pose proof (scaled_covers _ _ _ _ _ Hi Vsx Hsx Vsw) as Cw.
  pose proof (scaled_covers _ _ _ _ _ Hj Vsy Hsy Vsh) as Ch.
  destruct (margin_bound _ _ _ _ (page_dim_pos pw Hpw) Cw Ox) as [Mx Mx'].
  destruct (margin_bound _ _ _ _ (page_dim_pos ph Hph) Ch Oy) as [My My'].
  exists (PFloat x), (PFloat y), (PFloat sw), (PFloat sh). cbn [py_val]. done.
Qed.

Lemma margins_are_below_rounding_witness :
  exists x y width height,
    placement Sample.world (Sample.reader "RGB" 519 519) (PInt 576) (PInt 576) =
      inr (x, y, width, height) /\
    (py_val x <= py_val (PInt 576) * F64.eps * (1 + F64.eps))%Q /\
    (py_val (PInt 576) - (py_val x + py_val width)
       <= py_val (PInt 576) * F64.eps * (1 + F64.eps))%Q /\
    (py_val y <= py_val (PInt 576) * F64.eps * (1 + F64.eps))%Q /\
    (py_val (PInt 576) - (py_val y + py_val height)
       <= py_val (PInt 576) * F64.eps * (1 + F64.eps))%Q.
Proof.
  apply (margins_are_below_rounding Sample.world (Sample.reader "RGB" 519 519)
           (PInt 576) (PInt 576) 519 519).
  - reflexivity.
  - split; reflexivity.
  - split; reflexivity.
  - reflexivity.
  - reflexivity.
Defined.

Section Unscaled.

Import F64 F64Facts.

(** A number divided by itself is 1.0, whatever the length of its
    mantissa. *)
Lemma div_self m e : div (S754_finite false m e) (S754_finite false m e) = one.
Proof.
  unfold div. cbn [SFdiv xorb]. unfold SFdiv_core_binary. cbn [Zdigits2].
  set (d := Zpos (digits2_pos m)).
  replace (d + e - (d + e)) with 0 by lia.
  replace (e - e) with 0 by lia.
  change (Z.min (fexp prec emax 0) 0) with (-53).
  change (0 - -53) with 53.
  rewrite Z.shiftl_mul_pow2 by lia.
  assert (Ediv : Z.div_eucl (Zpos m * 2 ^ 53) (Zpos m) = (2 ^ 53, 0)).
  { pose proof (Z_div_mod (Zpos m * 2 ^ 53) (Zpos m) ltac:(lia)) as H.
    destruct (Z.div_eucl (Zpos m * 2 ^ 53) (Zpos m)) as [q r]. destruct H as [H1 H2].
    assert (q = 2 ^ 53) by nia. assert (r = 0) by nia. by subst. }
  rewrite Ediv.
  assert (El : new_location (Zpos m) 0 = loc_Exact).
  { unfold new_location, new_location_even, new_location_odd.
    destruct (Z.even (Zpos m)); reflexivity. }
  rewrite El. reflexivity.
Qed.

(** A normal number times 1.0 is itself. *)
Lemma mul_one x lo hi :
  normal_in lo hi x = true -> -1000 <= lo -> hi <= 900 -> mul x one = x.
Proof.
  intros Hx Hlo Hhi.
  destruct (normal_in_inv _ _ _ Hx) as (m & e & -> & Hd & He).
  unfold mul, one. cbn [SFmul xorb].
  assert (Hm : Zpos (m * 4503599627370496) = Zpos m * 2 ^ 52) by (rewrite Pos2Z.inj_mul; reflexivity).
  assert (Hdd : Zpos (digits2_pos (m * 4503599627370496)) = 105).
  { apply (digits2_pos_unique _ 105). rewrite Hm.
    pose proof (digits2_pos_bounds m) as B. rewrite Hd in B.
    change (2 ^ (105 - 1)) with (2 ^ 52 * 2 ^ 52). change (2 ^ 105) with (2 ^ 53 * 2 ^ 52).
    change (2 ^ (53 - 1)) with (2 ^ 52) in B. nia. }
  destruct (binary_round_aux_exact_shift false (m * 4503599627370496) (e + -52))
    as (m' & E & Hm' & _).
  - rewrite Hdd. lia.
  - rewrite Hdd, Hm. exists (Zpos m). change (105 - 53) with 52. lia.
  - rewrite Hdd. lia.
  - rewrite Hdd. lia.
  - rewrite E. rewrite Hdd in *. rewrite Hm in Hm'.
    change (105 - 53) with 52 in *.
    assert (m' = m) by nia. subst m'. f_equal. lia.
Qed.

(** A normal number minus itself is +0.0. *)
Lemma sub_self x lo hi :
  normal_in lo hi x = true -> -1000 <= lo -> hi <= 900 ->
  sub x x = S754_zero false.
Proof.
  intros Hx Hlo Hhi.
  pose proof (sub_normal x x lo hi Hx Hx Hlo Hhi) as H. cbv zeta in H.
  destruct (sub x x) as [s| | |s m e]; try done.
  - by destruct H as [-> _].
  - destruct H as (_ & _ & H & _). destruct s; lra.
Qed.

(** Normal numbers are determined by their value. *)
Lemma normal_unique x y lo hi lo' hi' :
  normal_in lo hi x = true -> normal_in lo' hi' y = true ->
  (to_Q x == to_Q y)%Q -> x = y.
Proof.
  intros Hx Hy E.
  destruct (normal_in_inv _ _ _ Hx) as (mx & ex & -> & Hdx & _).
  destruct (normal_in_inv _ _ _ Hy) as (my & ey & -> & Hdy & _).
  cbn [to_Q] in E.
  destruct (Z.lt_trichotomy ex ey) as [H|[H|H]].
  - pose proof (normal_exp_lt mx ex my ey Hdx Hdy H). lra.
  - subst ey. pose proof (pow2_pos ex) as P.
    apply Qmult_inj_r in E; [|lra].
    pose proof (proj1 (inject_Z_injective _ _) E) as E'. by injection E' as ->.
  - pose proof (normal_exp_lt my ey mx ex Hdy Hdx H). lra.
Qed.

(** A page dimension that is a whole number [n] of points is [float(n)],
    and [n] lies between 256 and 1024. *)
Lemma page_dim_whole pw n :
  page_dim_ok pw = true -> (py_val pw == inject_Z n)%Q ->
  py_float pw = inr (of_Z n) /\ 256 <= n < 1024.
Proof.
  intros Hp E. destruct pw as [z|f]; cbn [page_dim_ok py_val] in *.
  - pose proof (proj1 (inject_Z_injective _ _) E) as ->.
    rewrite andb_true_iff, Z.leb_le, Z.ltb_lt in Hp.
    split; [|done]. cbn [py_float].
    destruct (of_Z_normal n 10) as [Hn _]; [change (2 ^ 10) with 1024; lia|lia|].
    by rewrite (normal_is_finite _ _ _ Hn).
  - assert (Hn : 256 <= n < 1024).
    { destruct (normal_in_inv _ _ _ Hp) as (m & e & -> & Hd & He).
      pose proof (digits2_pos_bounds m) as B. rewrite Hd in B.
      change (2 ^ (53 - 1)) with 4503599627370496 in B.
      change (2 ^ 53) with 9007199254740992 in B.
      cbn [to_Q] in E.
      assert (e = -44 \/ e = -43) as [-> | ->] by lia.
      - change (Qpower 2 (-44)) with (1 # 17592186044416)%Q in E.
        unfold Qeq in E. cbn in E. lia.
      - change (Qpower 2 (-43)) with (1 # 8796093022208)%Q in E.
        unfold Qeq in E. cbn in E. lia. }
    split; [|done]. cbn [py_float]. f_equal.
    destruct (of_Z_normal n 10) as [Hn' Hv]; [change (2 ^ 10) with 1024; lia|lia|].
    apply (normal_unique _ _ _ _ _ _ Hp Hn'). by rewrite Hv.
Qed.

(** One axis of an image whose size in pixels is the page size in
    points. *)
Lemma py_axis_unscaled pw n :
  page_dim_ok pw = true -> (py_val pw == inject_Z n)%Q ->
  py_truediv pw (PInt n) = inr (PFloat one) /\
  py_mul (PInt n) (PFloat one) = inr (PFloat (of_Z n)) /\
  py_sub pw (PFloat (of_Z n)) = inr (PFloat (S754_zero false)).
Proof.
  intros Hp E. destruct (page_dim_whole pw n Hp E) as [Ef Hn].
  destruct (of_Z_normal n 10) as [Hnorm _]; [change (2 ^ 10) with 1024; lia|lia|].
  assert (Efn : py_float (PInt n) = inr (of_Z n)).
  { cbn [py_float]. by rewrite (normal_is_finite _ _ _ Hnorm). }
  split; [|split].
  - unfold py_truediv. cbn [py_is_zero].
    replace (n =? 0) with false by (symmetry; apply Z.eqb_neq; lia).
    destruct pw as [z|f].
    + cbn [py_val] in E. pose proof (proj1 (inject_Z_injective _ _) E) as ->.
      destruct n as [|p|p]; try lia.
      unfold int_true_div. cbn [Z.ltb Z.compare].
      change (Z.to_pos (Z.abs (Zpos p))) with p.
      by rewrite div_self.
    + rewrite Efn. cbn [py_float] in *. injection Ef as ->.
      destruct (normal_in_inv _ _ _ Hnorm) as (m & e & -> & _). by rewrite div_self.
  - unfold py_mul. rewrite Efn. cbn [py_float].
    by rewrite (mul_one _ _ _ Hnorm) by lia.
  - unfold py_sub. rewrite Ef. cbn [py_float].
    rewrite (sub_self _ _ _ Hnorm) by lia. by destruct pw.
Qed.

End Unscaled.

(** X11.  An image whose size in pixels is the page size in points is
    drawn as it is: the scale is exactly 1.0, the offsets are exactly 0.0
    and the drawn size is exactly the page size. *)
Theorem page_sized_image_is_drawn_unscaled (W : World) reader pw ph iw ih :
  getSize W reader = inr (iw, ih) ->
  page_dim_ok pw = true -> page_dim_ok ph = true ->
  (py_val pw == inject_Z iw)%Q -> (py_val ph == inject_Z ih)%Q ->
  placement W reader pw ph =
    inr (PFloat (S754_zero false), PFloat (S754_zero false),
         PFloat (F64.of_Z iw), PFloat (F64.of_Z ih)).
Proof.
  intros Hs Hpw Hph Ew Eh.
  destruct (py_axis_unscaled pw iw Hpw Ew) as (Dx & Mx & Sx).
  destruct (py_axis_unscaled ph ih Hph Eh) as (Dy & My & Sy).
  unfold placement. rewrite Hs, Dx, Dy.
  change (py_max (PFloat F64.one) (PFloat F64.one)) with (PFloat F64.one).
  rewrite Mx, My, Sx, Sy. reflexivity.
Qed.

Lemma page_sized_image_is_drawn_unscaled_witness :
  placement Sample.world (Sample.reader "RGB" 612 792)
    (PFloat (F64.of_Z 612)) (PInt 792) =
    inr (PFloat (S754_zero false), PFloat (S754_zero false),
         PFloat (F64.of_Z 612), PFloat (F64.of_Z 792)).
Proof.
  apply (page_sized_image_is_drawn_unscaled Sample.world).
  - reflexivity.
  - reflexivity.
  - reflexivity.
  - reflexivity.
  - reflexivity.
Defined.

(** ** The loop over the story pages *)

Section Runs.

Variable W : World.

(** The whole [try] block on a configuration with an output path, a
    format that gives a page size and a list of dictionaries as pages:
    everything up to [save] returns, and the two library calls at the end
    decide the outcome. *)
Lemma generate_pdf_body_run (m : gmap string json) out ms pw ph :
  m !! "output_path" = Some out ->
  default (JArr []) (m !! "pages") = JArr (JObj <$> ms) ->
  get_page_size (default (JStr "8x8") (m !! "format")) = inr (pw, ph) ->
  let cover := default JNull (m !! "cover_image") in
  let c := final_canvas W out pw ph cover ms in
  exists lines,
    forall log,
      generate_pdf_body W (JObj m) log =
      match save_raises W c with
      | Some e => (inl e, log ++ lines)
      | None =>
          match os_path_getsize W c with
          | inl e => (inl e, log ++ lines)
          | inr size =>
              (inr (success_record out size
                      (Z.of_nat (length ms) + (if py_truthy cover then 1 else 0)), c),
               log ++ lines ++ [LogGenerated out size])
          end
      end.
Proof.
  intros Hout Hpages Hsize cover c.
  destruct (get_page_size_ok _ _ _ Hsize) as (_ & _ & Hw & Hh).
  destruct (py_truediv pw (PInt 72)) as [|w_in] eqn:Ew; [done|].
  destruct (py_truediv ph (PInt 72)) as [|h_in] eqn:Eh; [done|].
  set (c0 := Canvas_init out (pw, ph)).
  destruct (add_cover_returns W pw ph cover c0 eq_refl) as [out1 H1].
  destruct (story_pages_returns W pw ph (JArr (JObj <$> ms)) (length ms) ms
              ltac:(by cbn; rewrite length_fmap) 0%nat
              (with_pages c0 (pages c0 ++ cover_pages W pw ph cover)) eq_refl)
    as [out2 H2].
  eexists. intros log. unfold generate_pdf_body.
  cbn [py_getitem py_get]. rewrite Hout. cbn [lift].
  rewrite !bind_ret. rewrite Hpages, Hsize. cbn [lift].
  rewrite !bind_ret. rewrite bind_print. rewrite Ew, Eh. cbn [lift].
  rewrite !bind_ret. rewrite bind_print. cbn [py_len lift].
  rewrite bind_ret, bind_print.
  fold c0. fold cover. rewrite (bind_returns _ _ _ _ _ H1).
  cbn [py_iter lift]. rewrite bind_ret.
  rewrite (bind_returns _ _ _ _ _ H2).
  cbn [pages with_pages c0 Canvas_init app filename pagesize].
  change (with_pages _ _) with c.
  unfold save. destruct (save_raises W c) as [e|].
  { rewrite bind_raise. rewrite <- !app_assoc. reflexivity. }
  rewrite bind_ret. destruct (os_path_getsize W c) as [e|size]; cbn [lift].
  { rewrite bind_raise. rewrite <- !app_assoc. reflexivity. }
  rewrite bind_ret, bind_print, bind_ret. unfold ret, success_record.
  rewrite length_fmap. rewrite <- !app_assoc. reflexivity.
Qed.

(** A run that reached its [return] had an output path and a page size,
    and its canvas is the document of the configuration. *)
Lemma generate_pdf_body_success (m : gmap string json) ms log res c log' :
  default (JArr []) (m !! "pages") = JArr (JObj <$> ms) ->
  generate_pdf_body W (JObj m) log = (inr (res, c), log') ->
  exists out pw ph size,
    m !! "output_path" = Some out /\
    get_page_size (default (JStr "8x8") (m !! "format")) = inr (pw, ph) /\
    c = final_canvas W out pw ph (default JNull (m !! "cover_image")) ms /\
    res = success_record out size
            (Z.of_nat (length ms) +
             (if py_truthy (default JNull (m !! "cover_image")) then 1 else 0)).
Proof.
  intros Hpages H.
  destruct (m !! "output_path") as [out|] eqn:Eo.
  2: { unfold generate_pdf_body in H. cbn [py_getitem] in H. rewrite Eo in H.
       cbn [lift] in H. rewrite bind_raise in H. discriminate. }
  destruct (get_page_size (default (JStr "8x8") (m !! "format"))) as [e|[pw ph]] eqn:Es.
  { unfold generate_pdf_body in H. cbn [py_getitem py_get] in H. rewrite Eo in H.
    cbn [lift] in H. rewrite !bind_ret in H. rewrite Es in H.
    cbn [lift] in H. rewrite bind_raise in H. discriminate. }
  destruct (generate_pdf_body_run m out ms pw ph Eo Hpages Es) as [lines Hrun].
  cbv zeta in Hrun. rewrite Hrun in H.
  destruct (save_raises W _); [discriminate|].
  destruct (os_path_getsize W _) as [e|size]; [discriminate|].
  injection H as <- <- <-. by exists out, pw, ph, size.
Qed.


Lemma bind_bind {A B C} (m : M A) (f : A -> M B) (g : B -> M C) log :
  bind (bind m f) g log = bind m (fun a => bind (f a) g) log.
Proof. unfold bind. destruct (m log) as [[e|a] l]; reflexivity. Qed.

Lemma bind_ext {A B} (m : M A) (f g : A -> M B) log :
  (forall a l, f a l = g a l) -> bind m f log = bind m g log.
Proof. intros H. unfold bind. destruct (m log) as [[e|a] l]; [reflexivity|apply H]. Qed.

End Runs.

Lemma story_pages_app_at (W : World) (pw ph : pynum) (pgs : json)
    (items1 items2 : list json) :
  forall (i : nat) (c : Canvas) (log : list log_line),
    story_pages W pw ph pgs i (items1 ++ items2) c log =
    bind (story_pages W pw ph pgs i items1 c)
         (fun c' => story_pages W pw ph pgs (i + length items1) items2 c') log.
Proof.
  induction items1 as [|page rest IH]; intros i c log.
  - cbn [app story_pages length]. rewrite bind_ret. by rewrite Nat.add_0_r.
  - cbn [app story_pages length].
    replace (i + S (length rest))%nat with (S i + length rest)%nat by lia.
    rewrite bind_bind. apply bind_ext. intros image_path l.
    destruct (negb (py_truthy image_path)).
    { rewrite bind_bind. apply bind_ext. intros [] l1. apply IH. }
    rewrite bind_bind. apply bind_ext. intros n l1.
    rewrite bind_bind. apply bind_ext. intros [] l2.
    rewrite bind_bind. apply bind_ext. intros [reader|] l3; [|apply IH].
    rewrite bind_bind. apply bind_ext. intros c1 l4. cbv zeta.
    rewrite bind_bind. apply bind_ext. intros [] l5. apply IH.
Qed.

(** X12.  The loop composes: running it over a list of entries is
    running it over a first part and then, on the canvas that leaves and
    after the lines it logged, over the rest, with the page numbers
    going on from where the first part stopped.  If the first part raises,
    the rest is not run.  This holds for every list, also one with
    entries that are no dictionaries. *)
Theorem story_pages_app (W : World) (pw ph : pynum) (pgs : json)
    (items1 items2 : list json) (i : nat) (c : Canvas) (log : list log_line) :
  story_pages W pw ph pgs i (items1 ++ items2) c log =
  bind (story_pages W pw ph pgs i items1 c)
       (fun c' => story_pages W pw ph pgs (i + length items1) items2 c') log.
Proof. apply story_pages_app_at. Qed.

(** X13.  An image that loads but cannot be placed still takes a page:
    for an entry whose image has a width or a height of 0 the division
    raises inside [add_image_to_page], which logs it; [generate_pdf] then
    ends the page all the same and reports the page as added.  The
    document gets an empty page there. *)
Theorem undrawable_image_leaves_blank_page (W : World) pw ph pgs n i
    (m : gmap string json) path reader iw ih rest c log :
  py_len pgs = inr n ->
  m !! "image_path" = Some (JStr path) -> path <> "" ->
  returns (load_image_from_path W (JStr path)) (Some reader) [] ->
  getSize W reader = inr (iw, ih) -> iw = 0 \/ ih = 0 ->
  code c = [] ->
  exists e,
    story_pages W pw ph pgs i (JObj m :: rest) c log =
    story_pages W pw ph pgs (S i) rest (with_pages c (pages c ++ [[]]))
      (log ++ [LogAddingPage (i + 1) n (JStr path);
               LogErrorAddingImage e; LogPageAdded (i + 1)]).
Proof.
  intros Hn Hm Hne Hl Hs Hz Hc.
  destruct (placement_zero_size W reader pw ph iw ih Hs Hz) as [e He].
  exists e.
  assert (Ht : py_truthy (JStr path) = true).
  { cbn. by destruct (String.eqb_spec path ""). }
  cbn [story_pages py_get lift]. rewrite Hm.
  change (default JNull (Some (JStr path))) with (JStr path).
  rewrite bind_ret. cbv beta. rewrite Ht. cbn [negb].
  rewrite Hn. cbn [lift]. rewrite bind_ret, bind_print, (bind_returns _ _ _ _ _ Hl).
  rewrite (bind_returns _ _ _ _ _ (add_image_to_page_raised W c reader pw ph e He)).
  cbv zeta. rewrite bind_print.
  replace (showPage c) with (with_pages c (pages c ++ [[]]))
    by (unfold showPage, with_pages; by rewrite Hc).
  rewrite app_nil_r, <- !app_assoc. reflexivity.
Qed.

Lemma undrawable_image_leaves_blank_page_witness :
  exists e,
    story_pages Sample.world (PInt 576) (PInt 576) (JArr [JObj (Sample.page "empty.png")])
      0 [JObj (Sample.page "empty.png")]
      (Canvas_init (JStr "book.pdf") (PInt 576, PInt 576)) [] =
    (inr (with_pages (Canvas_init (JStr "book.pdf") (PInt 576, PInt 576)) [[]]),
     [LogAddingPage 1 1 (JStr "empty.png"); LogErrorAddingImage e; LogPageAdded 1]).
Proof.
  destruct (undrawable_image_leaves_blank_page Sample.world (PInt 576) (PInt 576)
              (JArr [JObj (Sample.page "empty.png")]) 1%nat 0%nat
              (Sample.page "empty.png") "empty.png" (Sample.reader "L" 0 10) 0 10 []
              (Canvas_init (JStr "book.pdf") (PInt 576, PInt 576)) [])
    as [e He].
  - reflexivity.
  - reflexivity.
  - discriminate.
  - intros log. cbn. by rewrite app_nil_r.
  - reflexivity.
  - by left.
  - reflexivity.
  - exists e. exact He.
Defined.

(** ** How [generate_pdf] ends *)

(** X14.  An entry of [pages] that is not a dictionary aborts the whole
    generation.  The entries before it are processed, then [page.get]
    raises an [AttributeError] that no inner handler catches: the result
    is the failure record, whatever entries follow. *)
Theorem non_object_entry_aborts_generation (W : World) (m : gmap string json)
    out ms v rest pw ph :
  m !! "output_path" = Some out ->
  default (JArr []) (m !! "pages") = JArr ((JObj <$> ms) ++ v :: rest) ->
  get_page_size (default (JStr "8x8") (m !! "format")) = inr (pw, ph) ->
  match v with JObj _ => False | _ => True end ->
  exists msg lines,
    returns (generate_pdf W (JObj m)) (failure_record (AttributeError msg))
      (lines ++ [LogErrorGenerating (AttributeError msg)]).
Proof.
  intros Hout Hpages Hsize Hv.
  destruct (get_page_size_ok _ _ _ Hsize) as (_ & _ & Hw & Hh).
  destruct (py_truediv pw (PInt 72)) as [|w_in] eqn:Ew; [done|].
  destruct (py_truediv ph (PInt 72)) as [|h_in] eqn:Eh; [done|].
  set (cover := default JNull (m !! "cover_image")) in *.
  set (c0 := Canvas_init out (pw, ph)).
  set (items := (JObj <$> ms) ++ v :: rest) in *.
  destruct (add_cover_returns W pw ph cover c0 eq_refl) as [out1 H1].
  destruct (story_pages_returns W pw ph (JArr items) (length items) ms eq_refl 0%nat
              (with_pages c0 (pages c0 ++ cover_pages W pw ph cover)) eq_refl)
    as [out2 H2].
  assert (Hget : exists msg, py_get v "image_path" JNull = inl (AttributeError msg)).
  { destruct v; try done; eexists; reflexivity. }
  destruct Hget as [msg Hget].
  exists msg. eexists.
  apply generate_pdf_of_raise.
  intros log. unfold generate_pdf_body.
  cbn [py_getitem py_get]. rewrite Hout. cbn [lift].
  rewrite !bind_ret. rewrite Hpages, Hsize. cbn [lift].
  rewrite !bind_ret. rewrite bind_print. rewrite Ew, Eh. cbn [lift].
  rewrite !bind_ret. rewrite bind_print. cbn [py_len lift].
  rewrite bind_ret, bind_print.
  fold c0. fold cover. rewrite (bind_returns _ _ _ _ _ H1).
  cbn [py_iter lift]. rewrite bind_ret.
  unfold bind at 1. unfold items at 2. rewrite story_pages_app_at.
  rewrite (bind_returns _ _ _ _ _ H2).
  cbn [story_pages]. rewrite Hget. cbn [lift]. rewrite bind_raise.
  rewrite <- !app_assoc. reflexivity.
Qed.

Lemma non_object_entry_aborts_generation_witness :
  exists msg lines,
    returns (generate_pdf Sample.world
               (JObj {[ "output_path" := JStr "book.pdf";
                        "pages" := JArr [JObj (Sample.page "wide.png"); JStr "wide.png"] ]}))
      (failure_record (AttributeError msg))
      (lines ++ [LogErrorGenerating (AttributeError msg)]).
Proof.
  apply (non_object_entry_aborts_generation Sample.world _ (JStr "book.pdf")
           [Sample.page "wide.png"] (JStr "wide.png") [] (PInt 576) (PInt 576)).
  - reflexivity.
  - reflexivity.
  - vm_compute. reflexivity.
  - exact I.
Defined.

(** X15.  Configurations of the wrong shape end in the failure record of
    a [TypeError]: a configuration that is not a dictionary (before
    anything is logged), a format that is a list or a dictionary (it
    cannot be looked up in the table), and a [pages] value that has no
    length (null, a boolean, a number), which fails at the "Pages"
    progress line, after the two lines before it. *)
Theorem malformed_configuration_fails (W : World) :
  (forall config,
     match config with
     | JObj _ => True
     | _ => exists msg,
         returns (generate_pdf W config) (failure_record (TypeError msg))
           [LogErrorGenerating (TypeError msg)]
     end) /\
  (forall (m : gmap string json) out fmt,
     m !! "output_path" = Some out -> m !! "format" = Some fmt ->
     match fmt with
     | JArr _ | JObj _ => exists msg,
         returns (generate_pdf W (JObj m)) (failure_record (TypeError msg))
           [LogErrorGenerating (TypeError msg)]
     | _ => True
     end) /\
  (forall (m : gmap string json) out pgs pw ph,
     m !! "output_path" = Some out -> m !! "pages" = Some pgs ->
     get_page_size (default (JStr "8x8") (m !! "format")) = inr (pw, ph) ->
     match pgs with
     | JNull | JBool _ | JInt _ | JFloat _ => exists msg w_in h_in,
         returns (generate_pdf W (JObj m)) (failure_record (TypeError msg))
           [LogGenerating out; LogFormat (default (JStr "8x8") (m !! "format")) w_in h_in;
            LogErrorGenerating (TypeError msg)]
     | _ => True
     end).
Proof.
  split; [|split].
  - intros config.
    destruct config; try done; eexists;
      apply (generate_pdf_of_raise W _ _ []); intros log;
      unfold generate_pdf_body; cbn [py_getitem lift]; rewrite bind_raise;
      by rewrite app_nil_r.
  - intros m out fmt Hout Hfmt.
    destruct fmt; try done; eexists;
      apply (generate_pdf_of_raise W _ _ []); intros log;
      unfold generate_pdf_body; cbn [py_getitem py_get]; rewrite Hout, Hfmt;
      unfold default; cbn [lift from_option id]; rewrite !bind_ret;
      cbn [get_page_size in_PDF_FORMATS lift]; rewrite bind_raise;
      by rewrite app_nil_r.
  - intros m out pgs pw ph Hout Hpgs Hsize.
    destruct (get_page_size_ok _ _ _ Hsize) as (_ & _ & Hw & Hh).
    destruct (py_truediv pw (PInt 72)) as [|w_in] eqn:Ew; [done|].
    destruct (py_truediv ph (PInt 72)) as [|h_in] eqn:Eh; [done|].
    destruct pgs; try done; eexists _, w_in, h_in;
      apply (generate_pdf_of_raise W _ _ [_; _]); intros log;
      unfold generate_pdf_body; cbn [py_getitem py_get]; rewrite Hout, Hpgs;
      cbn [lift]; rewrite !bind_ret; rewrite Hsize; cbn [lift];
      rewrite !bind_ret, bind_print; rewrite Ew, Eh; cbn [lift];
      rewrite !bind_ret, bind_print; unfold default at 2;
      cbn [py_len lift from_option id]; rewrite bind_raise;
      rewrite <- !app_assoc; reflexivity.
Qed.

Section Documents.

Variable W : World.

Lemma image_outcome_cases reader pw ph :
  (image_outcome W reader pw ph).1 = [] \/
  exists x y w h,
    placement W reader pw ph = inr (x, y, w, h) /\
    drawImage_raises W reader x y w h = None /\
    (image_outcome W reader pw ph).1 = [DrawImage reader x y w h].
Proof.
  unfold image_outcome.
  destruct (placement W reader pw ph) as [e|[[[x y] w] h]]; [by left|].
  destruct (drawImage_raises W reader x y w h) eqn:E; [by left|].
  right. by exists x, y, w, h.
Qed.

Lemma image_pages_elem pw ph p page :
  page ∈ image_pages W pw ph p ->
  exists reader, page = (image_outcome W reader pw ph).1.
Proof.
  unfold image_pages. destruct (load_outcome W p).1 as [reader|].
  - intros ->%list_elem_of_singleton. eauto.
  - by intros ?%elem_of_nil.
Qed.

(** Every page of the document is what one call of [add_image_to_page]
    left on an empty page. *)
Lemma document_elem pw ph cover ms page :
  page ∈ document W pw ph cover ms ->
  exists reader, page = (image_outcome W reader pw ph).1.
Proof.
  unfold document. rewrite elem_of_app. intros [H|H].
  - unfold cover_pages in H. destruct (py_truthy cover).
    + by apply image_pages_elem in H.
    + by apply elem_of_nil in H.
  - apply list_elem_of_In, in_flat_map in H as (m & _ & H).
    apply list_elem_of_In in H. unfold entry_pages in H.
    destruct (py_truthy _).
    + by apply image_pages_elem in H.
    + by apply elem_of_nil in H.
Qed.

Lemma placement_size reader pw ph x y w h :
  placement W reader pw ph = inr (x, y, w, h) ->
  exists iw ih, getSize W reader = inr (iw, ih) /\ iw <> 0 /\ ih <> 0.
Proof.
  intros H. destruct (getSize W reader) as [e|[iw ih]] eqn:Es.
  { unfold placement in H. by rewrite Es in H. }
  exists iw, ih. split; [done|].
  split; intros ->.
  - destruct (placement_zero_size W reader pw ph 0 ih Es (or_introl eq_refl)) as [e He].
    congruence.
  - destruct (placement_zero_size W reader pw ph iw 0 Es (or_intror eq_refl)) as [e He].
    congruence.
Qed.

End Documents.

(** X16.  On a configuration of the right shape (an output path, a
    format that gives a page size, a list of dictionaries as pages) the
    outcome of [generate_pdf] depends on the writing of the file only,
    whatever the images do: it is the success record when [save] and
    [os.path.getsize] return, and the failure record of the exception
    when one of them raises, after the cover and all story pages were
    processed.  The last line logged says which. *)
Theorem outcome_depends_on_writing_only (W : World) (m : gmap string json)
    out ms pw ph :
  m !! "output_path" = Some out ->
  default (JArr []) (m !! "pages") = JArr (JObj <$> ms) ->
  get_page_size (default (JStr "8x8") (m !! "format")) = inr (pw, ph) ->
  let cover := default JNull (m !! "cover_image") in
  let c := final_canvas W out pw ph cover ms in
  exists res lines,
    returns (generate_pdf W (JObj m)) res lines /\
    match save_raises W c, os_path_getsize W c with
    | Some e, _ | None, inl e =>
        res = failure_record e /\ last lines = Some (LogErrorGenerating e)
    | None, inr size =>
        res = success_record out size
                (Z.of_nat (length ms) + (if py_truthy cover then 1 else 0)) /\
        last lines = Some (LogGenerated out size)
    end.
Proof.
  intros Hout Hpages Hsize cover c.
  destruct (generate_pdf_body_run W m out ms pw ph Hout Hpages Hsize) as [lines Hrun].
  cbv zeta in Hrun. fold cover c in Hrun.
  destruct (save_raises W c) as [e|].
  { eexists _, _. split; [apply (generate_pdf_of_raise W _ e lines Hrun)|].
    split; [reflexivity|apply last_snoc]. }
  destruct (os_path_getsize W c) as [e|size].
  { eexists _, _. split; [apply (generate_pdf_of_raise W _ e lines Hrun)|].
    split; [reflexivity|apply last_snoc]. }
  eexists _, _. split; [apply (generate_pdf_of_body W _ _ c _ Hrun)|].
  split; [reflexivity|apply last_snoc].
Qed.

Lemma outcome_depends_on_writing_only_witness :
  (exists lines,
     returns (generate_pdf Sample.read_only_world (JObj Sample.config))
       (failure_record (LibraryError "Permission denied")) lines) /\
  (exists lines,
     returns (generate_pdf Sample.world (JObj Sample.config))
       (success_record (JStr "book.pdf") 1300 8) lines).
Proof.
  split.
  - destruct (outcome_depends_on_writing_only Sample.read_only_world Sample.config
                (JStr "book.pdf") Sample.story (PInt 576) (PInt 576))
      as (res & lines & H & Hres); [vm_compute; reflexivity ..|].
    cbn in Hres. destruct Hres as [-> _]. by exists lines.
  - destruct (outcome_depends_on_writing_only Sample.world Sample.config
                (JStr "book.pdf") Sample.story (PInt 576) (PInt 576))
      as (res & lines & H & Hres); [vm_compute; reflexivity ..|].
    cbn in Hres. destruct Hres as [-> _]. by exists lines.
Defined.

(** X17.  On a successful run over a list of dictionaries the canvas
    that was saved carries the output path and the page size of the
    format, has no operation pending on an unfinished page, holds at most
    one image on each page, and has no more pages than the [page_count]
    of the record reports. *)
Theorem document_pages_within_count (W : World) (m : gmap string json) ms
    (log : list log_line) res c log' :
  default (JArr []) (m !! "pages") = JArr (JObj <$> ms) ->
  generate_pdf_body W (JObj m) log = (inr (res, c), log') ->
  code c = [] /\
  Forall (fun page => (length page <= 1)%nat) (pages c) /\
  Some (filename c) = m !! "output_path" /\
  get_page_size (default (JStr "8x8") (m !! "format")) = inr (pagesize c) /\
  exists n,
    py_getitem res "page_count" = inr (JInt n) /\
    Z.of_nat (length (pages c)) <= n <= Z.of_nat (length ms) + 1.
Proof.
  intros Hpages H.
  destruct (generate_pdf_body_success W m ms log res c log' Hpages H)
    as (out & pw & ph & size & Hout & Hsize & -> & ->).
  cbn [code pages filename pagesize final_canvas].
  split; [done|]. split.
  { apply Forall_forall. intros page Hp.
    destruct (document_elem W _ _ _ _ _ Hp) as [reader ->].
    destruct (image_outcome_cases W reader pw ph) as [-> | (x & y & w & h & _ & _ & ->)];
      simpl; lia. }
  split; [done|]. split; [done|].
  eexists. split; [reflexivity|].
  pose proof (document_length W pw ph (default JNull (m !! "cover_image")) ms) as Hl.
  destruct (py_truthy _); lia.
Qed.

Lemma document_pages_within_count_witness :
  exists res c lines,
    generate_pdf_body Sample.world (JObj Sample.config) [] = (inr (res, c), lines) /\
    code c = [] /\
    exists n,
      py_getitem res "page_count" = inr (JInt n) /\
      Z.of_nat (length (pages c)) <= n <= Z.of_nat (length Sample.story) + 1.
Proof.
  destruct (generate_pdf_body Sample.world (JObj Sample.config) [])
    as [[e|[res c]] lines] eqn:E; [vm_compute in E; discriminate|].
  exists res, c, lines. split; [reflexivity|].
  destruct (document_pages_within_count Sample.world Sample.config Sample.story
              [] res c lines) as (H1 & _ & _ & _ & H2).
  - vm_compute; reflexivity.
  - exact E.
  - split; [exact H1|exact H2].
Defined.

(** X18.  Full bleed, end to end.  With a library whose images have
    sides below 2^31, every image on every page of a document that
    [generate_pdf] saved covers the page up to rounding: its width and
    height are at least the page's times (1 - 2^-52)^2, and on each of
    the four sides the margin it leaves is at most
    page * 2^-52 * (1 + 2^-52). *)
Theorem every_drawn_image_fills_its_page (W : World) (m : gmap string json) ms
    (log : list log_line) res c log' :
  (forall r iw ih, getSize W r = inr (iw, ih) ->
     0 <= iw < 2 ^ 31 /\ 0 <= ih < 2 ^ 31) ->
  default (JArr []) (m !! "pages") = JArr (JObj <$> ms) ->
  generate_pdf_body W (JObj m) log = (inr (res, c), log') ->
  forall page r x y width height,
    page ∈ pages c -> DrawImage r x y width height ∈ page ->
    let pw := py_val (pagesize c).1 in
    let ph := py_val (pagesize c).2 in
    (pw * (1 - F64.eps) * (1 - F64.eps) <= py_val width)%Q /\
    (ph * (1 - F64.eps) * (1 - F64.eps) <= py_val height)%Q /\
    (py_val x <= pw * F64.eps * (1 + F64.eps))%Q /\
    (pw - (py_val x + py_val width) <= pw * F64.eps * (1 + F64.eps))%Q /\
    (py_val y <= ph * F64.eps * (1 + F64.eps))%Q /\
    (ph - (py_val y + py_val height) <= ph * F64.eps * (1 + F64.eps))%Q.
Proof.
  intros Hpil Hpages H page r x y width height Hpage Hop.
  destruct (generate_pdf_body_success W m ms log res c log' Hpages H)
    as (out & pw & ph & size & Hout & Hsize & -> & ->).
  cbn [pages pagesize final_canvas fst snd] in *.
  destruct (get_page_size_ok _ _ _ Hsize) as (Hpw & Hph & _).
  destruct (document_elem W _ _ _ _ _ Hpage) as [reader ->].
  destruct (image_outcome_cases W reader pw ph)
    as [E | (x' & y' & w' & h' & Hp & _ & E)]; rewrite E in Hop.
  { by apply elem_of_nil in Hop. }
  apply list_elem_of_singleton in Hop. injection Hop as -> -> -> -> ->.
  destruct (placement_size W _ _ _ _ _ _ _ Hp) as (iw & ih & Hs & Hiw & Hih).
  destruct (Hpil _ _ _ Hs) as [Biw Bih].
  destruct (placement_facts W reader pw ph iw ih Hs ltac:(lia) ltac:(lia) Hpw Hph)
    as (sx & sy & s & sw & sh & dx & dy & x & y &
        _ & _ & _ & _ & _ & _ & _ & _ & _ & Hp' &
        Vsx & Vsy & Hsx & Hsy & _ & Vsw & Vsh & Ox & Oy).
  rewrite Hp in Hp'. injection Hp' as -> -> -> ->. cbn [py_val].
  assert (Hi : (0 < inject_Z iw)%Q)
    by (change 0%Q with (inject_Z 0); rewrite <- Zlt_Qlt; lia).
  assert (Hj : (0 < inject_Z ih)%Q)
    by (change 0%Q with (inject_Z 0); rewrite <- Zlt_Qlt; lia).
  pose proof (scaled_covers _ _ _ _ _ Hi Vsx Hsx Vsw) as Cw.
  pose proof (scaled_covers _ _ _ _ _ Hj Vsy Hsy Vsh) as Ch.
  destruct (margin_bound _ _ _ _ (page_dim_pos pw Hpw) Cw Ox) as [Mx Mx'].
  destruct (margin_bound _ _ _ _ (page_dim_pos ph Hph) Ch Oy) as [My My'].
  done.
Qed.

Lemma every_drawn_image_fills_its_page_witness :
  exists res c lines,
    generate_pdf_body Sample.pil_world (JObj Sample.config) [] = (inr (res, c), lines) /\
    length (pages c) = 3%nat /\
    forall page r x y width height,
      page ∈ pages c -> DrawImage r x y width height ∈ page ->
      (py_val (pagesize c).1 * (1 - F64.eps) * (1 - F64.eps) <= py_val width)%Q /\
      (py_val (pagesize c).2 * (1 - F64.eps) * (1 - F64.eps) <= py_val height)%Q.
Proof.
  destruct (generate_pdf_body Sample.pil_world (JObj Sample.config) [])
    as [[e|[res c]] lines] eqn:E; [vm_compute in E; discriminate|].
  exists res, c, lines. split; [reflexivity|]. split.
  { vm_compute in E. injection E as <- <- <-. reflexivity. }
  intros page r x y width height Hpage Hop.
  assert (Hpil : forall r' iw ih, getSize Sample.pil_world r' = inr (iw, ih) ->
                   0 <= iw < 2 ^ 31 /\ 0 <= ih < 2 ^ 31).
  { intros r' iw ih. unfold getSize, Sample.pil_world.
    destruct (img_size (reader_image r')) as [a b]. cbn [fst snd].
    destruct ((0 <=? a) && (a <? 2 ^ 31) && (0 <=? b) && (b <? 2 ^ 31)) eqn:Eb;
      [|discriminate].
    intros [= <- <-]. lia. }
  destruct (every_drawn_image_fills_its_page Sample.pil_world Sample.config
              Sample.story [] res c lines Hpil eq_refl E
              page r x y width height Hpage Hop) as (H1 & H2 & _).
  split; [exact H1|exact H2].
Defined.

Section Counting.

Variable W : World.

Lemma image_pages_one pw ph p :
  length (image_pages W pw ph p) = 1%nat <-> is_Some (load_outcome W p).1.
Proof.
  unfold image_pages. destruct (load_outcome W p).1; simpl; split; try done.
Qed.

Lemma entry_pages_one pw ph (entry : gmap string json) :
  length (entry_pages W pw ph entry) = 1%nat <->
  py_truthy (default JNull (entry !! "image_path")) = true /\
  is_Some (load_outcome W (default JNull (entry !! "image_path"))).1.
Proof.
  unfold entry_pages. destruct (py_truthy _).
  - rewrite image_pages_one. split; [done|by intros [_ ?]].
  - simpl. split; [done|by intros [? _]].
Qed.

Lemma entry_pages_le pw ph (entry : gmap string json) :
  (length (entry_pages W pw ph entry) <= 1)%nat.
Proof.
  unfold entry_pages. destruct (py_truthy _); [apply image_pages_length|simpl; lia].
Qed.

Lemma story_pages_all pw ph ms :
  length (flat_map (entry_pages W pw ph) ms) = length ms <->
  Forall (fun entry : gmap string json =>
            py_truthy (default JNull (entry !! "image_path")) = true /\
            is_Some (load_outcome W (default JNull (entry !! "image_path"))).1) ms.
Proof.
  induction ms as [|entry ms IH]; [simpl; split; [constructor|done]|].
  cbn [flat_map length]. rewrite length_app, Forall_cons, <- IH, <- (entry_pages_one pw ph).
  pose proof (entry_pages_le pw ph entry).
  assert (length (flat_map (entry_pages W pw ph) ms) <= length ms)%nat.
  { clear. induction ms as [|e ms IH]; simpl; [lia|]. rewrite length_app.
    pose proof (entry_pages_le pw ph e). lia. }
  lia.
Qed.

End Counting.

(** X19.  The reported [page_count] is the number of pages of the saved
    document exactly when nothing was left out: every story entry has an
    image path that is set and loads, and so does the cover when one is
    set.  (An image that loads but cannot be drawn still has its page.) *)
Theorem page_count_is_exact_when_all_load (W : World) (m : gmap string json) ms
    (log : list log_line) res c log' :
  default (JArr []) (m !! "pages") = JArr (JObj <$> ms) ->
  generate_pdf_body W (JObj m) log = (inr (res, c), log') ->
  let cover := default JNull (m !! "cover_image") in
  py_getitem res "page_count" = inr (JInt (Z.of_nat (length (pages c)))) <->
  Forall (fun entry : gmap string json =>
            py_truthy (default JNull (entry !! "image_path")) = true /\
            is_Some (load_outcome W (default JNull (entry !! "image_path"))).1) ms /\
  (py_truthy cover = true -> is_Some (load_outcome W cover).1).
Proof.
  intros Hpages H cover.
  destruct (generate_pdf_body_success W m ms log res c log' Hpages H)
    as (out & pw & ph & size & Hout & Hsize & -> & ->).
  fold cover. cbn [pages final_canvas]. unfold document. rewrite length_app.
  rewrite <- (story_pages_all W pw ph ms).
  assert (Hs : (length (flat_map (entry_pages W pw ph) ms) <= length ms)%nat).
  { clear. induction ms as [|e ms IH]; simpl; [lia|]. rewrite length_app.
    pose proof (entry_pages_le W pw ph e). lia. }
  unfold success_record, py_getitem.
  rewrite lookup_insert_ne, lookup_insert_ne, lookup_insert_ne by done.
  rewrite lookup_singleton.
  unfold cover_pages. destruct (py_truthy cover) eqn:Ht.
  - pose proof (image_pages_length W pw ph cover) as Hc.
    rewrite <- (image_pages_one W pw ph cover).
    split.
    + intros [= E]. split; [lia|]. intros _. lia.
    + intros [E1 E2]. specialize (E2 eq_refl). do 2 f_equal. lia.
  - simpl. split.
    + intros [= E]. split; [lia|done].
    + intros [E1 _]. do 2 f_equal. lia.
Qed.

Lemma page_count_is_exact_when_all_load_witness :
  let config : gmap string json :=
    {[ "output_path" := JStr "book.pdf";
       "cover_image" := JStr "cover.png";
       "pages" := JArr [JObj (Sample.page "wide.png")] ]} in
  exists res c lines,
    generate_pdf_body Sample.world (JObj config) [] = (inr (res, c), lines) /\
    py_getitem res "page_count" = inr (JInt (Z.of_nat (length (pages c)))) /\
    length (pages c) = 2%nat.
Proof.
  intros config.
  destruct (generate_pdf_body Sample.world (JObj config) [])
    as [[e|[res c]] lines] eqn:E; [vm_compute in E; discriminate|].
  exists res, c, lines. split; [reflexivity|]. split.
  - apply (page_count_is_exact_when_all_load Sample.world config
             [Sample.page "wide.png"] [] res c lines eq_refl E).
    split.
    + repeat constructor. by eexists.
    + intros _. by eexists.
  - vm_compute in E. injection E as <- <- <-. reflexivity.
Defined.

Section Outcome.

Variable W : World.

Lemma print_inr l log (u : unit) log' :
  print l log = (inr u, log') -> log' = log ++ [l].
Proof. unfold print. by intros [= _ <-]. Qed.

(** The last thing a run of the [try] block that reaches its [return]
    printed is the "PDF generated" line, with the output path and the
    size that the record carries. *)
Lemma generate_pdf_body_inr_last config log res c log' :
  generate_pdf_body W config log = (inr (res, c), log') ->
  exists out size n l,
    res = success_record out size n /\ log' = l ++ [LogGenerated out size].
Proof.
  unfold generate_pdf_body. intros H.
  apply bind_inr in H as (out & l1 & _ & H).
  apply bind_inr in H as (fmt & l2 & _ & H).
  apply bind_inr in H as (cover & l3 & _ & H).
  apply bind_inr in H as (pgs & l4 & _ & H).
  apply bind_inr in H as ([pw ph] & l5 & _ & H).
  apply bind_inr in H as (? & l6 & _ & H).
  apply bind_inr in H as (w_in & l7 & _ & H).
  apply bind_inr in H as (h_in & l8 & _ & H).
  apply bind_inr in H as (? & l9 & _ & H).
  apply bind_inr in H as (n0 & l10 & _ & H).
  apply bind_inr in H as (? & l11 & _ & H).
  apply bind_inr in H as (c1 & l12 & _ & H).
  apply bind_inr in H as (items & l13 & _ & H).
  apply bind_inr in H as (c2 & l14 & _ & H).
  apply bind_inr in H as ([] & l15 & _ & H).
  apply bind_inr in H as (size & l16 & _ & H).
  apply bind_inr in H as (? & l17 & Hp & H). apply print_inr in Hp as ->.
  apply bind_inr in H as (n & l18 & H18 & H). apply lift_inr in H18 as [_ ->].
  unfold ret in H. injection H as <- <- <-.
  eexists out, size, _, l16. split; reflexivity.
Qed.

End Outcome.

(** X20.  Whatever the configuration and the libraries, [generate_pdf]
    returns a record, and the last line it logged tells which: the
    "PDF generated" line with the output path and the file size of the
    success record, or the "Error generating PDF" line with the exception
    of the failure record. *)
Theorem last_log_line_tells_outcome (W : World) (config : json) (log : list log_line) :
  exists res log',
    generate_pdf W config log = (inr res, log') /\
    ((exists out size n,
        res = success_record out size n /\ last log' = Some (LogGenerated out size)) \/
     (exists e,
        res = failure_record e /\ last log' = Some (LogErrorGenerating e))).
Proof.
  unfold generate_pdf, try_except, bind.
  destruct (generate_pdf_body W config log) as [[e|[res c]] log'] eqn:E.
  - eexists _, _. split; [reflexivity|]. right. exists e.
    split; [reflexivity|]. by rewrite last_snoc.
  - destruct (generate_pdf_body_inr_last W _ _ _ _ _ E) as (out & size & n & l & -> & ->).
    eexists _, _. split; [reflexivity|]. left. exists out, size, n.
    split; [reflexivity|]. by rewrite last_snoc.
Qed.

(** X21.  The size in megabytes of the last progress line cannot make a
    generation fail after its file was saved: for every size a file can
    have (below 2^63) the division by 1024 * 1024 returns a finite float,
    within one rounding of the exact quotient. *)
Theorem file_size_mb_returns (file_size : Z) :
  0 <= file_size < 2 ^ 63 ->
  exists mb,
    file_size_mb file_size = inr (PFloat mb) /\
    F64.is_finite mb = true /\
    F64.near (inject_Z file_size / inject_Z (1024 * 1024)) (F64.to_Q mb).
Proof.
  intros Hz. unfold file_size_mb, py_truediv.
  change (1024 * 1024) with 1048576. cbn [py_is_zero Z.eqb].
  destruct file_size as [|p|p]; try lia.
  - eexists. split; [reflexivity|]. split; [reflexivity|].
    split; vm_compute; discriminate.
  - unfold int_true_div. cbn [Z.ltb Z.compare].
    change (Z.to_pos (Z.abs (Zpos p))) with p.
    pose proof (F64Facts.digits_upper p 63 ltac:(lia) ltac:(lia)) as Up.
    pose proof (F64Facts.div_finite_value p 0 1048576 0) as H. cbv zeta in H.
    change (Zpos (digits2_pos 1048576)) with 21 in H.
    destruct H as [Hn Hv]; [lia|lia|lia|].
    change (Z.to_pos (Z.abs 1048576)) with 1048576%positive.
    rewrite (F64Facts.normal_is_finite _ _ _ Hn).
    eexists. split; [reflexivity|].
    split; [exact (F64Facts.normal_is_finite _ _ _ Hn)|].
    unfold F64.near in *. cbn [F64.to_Q] in Hv. change (Qpower 2 0) with 1%Q in Hv.
    rewrite !Qmult_1_r in Hv. exact Hv.
Qed.

Lemma file_size_mb_returns_witness :
  exists mb,
    file_size_mb 1300 = inr (PFloat mb) /\
    F64.is_finite mb = true /\
    F64.near (inject_Z 1300 / inject_Z (1024 * 1024)) (F64.to_Q mb).
Proof. apply file_size_mb_returns. lia. Defined.
